(** * The chat widget's Conversation Session Controller

    A shallow embedding of the two builds of the widget script and the
    properties its specification states about it.  The plain build
    ([unnamed/part_000]) is complete.  The streaming build
    ([production_build/frontend/app.js]) is modelled as it is shipped: it
    declares no [handleRouting], [renderLeadForm], [endChatSession],
    [handleLeadSubmit] and [handleRating], so where it calls one of them a
    ReferenceError is thrown.

    Conventions.
    - A JavaScript string is the list of its UTF-16 code units ([jstring]).
    - A value that comes out of [JSON.parse] is a [JsValue]; member access,
      truthiness, [||] and [===] are written out as the language defines them.
    - The script's top-level [let] variables and the parts of the document it
      touches are the fields of [Session]; a function of the script is a
      state transformer that may complete normally or by a thrown exception
      ([Eff]), and mutations made before a throw persist, as in JavaScript.
    - What the browser supplies ([JSON.parse], number formatting, markup
      parsing, element serialisation) is a Section variable; reference
      instances for the closed examples are defined next to the sample
      inputs.
    - [run] runs every handler in one piece, the handlers that wait for the
      network ([sendMessage], [handleLeadSubmit]) included; [irun] runs
      the pieces of these between two [await]s in any order, with other
      handlers in between.  The phrase in the typing bubble
      (the text of a status event, or the phrase [getTypingFlavor] picks,
      which is modelled as a function of its own), the launcher, the toast
      and the FAQ toggles are no part of the session. *)

From Stdlib Require Import ZArith List Bool String Ascii Lia QArith_base Qround.
Import ListNotations.
Local Open Scope Z_scope.
Local Open Scope list_scope.
Set Warnings "-register-all".

(* ------------------------------------------------------------------ *)
(** ** Strings *)

Definition jstring := list Z.

Definition code_of_ascii (c : ascii) : Z := Z.of_N (N_of_ascii c).

(** [lit "abc"] is the string literal ['abc']. *)
Definition lit (s : string) : jstring := map code_of_ascii (list_ascii_of_string s).

(** [litq] reads a backtick as the double quote (code unit 34), so that
    markup with quoted attributes can be written down. *)
Definition litq (s : string) : jstring :=
  map (fun c => if c =? 96 then 34 else c) (lit s).

Fixpoint jstr_eqb (a b : jstring) : bool :=
  match a, b with
  | [], [] => true
  | x :: a', y :: b' => (x =? y) && jstr_eqb a' b'
  | _, _ => false
  end.

(** [s.startsWith(p)] *)
Fixpoint startsWith (s p : jstring) : bool :=
  match p, s with
  | [], _ => true
  | c :: p', d :: s' => (c =? d) && startsWith s' p'
  | _ :: _, [] => false
  end.

(** WhiteSpace and LineTerminator code units, as [String.prototype.trim]
    and the regular expression class [\s] use them. *)
Definition isWhiteSpace (c : Z) : bool :=
  ((9 <=? c) && (c <=? 13)) || (c =? 32) || (c =? 160) || (c =? 5760)
  || ((8192 <=? c) && (c <=? 8202)) || (c =? 8232) || (c =? 8233)
  || (c =? 8239) || (c =? 8287) || (c =? 12288) || (c =? 65279).

Fixpoint trimStart (s : jstring) : jstring :=
  match s with
  | c :: s' => if isWhiteSpace c then trimStart s' else s
  | [] => []
  end.

Definition trim (s : jstring) : jstring := rev (trimStart (rev (trimStart s))).

(* ------------------------------------------------------------------ *)
(** ** JavaScript values *)

Inductive JsValue : Type :=
| JUndefined
| JNull
| JBool (b : bool)
| JNum (q : Q)
| JStr (s : jstring)
| JArr (items : list JsValue)
| JObj (props : list (jstring * JsValue)).

(** ToBoolean. *)
Definition truthy (v : JsValue) : bool :=
  match v with
  | JUndefined | JNull => false
  | JBool b => b
  | JNum q => negb (Qnum q =? 0)
  | JStr s => match s with [] => false | _ => true end
  | JArr _ | JObj _ => true
  end.

(** [a || b] *)
Definition jsOr (a b : JsValue) : JsValue := if truthy a then a else b.

(** [v === 'literal'] *)
Definition strictEqStr (v : JsValue) (l : jstring) : bool :=
  match v with JStr s => jstr_eqb s l | _ => false end.

Fixpoint lookupProp (k : jstring) (props : list (jstring * JsValue)) : JsValue :=
  match props with
  | [] => JUndefined
  | (k', v) :: rest => if jstr_eqb k k' then v else lookupProp k rest
  end.

(** [v?.k]: the member [k] of [v], undefined on null and undefined.  The
    keys the script reads are data keys of the backend's JSON; none of them
    is found on a prototype, so a primitive or an array has none of them. *)
Definition optMember (v : JsValue) (k : jstring) : JsValue :=
  match v with JObj props => lookupProp k props | _ => JUndefined end.

(** [v.k]: as [v?.k], but a TypeError ([None]) on null and undefined. *)
Definition member (v : JsValue) (k : jstring) : option JsValue :=
  match v with
  | JUndefined | JNull => None
  | _ => Some (optMember v k)
  end.

(** [a || b] where either side may throw and [b] is evaluated only when
    [a] is falsy. *)
Definition orElse (a b : option JsValue) : option JsValue :=
  match a with
  | None => None
  | Some v => if truthy v then Some v else b
  end.

Definition emptyObject : JsValue := JObj [].

(* ------------------------------------------------------------------ *)
(** ** The document and the session *)

Inductive Role := user | assistant.

Inductive BubbleBody :=
| TextContent (v : JsValue)      (* bubble.textContent = v *)
| InnerHTML (v : JsValue).       (* bubble.innerHTML = v *)

(** [pendingLeadMeta] when it is not null. *)
Record LeadMeta := mkLeadMeta {
  meta_intent : JsValue;
  meta_summary : JsValue;
  meta_urgency : JsValue
}.

(** What [renderLeadForm] interpolates into the form's markup. *)
Record LeadForm := mkLeadForm {
  form_summaryText : JsValue;
  form_emailOnFile : JsValue;
  form_phoneOnFile : JsValue;
  form_defaultContact : jstring
}.

(** The children of [#chatBody], in document order. *)
Inductive Node :=
| Bubble (role : Role) (body : BubbleBody)
| LeadFormNode (f : LeadForm)
| TypingBubbleNode
| SuggestionChips (chips : list jstring).

(** The body of a POST the script issues. *)
Inductive FetchCall :=
| ChatRequest (business_id : option jstring) (conversation_id : JsValue)
    (message : jstring) (sheet_id : option jstring)
| LeadRequest (conversation_id : JsValue) (name email phone : jstring)
    (meta : option LeadMeta).

Record Session := mkSession {
  (* the script's variables *)
  conversationId : JsValue;
  leadFormVisible : bool;
  leadSubmitted : bool;
  pendingLeadMeta : option LeadMeta;
  latestProfile : JsValue;
  sessionRating : option jstring;
  chatEnded : bool;
  typingBubble : bool;            (* streaming build: the bubble was created *)
  (* the document *)
  chatBody : list Node;
  chatInput_value : jstring;
  inputLocked : bool;             (* input and send button disabled, input area hidden *)
  ratingShown : bool;
  typingShown : bool;
  (* the outside world *)
  fetchLog : list FetchCall;      (* requests issued, oldest first *)
  alerts : list jstring;
  endTimers : nat                 (* pending setTimeout(endChatSession, 800) *)
}.

Definition set_conversationId (v : JsValue) (s : Session) : Session :=
  mkSession v (leadFormVisible s) (leadSubmitted s) (pendingLeadMeta s)
    (latestProfile s) (sessionRating s) (chatEnded s) (typingBubble s)
    (chatBody s) (chatInput_value s) (inputLocked s) (ratingShown s)
    (typingShown s) (fetchLog s) (alerts s) (endTimers s).

Definition set_leadFormVisible (b : bool) (s : Session) : Session :=
  mkSession (conversationId s) b (leadSubmitted s) (pendingLeadMeta s)
    (latestProfile s) (sessionRating s) (chatEnded s) (typingBubble s)
    (chatBody s) (chatInput_value s) (inputLocked s) (ratingShown s)
    (typingShown s) (fetchLog s) (alerts s) (endTimers s).

Definition set_leadSubmitted (b : bool) (s : Session) : Session :=
  mkSession (conversationId s) (leadFormVisible s) b (pendingLeadMeta s)
    (latestProfile s) (sessionRating s) (chatEnded s) (typingBubble s)
    (chatBody s) (chatInput_value s) (inputLocked s) (ratingShown s)
    (typingShown s) (fetchLog s) (alerts s) (endTimers s).

Definition set_pendingLeadMeta (m : option LeadMeta) (s : Session) : Session :=
  mkSession (conversationId s) (leadFormVisible s) (leadSubmitted s) m
    (latestProfile s) (sessionRating s) (chatEnded s) (typingBubble s)
    (chatBody s) (chatInput_value s) (inputLocked s) (ratingShown s)
    (typingShown s) (fetchLog s) (alerts s) (endTimers s).

Definition set_latestProfile (p : JsValue) (s : Session) : Session :=
  mkSession (conversationId s) (leadFormVisible s) (leadSubmitted s)
    (pendingLeadMeta s) p (sessionRating s) (chatEnded s) (typingBubble s)
    (chatBody s) (chatInput_value s) (inputLocked s) (ratingShown s)
    (typingShown s) (fetchLog s) (alerts s) (endTimers s).

Definition set_sessionRating (r : option jstring) (s : Session) : Session :=
  mkSession (conversationId s) (leadFormVisible s) (leadSubmitted s)
    (pendingLeadMeta s) (latestProfile s) r (chatEnded s) (typingBubble s)
    (chatBody s) (chatInput_value s) (inputLocked s) (ratingShown s)
    (typingShown s) (fetchLog s) (alerts s) (endTimers s).

Definition set_chatEnded (b : bool) (s : Session) : Session :=
  mkSession (conversationId s) (leadFormVisible s) (leadSubmitted s)
    (pendingLeadMeta s) (latestProfile s) (sessionRating s) b (typingBubble s)
    (chatBody s) (chatInput_value s) (inputLocked s) (ratingShown s)
    (typingShown s) (fetchLog s) (alerts s) (endTimers s).

Definition set_typingBubble (b : bool) (s : Session) : Session :=
  mkSession (conversationId s) (leadFormVisible s) (leadSubmitted s)
    (pendingLeadMeta s) (latestProfile s) (sessionRating s) (chatEnded s) b
    (chatBody s) (chatInput_value s) (inputLocked s) (ratingShown s)
    (typingShown s) (fetchLog s) (alerts s) (endTimers s).

Definition set_chatBody (b : list Node) (s : Session) : Session :=
  mkSession (conversationId s) (leadFormVisible s) (leadSubmitted s)
    (pendingLeadMeta s) (latestProfile s) (sessionRating s) (chatEnded s)
    (typingBubble s) b (chatInput_value s) (inputLocked s) (ratingShown s)
    (typingShown s) (fetchLog s) (alerts s) (endTimers s).

Definition set_chatInput_value (v : jstring) (s : Session) : Session :=
  mkSession (conversationId s) (leadFormVisible s) (leadSubmitted s)
    (pendingLeadMeta s) (latestProfile s) (sessionRating s) (chatEnded s)
    (typingBubble s) (chatBody s) v (inputLocked s) (ratingShown s)
    (typingShown s) (fetchLog s) (alerts s) (endTimers s).

Definition set_inputLocked (b : bool) (s : Session) : Session :=
  mkSession (conversationId s) (leadFormVisible s) (leadSubmitted s)
    (pendingLeadMeta s) (latestProfile s) (sessionRating s) (chatEnded s)
    (typingBubble s) (chatBody s) (chatInput_value s) b (ratingShown s)
    (typingShown s) (fetchLog s) (alerts s) (endTimers s).

Definition set_ratingShown (b : bool) (s : Session) : Session :=
  mkSession (conversationId s) (leadFormVisible s) (leadSubmitted s)
    (pendingLeadMeta s) (latestProfile s) (sessionRating s) (chatEnded s)
    (typingBubble s) (chatBody s) (chatInput_value s) (inputLocked s) b
    (typingShown s) (fetchLog s) (alerts s) (endTimers s).

Definition set_typingShown (b : bool) (s : Session) : Session :=
  mkSession (conversationId s) (leadFormVisible s) (leadSubmitted s)
    (pendingLeadMeta s) (latestProfile s) (sessionRating s) (chatEnded s)
    (typingBubble s) (chatBody s) (chatInput_value s) (inputLocked s)
    (ratingShown s) b (fetchLog s) (alerts s) (endTimers s).

Definition set_fetchLog (l : list FetchCall) (s : Session) : Session :=
  mkSession (conversationId s) (leadFormVisible s) (leadSubmitted s)
    (pendingLeadMeta s) (latestProfile s) (sessionRating s) (chatEnded s)
    (typingBubble s) (chatBody s) (chatInput_value s) (inputLocked s)
    (ratingShown s) (typingShown s) l (alerts s) (endTimers s).

Definition set_alerts (l : list jstring) (s : Session) : Session :=
  mkSession (conversationId s) (leadFormVisible s) (leadSubmitted s)
    (pendingLeadMeta s) (latestProfile s) (sessionRating s) (chatEnded s)
    (typingBubble s) (chatBody s) (chatInput_value s) (inputLocked s)
    (ratingShown s) (typingShown s) (fetchLog s) l (endTimers s).

Definition set_endTimers (n : nat) (s : Session) : Session :=
  mkSession (conversationId s) (leadFormVisible s) (leadSubmitted s)
    (pendingLeadMeta s) (latestProfile s) (sessionRating s) (chatEnded s)
    (typingBubble s) (chatBody s) (chatInput_value s) (inputLocked s)
    (ratingShown s) (typingShown s) (fetchLog s) (alerts s) n.

(* ------------------------------------------------------------------ *)
(** ** Effects: state, and completion by return or by throw *)

Inductive Completion (A : Type) : Type :=
| Normal (a : A)
| Thrown.
Arguments Normal {A} a.
Arguments Thrown {A}.

Definition Eff (A : Type) : Type := Session -> Completion A * Session.

Definition ret {A} (a : A) : Eff A := fun s => (Normal a, s).
Definition throw {A} : Eff A := fun s => (Thrown, s).
Definition bind {A B} (m : Eff A) (k : A -> Eff B) : Eff B :=
  fun s => match m s with
           | (Normal a, s') => k a s'
           | (Thrown, s') => (Thrown, s')
           end.
Definition get : Eff Session := fun s => (Normal s, s).
Definition modify (f : Session -> Session) : Eff unit := fun s => (Normal tt, f s).

(** An expression that may throw a TypeError. *)
Definition liftE {A} (o : option A) : Eff A :=
  match o with Some a => ret a | None => throw end.

(** [try { body } catch (e) { handler }] *)
Definition tryCatch (body handler : Eff unit) : Eff unit :=
  fun s => match body s with
           | (Normal a, s') => (Normal a, s')
           | (Thrown, s') => handler s'
           end.

(** [try { body } finally { cleanup }], for a cleanup that does not throw. *)
Definition tryFinally (body cleanup : Eff unit) : Eff unit :=
  fun s => match body s with
           | (c, s') => (c, snd (cleanup s'))
           end.

Declare Scope eff_scope.
Delimit Scope eff_scope with eff.
Notation "x <- m ;; k" := (bind m (fun x => k))
  (at level 61, m at next level, right associativity) : eff_scope.
Notation "m ;; k" := (bind m (fun _ => k))
  (at level 61, right associativity) : eff_scope.
Local Open Scope eff_scope.

(** The session a handler leaves behind, however it completed. *)
Definition exec {A} (m : Eff A) (s : Session) : Session := snd (m s).
Definition completion {A} (m : Eff A) (s : Session) : Completion A := fst (m s).

(* ------------------------------------------------------------------ *)
(** ** String constants of the script *)

Definition k_lead_capture : jstring := Eval cbv in lit "lead_capture".
Definition k_stage : jstring := Eval cbv in lit "stage".
Definition k_contact_email : jstring := Eval cbv in lit "contact_email".
Definition k_contact_phone : jstring := Eval cbv in lit "contact_phone".
Definition k_intent : jstring := Eval cbv in lit "intent".
Definition k_product_name : jstring := Eval cbv in lit "product_name".
Definition k_requested_date : jstring := Eval cbv in lit "requested_date".
Definition k_summary : jstring := Eval cbv in lit "summary".
Definition k_urgency : jstring := Eval cbv in lit "urgency".
Definition k_type : jstring := Eval cbv in lit "type".
Definition k_data : jstring := Eval cbv in lit "data".
Definition k_conversation_id : jstring := Eval cbv in lit "conversation_id".
Definition k_reply : jstring := Eval cbv in lit "reply".
Definition k_routing : jstring := Eval cbv in lit "routing".
Definition k_profile : jstring := Eval cbv in lit "profile".
Definition k_lead_captured : jstring := Eval cbv in lit "lead_captured".

Definition genericSummary : jstring :=
  lit "To confirm availability we just need the best way to reach you.".
Definition apology : jstring :=
  lit "The backend is unavailable right now. Sorry for the inconvenience!".
Definition notConfigured : jstring :=
  lit "Chat is not configured yet. Please set RM_BUSINESS_ID.".

(* ------------------------------------------------------------------ *)
(** ** Document helpers *)

Definition isLeadFormNode (n : Node) : bool :=
  match n with LeadFormNode _ => true | _ => false end.

(** [chatBody.querySelector('.lead-form')?.remove()]: the first form, if any,
    leaves the document. *)
Fixpoint removeFirstLeadForm (body : list Node) : list Node :=
  match body with
  | [] => []
  | n :: rest => if isLeadFormNode n then rest else n :: removeFirstLeadForm rest
  end.

Definition hasLeadForm (body : list Node) : bool := existsb isLeadFormNode body.

Definition appendChild (n : Node) : Eff unit :=
  modify (fun s => set_chatBody (chatBody s ++ [n]) s).


(* ------------------------------------------------------------------ *)
(** ** The Message Renderer: the two tag expressions

    Each regular expression of [renderAssistantMessage] is written as the
    matcher it denotes at one start position.  The expressions leave the
    backtracking matcher no choice that could succeed later: a greedy run is
    always followed by a character outside the run's class, and an optional
    attribute group that matched cannot be skipped, because what would have to
    follow (the next group's name or the closing bracket) differs from the
    group's first letter.  The one place where a greedy run gives a character
    back, the whitespace before a listing card's attributes, is written out. *)

Definition toLowerAscii (c : Z) : Z :=
  if (65 <=? c) && (c <=? 90) then c + 32 else c.

(** A literal under the [i] flag; [pat] is given in lower case. *)
Fixpoint matchCI (pat s : jstring) : option jstring :=
  match pat, s with
  | [], _ => Some s
  | p :: pat', c :: s' => if toLowerAscii c =? p then matchCI pat' s' else None
  | _ :: _, [] => None
  end.

(** The longest prefix whose code units satisfy [p], and the rest. *)
Fixpoint span (p : Z -> bool) (s : jstring) : jstring * jstring :=
  match s with
  | c :: s' => if p c then let r := span p s' in (c :: fst r, snd r) else ([], s)
  | [] => ([], [])
  end.

Definition isQuote (c : Z) : bool := c =? 34.
Definition notQuote (c : Z) : bool := negb (isQuote c).
Definition notGt (c : Z) : bool := negb (c =? 62).
Definition nonEmpty (s : jstring) : bool := match s with [] => false | _ => true end.

(** [\s+name=`([^`]+)`] (or [[^`]*] when [allowEmpty]) at the head of [s],
    the backtick standing for the double quote: the captured value and what
    follows the closing quote. *)
Definition matchAttr (name : jstring) (allowEmpty : bool) (s : jstring)
  : option (jstring * jstring) :=
  let ws := span isWhiteSpace s in
  if nonEmpty (fst ws) then
    match matchCI (name ++ [61; 34]) (snd ws) with
    | None => None
    | Some r2 =>
      let v := span notQuote r2 in
      match snd v with
      | _ :: r4 => if allowEmpty || nonEmpty (fst v) then Some (fst v, r4) else None
      | [] => None
      end
    end
  else None.

(** The first place where [closer] matches: the text before it (the lazy
    [(.*?)] under the [s] flag) and the text after it. *)
Fixpoint findClose (closer s : jstring) : option (jstring * jstring) :=
  match matchCI closer s with
  | Some rest => Some ([], rest)
  | None =>
    match s with
    | [] => None
    | c :: s' =>
      match findClose closer s' with
      | Some (inner, rest) => Some (c :: inner, rest)
      | None => None
      end
    end
  end.

Record ImgMatch := mkImgMatch {
  im_srcAttr : option jstring;   (* undefined when the group took no part *)
  im_altAttr : option jstring;
  im_inner : jstring;
  im_rest : jstring              (* the text after the match *)
}.

Definition s_image_open : jstring := Eval cbv in lit "<image".
Definition s_image_close : jstring := Eval cbv in lit "</image".
Definition s_src : jstring := Eval cbv in lit "src".
Definition s_alt : jstring := Eval cbv in lit "alt".

(** The expression [imgTag], flags [gis], at the head of [s]: the literal
    [<image], a digit 1 to 5, an optional [src] attribute with a non-empty
    quoted value, an optional [alt] attribute with a quoted value, optional
    whitespace, the closing bracket, the shortest inner text, and the
    closing tag [</image] with the same digit. *)
Definition matchImgTag (s : jstring) : option ImgMatch :=
  match matchCI s_image_open s with
  | None => None
  | Some [] => None
  | Some (d :: r1) =>
    if (49 <=? d) && (d <=? 53) then
      let a := match matchAttr s_src false r1 with
               | Some (v, r) => (Some v, r)
               | None => (None, r1)
               end in
      let b := match matchAttr s_alt true (snd a) with
               | Some (v, r) => (Some v, r)
               | None => (None, snd a)
               end in
      match snd (span isWhiteSpace (snd b)) with
      | 62 :: r5 =>
        match findClose (s_image_close ++ [d; 62]) r5 with
        | Some (inner, rest) => Some (mkImgMatch (fst a) (fst b) inner rest)
        | None => None
        end
      | _ => None
      end
    else None
  end.

Record Image := mkImage { img_src : jstring; img_alt : jstring }.

(** [srcAttr || inner || ''] for a capture that is undefined or a string. *)
Definition captureOr (attr : option jstring) (inner : jstring) : jstring :=
  match attr with
  | Some (c :: v) => c :: v
  | _ => inner
  end.

(** The replacement callback's effect on [images]. *)
Definition imageOfMatch (m : ImgMatch) : list Image :=
  let src := trim (captureOr (im_srcAttr m) (im_inner m)) in
  let alt := trim (captureOr (im_altAttr m) (im_inner m)) in
  if nonEmpty src then [mkImage src alt] else [].

(** [cleaned.replace(imgTag, callback)]: the text with every match replaced
    by the empty string, and the images the callback pushed, in order.
    [skip] counts the code units of the current match still to pass. *)
Fixpoint imgTagReplace (s : jstring) (skip : nat) : jstring * list Image :=
  match s with
  | [] => ([], [])
  | c :: s' =>
    match skip with
    | S k => imgTagReplace s' k
    | O =>
      match matchImgTag s with
      | Some m =>
        let r := imgTagReplace s' (List.length s' - List.length (im_rest m)) in
        (fst r, imageOfMatch m ++ snd r)
      | None =>
        let r := imgTagReplace s' 0 in
        (c :: fst r, snd r)
      end
    end
  end.

(** The matches the scan of [imgTagReplace] recognises, in order, each as
    the text it spans. *)
Fixpoint imgTagMatches (s : jstring) (skip : nat) : list jstring :=
  match s with
  | [] => []
  | c :: s' =>
    match skip with
    | S k => imgTagMatches s' k
    | O =>
      match matchImgTag s with
      | Some m =>
        firstn (List.length s - List.length (im_rest m)) s
          :: imgTagMatches s' (List.length s' - List.length (im_rest m))
      | None => imgTagMatches s' 0
      end
    end
  end.

Record Figure := mkFigure {
  fig_src : jstring;
  fig_alt : jstring;
  fig_caption : option jstring
}.

Definition s_listing_image : jstring := Eval cbv in lit "Listing image ".

Fixpoint figuresFrom (idx : Z) (images : list Image) : list Figure :=
  match images with
  | [] => []
  | img :: rest =>
    mkFigure (img_src img)
      (if nonEmpty (img_alt img) then img_alt img else s_listing_image ++ [48 + idx + 1])
      (if nonEmpty (img_alt img) then Some (img_alt img) else None)
    :: figuresFrom (idx + 1) rest
  end.

(** [buildCarousel(images)]: one figure for each of [images.slice(0, 5)]. *)
Definition buildCarousel (images : list Image) : list Figure :=
  figuresFrom 0 (firstn 5 images).

(** *** Listing cards *)

Definition s_card_open : jstring := Eval cbv in lit "<listing-card".
Definition s_card_close : jstring := Eval cbv in lit "</listing-card>".

(** [/<listing-card\s+([^>]+)><\/listing-card>/gis] at the head of [s]: the
    attribute string and the text after the match.  When everything up to
    the bracket is whitespace, [\s+] gives its last code unit to [[^>]+]. *)
Definition matchCardTag (s : jstring) : option (jstring * jstring) :=
  match matchCI s_card_open s with
  | None => None
  | Some r0 =>
    let run := span notGt r0 in
    match snd run with
    | [] => None
    | _ :: r1 =>
      let ws := span isWhiteSpace (fst run) in
      let attrString :=
        match snd ws with
        | [] => match fst ws with
                | _ :: _ :: _ => Some [last (fst ws) 0]
                | _ => None
                end
        | _ :: _ => if nonEmpty (fst ws) then Some (snd ws) else None
        end in
      match attrString, matchCI s_card_close r1 with
      | Some a, Some rest => Some (a, rest)
      | _, _ => None
      end
    end
  end.

Definition isWordChar (c : Z) : bool :=
  ((48 <=? c) && (c <=? 57)) || ((65 <=? c) && (c <=? 90))
  || ((97 <=? c) && (c <=? 122)) || (c =? 95).

(** The attribute expression, flag [g], at the head of [s]: a run of word
    characters, the equals sign, and a double-quoted value without quotes
    inside; the result is key, value, rest. *)
Definition matchKeyValue (s : jstring) : option (jstring * jstring * jstring) :=
  let k := span isWordChar s in
  if nonEmpty (fst k) then
    match snd k with
    | 61 :: 34 :: r =>
      let v := span notQuote r in
      match snd v with
      | _ :: rest => Some (fst k, fst v, rest)
      | [] => None
      end
    | _ => None
    end
  else None.

(** The object [attrs], as the list of its own properties: the latest
    assignment to a key is found first.  [attrs] is a plain object, so it
    also has what [Object.prototype] gives it: the names in
    [objectPrototypeNames] are found on it without being written, and an
    assignment to [__proto__] reaches the setter of the prototype, which
    ignores a string and stores nothing. *)
Definition Attrs := list (jstring * jstring).

Definition k_proto : jstring := Eval cbv in lit "__proto__".

Definition objectPrototypeNames : list jstring :=
  [lit "constructor"; lit "hasOwnProperty"; lit "isPrototypeOf";
   lit "propertyIsEnumerable"; lit "toLocaleString"; lit "toString"; lit "valueOf";
   k_proto; lit "__defineGetter__"; lit "__defineSetter__";
   lit "__lookupGetter__"; lit "__lookupSetter__"].

Definition isInherited (k : jstring) : bool := existsb (jstr_eqb k) objectPrototypeNames.

(** [attrs[key] = value] *)
Definition attrSet (key value : jstring) (attrs : Attrs) : Attrs :=
  if jstr_eqb key k_proto then attrs else (key, value) :: attrs.

(** The own property [k] of [attrs].  This is what [attrs.k] reads for
    every key that is no name of [Object.prototype]; the keys the script
    reads ([link], [price], [image], [address], [beds], [baths], [sqft])
    are none of them. *)
Fixpoint attrGet (k : jstring) (attrs : Attrs) : option jstring :=
  match attrs with
  | [] => None
  | (k', v) :: rest => if jstr_eqb k k' then Some v else attrGet k rest
  end.

(** The [while ((m = regex.exec(attrString)) !== null) attrs[m[1]] = m[2]]
    loop, from the current [lastIndex] on. *)
Fixpoint parseAttrs (s : jstring) (skip : nat) (attrs : Attrs) : Attrs :=
  match s with
  | [] => attrs
  | _ :: s' =>
    match skip with
    | S k => parseAttrs s' k attrs
    | O =>
      match matchKeyValue s with
      | Some (key, value, rest) =>
        parseAttrs s' (List.length s' - List.length rest) (attrSet key value attrs)
      | None => parseAttrs s' 0 attrs
      end
    end
  end.

(** What [attrs.k] reads, for every key: the string written last, a
    member of [Object.prototype] (a function or an object, never a
    string), or undefined. *)
Inductive AttrRead :=
| ReadString (v : jstring)
| ReadInherited
| ReadUndefined.

Definition attrRead (k : jstring) (attrs : Attrs) : AttrRead :=
  match attrGet k attrs with
  | Some v => ReadString v
  | None => if isInherited k then ReadInherited else ReadUndefined
  end.

(** [attrs.k || fallback] *)
Definition attrOr (attrs : Attrs) (k fallback : jstring) : jstring :=
  match attrGet k attrs with
  | Some (c :: v) => c :: v
  | _ => fallback
  end.

(** The interpolation of [attrs.k] into a template: the string, or the
    text [undefined]. *)
Definition attrText (attrs : Attrs) (k : jstring) : jstring :=
  match attrGet k attrs with
  | Some v => v
  | None => lit "undefined"
  end.

Definition k_price : jstring := Eval cbv in lit "price".
Definition k_link : jstring := Eval cbv in lit "link".
Definition k_image : jstring := Eval cbv in lit "image".
Definition k_address : jstring := Eval cbv in lit "address".
Definition k_beds : jstring := Eval cbv in lit "beds".
Definition k_baths : jstring := Eval cbv in lit "baths".
Definition k_sqft : jstring := Eval cbv in lit "sqft".
Definition contactForPrice : jstring := Eval cbv in lit "Contact for Price".
Definition dollar : Z := 36.

Record Card := mkCard {
  card_href : jstring;
  card_innerHTML : jstring      (* the template string assigned to it *)
}.

(* ------------------------------------------------------------------ *)
(** ** The Transport Decoder: [TextDecoder] in streaming mode

    [decoder.decode(value, { stream: true })] is the UTF-8 decoder of the
    Encoding Standard, a machine that consumes one byte at a time and keeps
    its state between calls; the script never makes the final, flushing
    call.  The decoder drops a byte order mark that opens the stream. *)

Record Utf8State := mkUtf8 {
  u_codepoint : Z;
  u_seen : Z;
  u_needed : Z;
  u_lower : Z;
  u_upper : Z
}.

Definition utf8_init : Utf8State := mkUtf8 0 0 0 128 191.

(** A byte met when no sequence is open. *)
Definition utf8_lead (b : Z) : Utf8State * list Z :=
  if b <=? 127 then (utf8_init, [b])
  else if (194 <=? b) && (b <=? 223) then (mkUtf8 (Z.land b 31) 0 1 128 191, [])
  else if (224 <=? b) && (b <=? 239) then
    (mkUtf8 (Z.land b 15) 0 2 (if b =? 224 then 160 else 128)
       (if b =? 237 then 159 else 191), [])
  else if (240 <=? b) && (b <=? 244) then
    (mkUtf8 (Z.land b 7) 0 3 (if b =? 240 then 144 else 128)
       (if b =? 244 then 143 else 191), [])
  else (utf8_init, [65533]).

(** One byte: the new state and the code points emitted.  A byte that
    cannot continue the open sequence makes the decoder emit U+FFFD and
    read the byte again as a lead byte. *)
Definition utf8_step (st : Utf8State) (b : Z) : Utf8State * list Z :=
  if u_needed st =? 0 then utf8_lead b
  else if negb ((u_lower st <=? b) && (b <=? u_upper st)) then
    let r := utf8_lead b in (fst r, 65533 :: snd r)
  else
    let cp := Z.lor (Z.shiftl (u_codepoint st) 6) (Z.land b 63) in
    if u_seen st + 1 =? u_needed st then (utf8_init, [cp])
    else (mkUtf8 cp (u_seen st + 1) (u_needed st) 128 191, []).

(** A code point as UTF-16 code units. *)
Definition utf16 (cp : Z) : jstring :=
  if cp <? 65536 then [cp]
  else [55296 + Z.shiftr (cp - 65536) 10; 56320 + Z.land (cp - 65536) 1023].

Record DecoderState := mkDecoder {
  d_utf8 : Utf8State;
  d_bomSeen : bool
}.

Definition decoder_init : DecoderState := mkDecoder utf8_init false.

(** The first code point of the stream is dropped when it is U+FEFF. *)
Fixpoint serialize (bomSeen : bool) (cps : list Z) : bool * jstring :=
  match cps with
  | [] => (bomSeen, [])
  | cp :: rest =>
    let r := serialize true rest in
    if negb bomSeen && (cp =? 65279) then r else (fst r, utf16 cp ++ snd r)
  end.

Definition decode_byte (st : DecoderState) (b : Byte.byte) : DecoderState * jstring :=
  let r := utf8_step (d_utf8 st) (Z.of_N (Byte.to_N b)) in
  let o := serialize (d_bomSeen st) (snd r) in
  (mkDecoder (fst r) (fst o), snd o).

(** [decoder.decode(value, { stream: true })] *)
Fixpoint decode (st : DecoderState) (value : list Byte.byte) : DecoderState * jstring :=
  match value with
  | [] => (st, [])
  | b :: rest =>
    let r := decode_byte st b in
    let r' := decode (fst r) rest in
    (fst r', snd r ++ snd r')
  end.

(** The final call [decoder.decode()] of a non-streaming consumer such as
    [response.json()]: an open sequence ends in U+FFFD. *)
Definition decode_flush (st : DecoderState) : jstring :=
  if u_needed (d_utf8 st) =? 0 then [] else snd (serialize (d_bomSeen st) [65533]).

Definition decode_all (bytes : list Byte.byte) : jstring :=
  let r := decode decoder_init bytes in snd r ++ decode_flush (fst r).

(** [s.split('\n')]: never empty. *)
Fixpoint split_nl (s : jstring) : list jstring :=
  match s with
  | [] => [[]]
  | c :: s' =>
    if c =? 10 then [] :: split_nl s'
    else match split_nl s' with
         | l :: ls => (c :: l) :: ls
         | [] => [[c]]
         end
  end.

(** [!line.trim()] *)
Definition isBlank (line : jstring) : bool := negb (nonEmpty (trim line)).

(** The read loop of the streaming [sendMessage], over any consumer of
    events: [onEvent] is what the body of the [try] does with a parsed
    line, [JSON_parse] is the browser's [JSON.parse] ([None] when it throws
    a SyntaxError, which the [catch] around it logs and drops). *)
Section ReadLoop.

Variable JSON_parse : jstring -> option JsValue.
Context {S : Type}.
Variable onEvent : JsValue -> S -> S.

Definition processLine (st : S) (line : jstring) : S :=
  if isBlank line then st
  else match JSON_parse line with
       | Some event => onEvent event st
       | None => st
       end.

Record Reader := mkReader {
  r_decoder : DecoderState;
  r_buffer : jstring;
  r_state : S
}.

(** One iteration with [done] false: decode, split, keep the last piece,
    process the others. *)
Definition readChunk (r : Reader) (value : list Byte.byte) : Reader :=
  let d := decode (r_decoder r) value in
  let lines := split_nl (r_buffer r ++ snd d) in
  mkReader (fst d) (last lines []) (fold_left processLine (removelast lines) (r_state r)).

Definition readChunks (chunks : list (list Byte.byte)) (st : S) : Reader :=
  fold_left readChunk chunks (mkReader decoder_init [] st).

End ReadLoop.

(** A consumer that keeps the events in the order they arrive. *)
Definition collect (event : JsValue) (acc : list JsValue) : list JsValue :=
  acc ++ [event].

(** The events the decoder hands to the caller, in order. *)
Definition streamEvents (JSON_parse : jstring -> option JsValue)
  (chunks : list (list Byte.byte)) : list JsValue :=
  r_state (readChunks JSON_parse collect chunks []).

(** The text the decoder has produced once all of [chunks] is read. *)
Definition streamText (chunks : list (list Byte.byte)) : jstring :=
  snd (decode decoder_init (List.concat chunks)).

(** The events of the complete lines of a text. *)
Definition lineEvents (JSON_parse : jstring -> option JsValue) (text : jstring)
  : list JsValue :=
  fold_left (processLine JSON_parse collect) (removelast (split_nl text)) [].

(* ------------------------------------------------------------------ *)
(** ** Reference instances of what the browser supplies

    The statements below hold for every [JSON.parse], number formatter,
    markup check and element serialiser.  The instances here make closed
    examples possible; each says which inputs it is faithful on. *)

Definition isJsonWs (c : Z) : bool := (c =? 32) || (c =? 9) || (c =? 10) || (c =? 13).

Fixpoint skipWs (s : jstring) : jstring :=
  match s with
  | c :: s' => if isJsonWs c then skipWs s' else s
  | [] => []
  end.

Definition isDigit (c : Z) : bool := (48 <=? c) && (c <=? 57).

(** The single-character escapes of a JSON string. *)
Definition unescape (e : Z) : option Z :=
  if e =? 34 then Some 34 else if e =? 92 then Some 92 else if e =? 47 then Some 47
  else if e =? 98 then Some 8 else if e =? 102 then Some 12 else if e =? 110 then Some 10
  else if e =? 114 then Some 13 else if e =? 116 then Some 9 else None.

(** The text of a JSON string after its opening quote. *)
Fixpoint parseStringBody (s : jstring) : option (jstring * jstring) :=
  match s with
  | [] => None
  | 34 :: r => Some ([], r)
  | 92 :: e :: r =>
    match unescape e, parseStringBody r with
    | Some c, Some (body, rest) => Some (c :: body, rest)
    | _, _ => None
    end
  | c :: r =>
    if c <? 32 then None
    else match parseStringBody r with
         | Some (body, rest) => Some (c :: body, rest)
         | None => None
         end
  end.

Definition digitsValue (ds : jstring) : Z :=
  fold_left (fun acc d => 10 * acc + (d - 48)) ds 0.

(** An integer literal: an optional minus sign and digits without a
    superfluous leading zero, not followed by a fraction or an exponent. *)
Definition parseInteger (s : jstring) : option (JsValue * jstring) :=
  let body := match s with 45 :: r => (true, r) | _ => (false, s) end in
  let ds := span isDigit (snd body) in
  match fst ds with
  | [] => None
  | d :: more =>
    if (d =? 48) && nonEmpty more then None
    else match snd ds with
         | 46 :: _ | 101 :: _ | 69 :: _ => None
         | rest =>
           let n := digitsValue (fst ds) in
           Some (JNum (Qmake (if fst body then - n else n) 1), rest)
         end
  end.

(** [obj[k] = v] on an object built member by member. *)
Fixpoint setProp (k : jstring) (v : JsValue) (props : list (jstring * JsValue))
  : list (jstring * JsValue) :=
  match props with
  | [] => [(k, v)]
  | (k', v') :: rest =>
    if jstr_eqb k k' then (k, v) :: rest else (k', v') :: setProp k v rest
  end.

(** A literal, case-sensitively: the text after it. *)
Definition matchLit (pat s : jstring) : option jstring :=
  if startsWith s pat then Some (skipn (List.length pat) s) else None.

Definition s_null : jstring := Eval cbv in lit "null".
Definition s_true : jstring := Eval cbv in lit "true".
Definition s_false : jstring := Eval cbv in lit "false".

Fixpoint parseValue (fuel : nat) (s : jstring) {struct fuel}
  : option (JsValue * jstring) :=
  match fuel with
  | O => None
  | S f =>
    match skipWs s with
    | 34 :: r =>
      match parseStringBody r with
      | Some (body, rest) => Some (JStr body, rest)
      | None => None
      end
    | 91 :: r =>
      match skipWs r with
      | 93 :: rest => Some (JArr [], rest)
      | _ => match parseElements f r with
             | Some (vs, rest) => Some (JArr vs, rest)
             | None => None
             end
      end
    | 123 :: r =>
      match skipWs r with
      | 125 :: rest => Some (JObj [], rest)
      | _ => match parseMembers f r [] with
             | Some (ps, rest) => Some (JObj ps, rest)
             | None => None
             end
      end
    | 110 :: r => option_map (fun rest => (JNull, rest)) (matchLit s_null (110 :: r))
    | 116 :: r => option_map (fun rest => (JBool true, rest)) (matchLit s_true (116 :: r))
    | 102 :: r => option_map (fun rest => (JBool false, rest)) (matchLit s_false (102 :: r))
    | other => parseInteger other
    end
  end
with parseElements (fuel : nat) (s : jstring) {struct fuel}
  : option (list JsValue * jstring) :=
  match fuel with
  | O => None
  | S f =>
    match parseValue f s with
    | Some (v, r) =>
      match skipWs r with
      | 44 :: r' =>
        match parseElements f r' with
        | Some (vs, rest) => Some (v :: vs, rest)
        | None => None
        end
      | 93 :: rest => Some ([v], rest)
      | _ => None
      end
    | None => None
    end
  end
with parseMembers (fuel : nat) (s : jstring) (acc : list (jstring * JsValue))
  {struct fuel} : option (list (jstring * JsValue) * jstring) :=
  match fuel with
  | O => None
  | S f =>
    match skipWs s with
    | 34 :: r =>
      match parseStringBody r with
      | Some (key, r1) =>
        match skipWs r1 with
        | 58 :: r2 =>
          match parseValue f r2 with
          | Some (v, r3) =>
            match skipWs r3 with
            | 44 :: r4 => parseMembers f r4 (setProp key v acc)
            | 125 :: rest => Some (setProp key v acc, rest)
            | _ => None
            end
          | None => None
          end
        | _ => None
        end
      | None => None
      end
    | _ => None
    end
  end.

(** A parser for JSON texts without [\u] escapes, fractions and exponents:
    on such a text it returns what [JSON.parse] returns, and it rejects
    every text that is not JSON. *)
Definition JSON_parse_ref (text : jstring) : option JsValue :=
  match parseValue (Datatypes.S (List.length text)) text with
  | Some (v, rest) => if nonEmpty (skipWs rest) then None else Some v
  | None => None
  end.

(** [Number(s).toLocaleString()] in the en-US locale, on the two kinds of
    argument the price examples use: an unsigned decimal integer of at most
    15 digits (exactly representable; rendered with a comma between groups
    of three digits) and a string with a code unit that no numeric literal
    contains (NaN).  Other arguments are outside this reference instance,
    which returns them unchanged; no statement below is about them. *)
Fixpoint dropZeros (ds : jstring) : jstring :=
  match ds with
  | 48 :: (_ :: _) as rest => dropZeros rest
  | _ => ds
  end.

(** The digits from the right, a comma before every fourth one. *)
Fixpoint groupFromRight (rev_digits : jstring) (n : nat) : jstring :=
  match rev_digits with
  | [] => []
  | d :: rest =>
    match n with
    | 3%nat => 44 :: d :: groupFromRight rest 1
    | _ => d :: groupFromRight rest (Datatypes.S n)
    end
  end.

Definition groupThousands (ds : jstring) : jstring :=
  rev (groupFromRight (rev ds) 0).

Definition isNumericLiteralChar (c : Z) : bool :=
  isDigit c || isWhiteSpace c
  || existsb (Z.eqb c) (lit "+-.eExXoObBaAcCdDfFInity").

Definition NumberToLocaleString_enUS (s : jstring) : jstring :=
  if nonEmpty s && forallb isDigit s && (List.length (dropZeros s) <=? 15)%nat
  then groupThousands (dropZeros s)
  else if existsb (fun c => negb (isNumericLiteralChar c)) s then lit "NaN"
  else s.

(** A sufficient condition for the form's markup to be built as written:
    every interpolated value is a string without an angle bracket or an
    ampersand, so it is text wherever the template places it. *)
Definition isPlainText (v : JsValue) : bool :=
  match v with
  | JStr s => forallb (fun c => negb ((c =? 60) || (c =? 62) || (c =? 38) || (c =? 34))) s
  | _ => false
  end.

Definition formMarkupOk_ref (summaryText emailOnFile phoneOnFile : JsValue) : bool :=
  isPlainText summaryText && isPlainText emailOnFile && isPlainText phoneOnFile.

(** A conservative serialiser of a card element, faithful when the link and
    the template's interpolated values are plain text. *)
Definition outerHTML_ref (c : Card) : jstring :=
  litq "<a class=`listing-card` href=`" ++ card_href c ++ litq "` target=`_blank`>"
  ++ card_innerHTML c ++ lit "</a>".

(** Where a fresh conversation id comes from: [crypto.randomUUID()] when
    the browser has it, else the base-36 text of [Math.random()]. *)
Inductive IdSource :=
| RandomUUID (uuid : jstring)
| MathRandom (base36 : jstring).

(** The browser's contract for [crypto.randomUUID()]: 36 code units. *)
Definition validIdSource (src : IdSource) : Prop :=
  match src with
  | RandomUUID uuid => List.length uuid = 36%nat
  | MathRandom _ => True
  end.

(** How the body of a response ends: the reader reports [done], or a read
    rejects because the connection broke. *)
Inductive StreamEnd := StreamDone | StreamAborted.

(** What [fetch] gives [sendMessage]: a rejection (the network failed), or
    a response with its [ok] flag and, unless the body is null, the chunks
    its reader delivers. *)
Inductive ChatResponse :=
| FetchRejected
| HttpResponse (ok : bool) (body : option (list (list Byte.byte) * StreamEnd)).

Inductive LeadResponse :=
| LeadFetchRejected
| LeadHttpResponse (ok : bool).

(** The two builds of the widget script. *)
Inductive Build :=
| Streaming    (* production_build/frontend/app.js *)
| Plain.       (* the build with a single JSON response *)

(** ToString throws a TypeError on an object that has an own member
    [toString] (a JSON value is never callable, and [valueOf] then returns
    the object itself), and on an array with such an element. *)
Fixpoint toStringThrows (v : JsValue) : bool :=
  match v with
  | JObj props => existsb (fun kv => jstr_eqb (fst kv) (lit "toString")) props
  | JArr items => existsb toStringThrows items
  | _ => false
  end.

Definition thanksMessage : jstring :=
  lit "Thank you " ++ [8212]
  ++ litq " a stylist will reach out shortly. <a href=`#contact` target=`_blank`>Book consultation</a>".

Definition isChips (n : Node) : bool :=
  match n with SuggestionChips _ => true | _ => false end.
Definition isTypingNode (n : Node) : bool :=
  match n with TypingBubbleNode => true | _ => false end.

Fixpoint removeFirst (p : Node -> bool) (body : list Node) : list Node :=
  match body with
  | [] => []
  | n :: rest => if p n then rest else n :: removeFirst p rest
  end.

(** [s.replace(/\n/g, '<br>')] *)
Fixpoint newlinesToBr (s : jstring) : jstring :=
  match s with
  | [] => []
  | c :: s' => if c =? 10 then lit "<br>" ++ newlinesToBr s' else c :: newlinesToBr s'
  end.

Definition greetingChips : list jstring :=
  [lit "Find a home"; lit "Sell my property"; lit "Speak to agent"].

Definition specialistRouting : JsValue :=
  JObj [ (k_intent, JStr (lit "book"));
         (k_summary, JStr (lit "To hold a consultation slot we just need your preferred contact."));
         (k_urgency, JStr (lit "soon")) ].

(** [makeConversationId()] *)
Definition makeConversationId (src : IdSource) : jstring :=
  match src with
  | RandomUUID uuid => uuid
  | MathRandom base36 => lit "conv-" ++ firstn 8 (skipn 2 base36)
  end.

(** [saveConversation(id)] *)
Definition saveConversation (id : JsValue) : Eff unit :=
  modify (set_conversationId id).

(** The session the script sets up when it loads. *)
Definition initialSession (src : IdSource) : Session :=
  mkSession (JStr (makeConversationId src)) false false None emptyObject None false
    false [] [] false false false [] [] 0.

(* ================================================================== *)
(** * The widget script *)

Section Widget.

(** The browser. *)
Variable JSON_parse : jstring -> option JsValue.
Variable NumberToLocaleString : jstring -> jstring.   (* Number(s).toLocaleString() *)
Variable outerHTML : Card -> jstring.

(** The embedding page's configuration and the build it loads. *)
Variable BUSINESS_ID : jstring.
Variable SHEETS_ID : jstring.
Variable build : Build.

(** ** The Lead Gate *)

(** Whether the browser builds the form from the interpolated template:
    the three values convert to strings without throwing and the resulting
    markup still contains the contact-method select the script looks up
    next.  When it does not, [renderLeadForm] throws at that point. *)
Variable formMarkupOk : JsValue -> JsValue -> JsValue -> bool.

(** [updateProfilePanel(profile = {}, routing = {})] *)
Definition updateProfilePanel (profile routing : JsValue) : Eff unit :=
  let profile := match profile with JUndefined => emptyObject | _ => profile end in
  modify (set_latestProfile (jsOr profile emptyObject)).

(** [renderLeadForm(routing = {}, force = false, profile = latestProfile)] *)
Definition renderLeadForm (routing : JsValue) (force : bool) (profile : JsValue)
  : Eff unit :=
  s0 <- get ;;
  let routing := match routing with JUndefined => emptyObject | _ => routing end in
  let profile := match profile with JUndefined => latestProfile s0 | _ => profile end in
  if leadFormVisible s0 && negb force then ret tt else
  modify (fun s => set_chatBody (removeFirstLeadForm (chatBody s) ) s) ;;
  summaryText <- liftE (orElse (member routing k_summary)
                          (orElse (member profile k_summary)
                                  (Some (JStr genericSummary)))) ;;
  intent <- liftE (orElse (member routing k_intent)
                     (orElse (member profile k_intent) (Some (JStr (lit "other"))))) ;;
  urgency <- liftE (orElse (member routing k_urgency)
                      (orElse (member profile k_urgency) (Some (JStr (lit "unknown"))))) ;;
  modify (set_pendingLeadMeta (Some (mkLeadMeta intent summaryText urgency))) ;;
  emailOnFile <- liftE (orElse (member profile k_contact_email) (Some (JStr []))) ;;
  phoneOnFile <- liftE (orElse (member profile k_contact_phone) (Some (JStr []))) ;;
  let defaultContact := if truthy phoneOnFile then lit "text" else lit "email" in
  if formMarkupOk summaryText emailOnFile phoneOnFile then
    appendChild (LeadFormNode (mkLeadForm summaryText emailOnFile phoneOnFile defaultContact)) ;;
    modify (set_leadFormVisible true)
  else throw.

(** The four constants [handleRouting] computes.  They are read past the
    guard [if (!routing) return], where [routing] is truthy and its member
    access cannot throw. *)
Definition shouldCard (routing profile : JsValue) (s : Session) : bool :=
  strictEqStr (optMember routing k_lead_capture) (lit "yes")
  || ((strictEqStr (optMember profile k_stage) (lit "contact")
       || strictEqStr (optMember profile k_stage) (lit "schedule"))
      && negb (leadSubmitted s)).

Definition contactOnFile (profile : JsValue) : JsValue :=
  jsOr (optMember profile k_contact_email) (optMember profile k_contact_phone).

Definition highIntent (routing : JsValue) : bool :=
  strictEqStr (optMember routing k_intent) (lit "book")
  || strictEqStr (optMember routing k_intent) (lit "buy")
  || strictEqStr (optMember routing k_intent) (lit "pricing").

Definition hasProductOrDate (profile : JsValue) : JsValue :=
  jsOr (optMember profile k_product_name) (optMember profile k_requested_date).

(** The condition of the [if] that guards [renderLeadForm]: a fire
    condition holds and no suppression condition does. *)
Definition leadGate (routing profile : JsValue) (s : Session) : bool :=
  (shouldCard routing profile s || highIntent routing
   || truthy (hasProductOrDate profile))
  && negb (leadFormVisible s) && negb (leadSubmitted s)
  && negb (truthy (contactOnFile profile)).

Definition handleRouting (routing profile : JsValue) : Eff unit :=
  (if truthy profile then updateProfilePanel profile (jsOr routing emptyObject)
   else ret tt) ;;
  if negb (truthy routing) then ret tt else
  s <- get ;;
  if leadGate routing profile s
  then renderLeadForm routing false (jsOr profile (latestProfile s))
  else ret tt.

(** The form and the lead meta [renderLeadForm] builds from a routing
    signal and a profile that are objects or other non-null values. *)
Definition leadFormFor (routing profile : JsValue) : LeadForm :=
  let phoneOnFile := jsOr (optMember profile k_contact_phone) (JStr []) in
  mkLeadForm
    (jsOr (optMember routing k_summary)
          (jsOr (optMember profile k_summary) (JStr genericSummary)))
    (jsOr (optMember profile k_contact_email) (JStr []))
    phoneOnFile
    (if truthy phoneOnFile then lit "text" else lit "email").

Definition leadMetaFor (routing profile : JsValue) : LeadMeta :=
  mkLeadMeta
    (jsOr (optMember routing k_intent)
          (jsOr (optMember profile k_intent) (JStr (lit "other"))))
    (jsOr (optMember routing k_summary)
          (jsOr (optMember profile k_summary) (JStr genericSummary)))
    (jsOr (optMember routing k_urgency)
          (jsOr (optMember profile k_urgency) (JStr (lit "unknown")))).

(** Whether the browser builds the markup of a form. *)
Definition formBuilds (f : LeadForm) : bool :=
  formMarkupOk (form_summaryText f) (form_emailOnFile f) (form_phoneOnFile f).

(** The click handler of the form's [Remind me later] button. *)
Definition dismissLeadForm : Eff unit :=
  modify (fun s => set_chatBody (removeFirstLeadForm (chatBody s)) s) ;;
  modify (set_leadFormVisible false).

(** ** The Message Renderer *)

(** [priceFormatted] *)
Definition priceFormatted (attrs : Attrs) : jstring :=
  match attrGet k_price attrs with
  | Some (c :: p) =>
    if startsWith (c :: p) [dollar] then c :: p
    else dollar :: NumberToLocaleString (c :: p)
  | _ => contactForPrice
  end.

(** The template string assigned to [card.innerHTML], in three parts: up
    to the price span, the price span, and the rest. *)
Definition s_price_span : jstring := Eval cbv in litq "<span class=`listing-card-price`>".
Definition s_span_close : jstring := Eval cbv in lit "</span>".

Definition cardTemplateHead (attrs : Attrs) : jstring :=
  lit "
                "
  ++ (match attrGet k_image attrs with
      | Some (c :: v) =>
        litq "<img src=`" ++ (c :: v) ++ litq "` class=`listing-card-img` alt=`"
        ++ attrText attrs k_address
        ++ litq "` referrerpolicy=`no-referrer` onerror=`this.onerror=null;this.src='https://placehold.co/600x400?text=Home';this.style.opacity='0.5';`>"
      | _ => []
      end)
  ++ litq "
                <div class=`listing-card-content`>
                    ".

Definition cardTemplateTail (attrs : Attrs) : jstring :=
  litq "
                    <span class=`listing-card-address`>"
  ++ attrOr attrs k_address (lit "Address Unavailable")
  ++ litq "</span>
                    <div class=`listing-card-stats`>
                        <span><strong>"
  ++ attrOr attrs k_beds [63]
  ++ lit "</strong> bds</span>
                        <span><strong>"
  ++ attrOr attrs k_baths [63]
  ++ lit "</strong> ba</span>
                        <span><strong>"
  ++ attrOr attrs k_sqft [63]
  ++ lit "</strong> sqft</span>
                    </div>
                </div>
            ".

Definition cardTemplate (attrs : Attrs) : jstring :=
  cardTemplateHead attrs
  ++ s_price_span ++ priceFormatted attrs ++ s_span_close
  ++ cardTemplateTail attrs.

(** The card callback: the attributes are parsed, the card is built, and
    its serialisation replaces the tag. *)
Definition renderCard (attrString : jstring) : jstring :=
  let attrs := parseAttrs attrString 0 [] in
  outerHTML (mkCard (attrOr attrs k_link [35]) (cardTemplate attrs)).

(** [cleaned.replace(cardTag, callback)] *)
Fixpoint cardTagReplace (s : jstring) (skip : nat) : jstring :=
  match s with
  | [] => []
  | c :: s' =>
    match skip with
    | S k => cardTagReplace s' k
    | O =>
      match matchCardTag s with
      | Some (attrString, rest) =>
        renderCard attrString ++ cardTagReplace s' (List.length s' - List.length rest)
      | None => c :: cardTagReplace s' 0
      end
    end
  end.

(** [renderAssistantMessage(text, options)]: the bubble, or [None] where
    [cleaned.replace] is not a function (a truthy [text] that is no
    string).  The array [images] is filled and never used: the call of
    [buildCarousel] was removed from the function. *)
Definition renderAssistantMessage (text : JsValue) (html : bool) : option Node :=
  match jsOr text (JStr []) with
  | JStr cleaned =>
    let r := imgTagReplace cleaned 0 in
    let images := snd r in
    let cleaned := fst r in
    let cleaned := cardTagReplace cleaned 0 in
    Some (Bubble assistant
            (InnerHTML (JStr (if html then trim cleaned else newlinesToBr (trim cleaned)))))
  | _ => None
  end.

(** ** The Session Controller *)

(** [appendMessage(role, text, options)] *)
Definition appendMessage (role : Role) (text : JsValue) (html : bool) : Eff unit :=
  match build, role with
  | Streaming, assistant =>
    bubble <- liftE (renderAssistantMessage text html) ;;
    appendChild bubble
  | _, _ =>
    if html then appendChild (Bubble role (InnerHTML text))
    else if toStringThrows text then throw
    else appendChild (Bubble role (TextContent text))
  end.

(** [renderSuggestions(chips)] *)
Definition renderSuggestions (chips : list jstring) : Eff unit :=
  modify (fun s => set_chatBody (removeFirst isChips (chatBody s)) s) ;;
  match chips with
  | [] => ret tt
  | _ => appendChild (SuggestionChips chips)
  end.

(** [openChat()]: opening the widget changes nothing of the session; the
    streaming build offers the greeting chips while the body has at most
    one child. *)
Definition openChat : Eff unit :=
  match build with
  | Streaming =>
    s <- get ;;
    if (List.length (chatBody s) <=? 1)%nat then renderSuggestions greetingChips else ret tt
  | Plain => ret tt
  end.

(** [showTyping(show, userText)].  The phrase shown in the bubble
    ([getTypingFlavor], the text of a status event) is no part of [Session]. *)
Definition showTyping (show : bool) : Eff unit :=
  match build with
  | Plain => modify (set_typingShown show)
  | Streaming =>
    s <- get ;;
    (if typingBubble s then ret tt
     else appendChild TypingBubbleNode ;; modify (set_typingBubble true)) ;;
    (if show then
       modify (fun s => set_chatBody (removeFirst isChips (chatBody s)) s) ;;
       modify (fun s => set_chatBody (removeFirst isTypingNode (chatBody s) ++ [TypingBubbleNode]) s) ;;
       modify (set_typingShown true)
     else modify (set_typingShown false))
  end.

(** [endChatSession()] *)
Definition endChatSession : Eff unit :=
  modify (set_chatEnded true) ;;
  modify (set_chatInput_value []) ;;
  modify (set_inputLocked true) ;;
  modify (set_ratingShown true).

(** [setTimeout(() => endChatSession(), 800)] *)
Definition scheduleEnd : Eff unit :=
  modify (fun s => set_endTimers (Datatypes.S (endTimers s)) s).

(** [handleRating(e)] *)
Definition handleRating (value : jstring) : Eff unit :=
  modify (set_sessionRating (Some value)).

(** What the builds do with the fields of a reply.  The streaming build
    calls [handleRouting], which it does not declare: the call throws a
    ReferenceError before its arguments are read, and nothing after it
    runs. *)
Definition handleResult (data : JsValue) : Eff unit :=
  id <- liftE (member data k_conversation_id) ;;
  saveConversation id ;;
  reply <- liftE (member data k_reply) ;;
  appendMessage assistant reply false ;;
  match build with
  | Streaming => throw
  | Plain =>
    routing <- liftE (member data k_routing) ;;
    profile <- liftE (member data k_profile) ;;
    handleRouting routing profile ;;
    lead_captured <- liftE (member data k_lead_captured) ;;
    if truthy lead_captured then scheduleEnd else ret tt
  end.

(** The body of the [try] around one line of the stream, after
    [JSON.parse]. *)
Definition handleEvent (event : JsValue) : Eff unit :=
  type <- liftE (member event k_type) ;;
  if strictEqStr type (lit "status") then ret tt
  else if strictEqStr type (lit "result") then
    data <- liftE (member event k_data) ;;
    handleResult data
  else ret tt.

(** One parsed line: an exception of the handler ends in the same [catch]
    as a parse error, which logs it and goes on. *)
Definition onEvent (event : JsValue) (s : Session) : Session :=
  exec (tryCatch (handleEvent event) (ret tt)) s.

(** The [while (true)] loop over the reader: every chunk read before the
    stream ends is processed; a rejected read throws. *)
Definition readStream (chunks : list (list Byte.byte)) (fin : StreamEnd) : Eff unit :=
  fun s =>
    let s' := r_state (readChunks JSON_parse onEvent chunks s) in
    match fin with
    | StreamDone => (Normal tt, s')
    | StreamAborted => (Thrown, s')
    end.

(** [await response.json()]: the whole body, decoded and parsed; [None]
    when the promise rejects. *)
Definition responseJson (body : option (list (list Byte.byte) * StreamEnd))
  : option JsValue :=
  match body with
  | None => JSON_parse []
  | Some (chunks, StreamDone) => JSON_parse (decode_all (List.concat chunks))
  | Some (_, StreamAborted) => None
  end.

Definition sheetId : option jstring :=
  match SHEETS_ID with [] => None | _ => Some SHEETS_ID end.

Definition logFetch (call : FetchCall) : Eff unit :=
  modify (fun s => set_fetchLog (fetchLog s ++ [call]) s).

(** The [try] block of [sendMessage]. *)
Definition requestReply (message : jstring) (response : ChatResponse) : Eff unit :=
  s <- get ;;
  logFetch (ChatRequest (match build with Plain => Some BUSINESS_ID | Streaming => None end)
              (conversationId s) message sheetId) ;;
  match response with
  | FetchRejected => throw
  | HttpResponse ok body =>
    if negb ok then throw else
    match build with
    | Streaming =>
      match body with
      | None => throw
      | Some (chunks, fin) => readStream chunks fin
      end
    | Plain =>
      data <- liftE (responseJson body) ;;
      handleResult data
    end
  end.

(** What [sendMessage] does between its guards and its [try]: the
    visitor's message is appended, the input cleared, the typing bubble
    shown. *)
Definition beginSend (message : jstring) : Eff unit :=
  appendMessage user (JStr message) false ;;
  modify (set_chatInput_value []) ;;
  showTyping true.

(** The plain build refuses to send without a business id. *)
Definition unconfigured : bool :=
  match build with Plain => negb (nonEmpty BUSINESS_ID) | Streaming => false end.

(** [sendMessage()], with the response the network gives to its request. *)
Definition sendMessage (response : ChatResponse) : Eff unit :=
  s <- get ;;
  if chatEnded s then ret tt else
  if unconfigured then appendMessage assistant (JStr notConfigured) false else
  let message := trim (chatInput_value s) in
  if negb (nonEmpty message) then ret tt else
  beginSend message ;;
  tryFinally
    (tryCatch (requestReply message response)
              (appendMessage assistant (JStr apology) false))
    (showTyping false).

(** [resetChat()] *)
Definition resetChat (src : IdSource) : Eff unit :=
  modify (set_chatBody []) ;;
  modify (set_leadFormVisible false) ;;
  modify (set_leadSubmitted false) ;;
  modify (set_pendingLeadMeta None) ;;
  modify (set_sessionRating None) ;;
  modify (set_chatEnded false) ;;
  modify (set_ratingShown false) ;;
  modify (set_inputLocked false) ;;
  saveConversation (JStr (makeConversationId src)) ;;
  openChat.

(** [handleLeadSubmit(event)], with the fields of the submitted form and
    the response to the lead request. *)
Definition handleLeadSubmit (name email phone : jstring) (response : LeadResponse)
  : Eff unit :=
  if negb (nonEmpty BUSINESS_ID) then appendMessage assistant (JStr notConfigured) false
  else
  let name := trim name in
  let email := trim email in
  let phone := trim phone in
  if negb (nonEmpty name) then
    modify (fun s => set_alerts (alerts s ++ [lit "Please add your name."]) s)
  else if negb (nonEmpty email) && negb (nonEmpty phone) then
    modify (fun s => set_alerts (alerts s ++ [lit "Please add at least an email or phone number."]) s)
  else
  tryCatch
    (s <- get ;;
     logFetch (LeadRequest (conversationId s) name email phone (pendingLeadMeta s)) ;;
     match response with
     | LeadFetchRejected => throw
     | LeadHttpResponse ok =>
       if negb ok then throw else
       modify (fun s => set_chatBody (removeFirstLeadForm (chatBody s)) s) ;;
       modify (set_leadFormVisible false) ;;
       modify (set_leadSubmitted true) ;;
       modify (set_pendingLeadMeta None) ;;
       appendMessage assistant (JStr thanksMessage) true
     end)
    (modify (fun s => set_alerts
       (alerts s ++ [lit "Unable to submit lead yet. Make sure the backend is running."]) s)).

(** The click handler of the specialist button.  The streaming build
    calls [renderLeadForm], which it does not declare. *)
Definition specialistClick : Eff unit :=
  openChat ;;
  match build with
  | Streaming => throw
  | Plain => renderLeadForm specialistRouting true JUndefined
  end.

(** ** What can happen to a session *)

Inductive Action :=
| AInput (text : jstring)                 (* the visitor edits the input *)
| ASend (response : ChatResponse)         (* send button or Enter *)
| AChip (text : jstring) (response : ChatResponse)
| AReset (src : IdSource)
| AOpen
| ADismiss                                (* Remind me later *)
| ASubmit (name email phone : jstring) (response : LeadResponse)
| ASpecialist
| ARate (value : jstring)
| AEndTimer.                              (* a scheduled endChatSession fires *)

(** The handler an action runs.  An action on an element that is not in
    the document (the form's buttons, a chip, a timer that was not set)
    or that has no listener does not occur; it is modelled as doing
    nothing.  In the streaming build no code builds a lead form, the
    registration of [handleRating] throws instead of adding a listener
    (where the page has rating inputs this ends the script's set-up, and
    the specialist button and the Enter key are left without a listener
    too), and the callback of an end timer calls [endChatSession], which
    is not declared. *)
Definition handler (a : Action) : Eff unit :=
  match a with
  | AInput text => modify (set_chatInput_value text)
  | ASend response => sendMessage response
  | AChip text response =>
    s <- get ;;
    if existsb isChips (chatBody s) then
      modify (set_chatInput_value text) ;;
      sendMessage response ;;
      modify (fun s => set_chatBody (removeFirst isChips (chatBody s)) s)
    else ret tt
  | AReset src => resetChat src
  | AOpen => openChat
  | ADismiss =>
    s <- get ;;
    match build with
    | Streaming => ret tt
    | Plain => if hasLeadForm (chatBody s) then dismissLeadForm else ret tt
    end
  | ASubmit name email phone response =>
    s <- get ;;
    match build with
    | Streaming => ret tt
    | Plain =>
      if hasLeadForm (chatBody s) then handleLeadSubmit name email phone response
      else ret tt
    end
  | ASpecialist => specialistClick
  | ARate value =>
    match build with
    | Streaming => ret tt
    | Plain => handleRating value
    end
  | AEndTimer =>
    s <- get ;;
    match endTimers s with
    | O => ret tt
    | Datatypes.S n =>
      modify (set_endTimers n) ;;
      match build with
      | Streaming => throw
      | Plain => endChatSession
      end
    end
  end.

(** An uncaught exception of a handler ends the handler; the session keeps
    what it had become. *)
Definition step (s : Session) (a : Action) : Session := exec (handler a) s.

Definition run (s : Session) (actions : list Action) : Session :=
  fold_left step actions s.

(** ** Handlers that wait for the network

    [sendMessage] and [handleLeadSubmit] are [async] functions: each runs
    to its first [await] and goes on when the network has answered; in
    between the browser runs whatever other handler is due.  [handler]
    runs the two in one piece, which is what happens when nothing else is
    due meanwhile.  The segments below are the pieces between two
    [await]s, each of which runs without interruption. *)

(** [sendMessage] up to [await fetch(...)]: the guards, the visitor's
    message, the request. *)
Definition sendMessage_start : Eff unit :=
  s <- get ;;
  if chatEnded s then ret tt else
  if unconfigured then appendMessage assistant (JStr notConfigured) false else
  let message := trim (chatInput_value s) in
  if negb (nonEmpty message) then ret tt else
  beginSend message ;;
  s1 <- get ;;
  logFetch (ChatRequest (match build with Plain => Some BUSINESS_ID | Streaming => None end)
              (conversationId s1) message sheetId).

(** [catch] and [finally] of [sendMessage], after a rejected fetch, a
    status that is not ok, or a body that cannot be read. *)
Definition sendMessage_failed : Eff unit :=
  tryFinally (appendMessage assistant (JStr apology) false) (showTyping false).

(** The plain build, once [await response.json()] has given the reply. *)
Definition sendMessage_reply (data : JsValue) : Eff unit :=
  tryFinally
    (tryCatch (handleResult data) (appendMessage assistant (JStr apology) false))
    (showTyping false).

(** [handleLeadSubmit] up to [await fetch(...)]: the checks and the
    request, whose payload is read from the session as it is now. *)
Definition handleLeadSubmit_start (name email phone : jstring) : Eff unit :=
  if negb (nonEmpty BUSINESS_ID) then appendMessage assistant (JStr notConfigured) false
  else
  let name := trim name in
  let email := trim email in
  let phone := trim phone in
  if negb (nonEmpty name) then
    modify (fun s => set_alerts (alerts s ++ [lit "Please add your name."]) s)
  else if negb (nonEmpty email) && negb (nonEmpty phone) then
    modify (fun s => set_alerts (alerts s ++ [lit "Please add at least an email or phone number."]) s)
  else
    s <- get ;;
    logFetch (LeadRequest (conversationId s) name email phone (pendingLeadMeta s)).

(** [form.remove()], for the form that was submitted: it is the child of
    the chat body at some position, or it has left the document since, and
    is then removed from nowhere. *)
Fixpoint removeFormAt (i : nat) (body : list Node) : list Node :=
  match body, i with
  | [], _ => []
  | n :: rest, O => if isLeadFormNode n then rest else n :: rest
  | n :: rest, Datatypes.S i => n :: removeFormAt i rest
  end.

Definition removeForm (form : option nat) (body : list Node) : list Node :=
  match form with
  | Some i => removeFormAt i body
  | None => body
  end.

(** [handleLeadSubmit] after a response that is ok. *)
Definition handleLeadSubmit_accepted (form : option nat) : Eff unit :=
  tryCatch
    (modify (fun s => set_chatBody (removeForm form (chatBody s)) s) ;;
     modify (set_leadFormVisible false) ;;
     modify (set_leadSubmitted true) ;;
     modify (set_pendingLeadMeta None) ;;
     appendMessage assistant (JStr thanksMessage) true)
    (modify (fun s => set_alerts
       (alerts s ++ [lit "Unable to submit lead yet. Make sure the backend is running."]) s)).

(** [handleLeadSubmit] after a rejected fetch or a response that is not
    ok. *)
Definition handleLeadSubmit_refused : Eff unit :=
  modify (fun s => set_alerts
    (alerts s ++ [lit "Unable to submit lead yet. Make sure the backend is running."]) s).

Inductive Segment :=
| GAtomic (a : Action)               (* a handler, with nothing else in between *)
| GSendStart                         (* send button or Enter, to the first await *)
| GChipStart (text : jstring)        (* a chip, to the first await of its send *)
| GEvent (event : JsValue)           (* streaming build: a line of the stream, parsed *)
| GReply (data : JsValue)            (* plain build: the reply, parsed *)
| GSendFailed                        (* the request or the reading of its response failed *)
| GSendDone                          (* streaming build: the stream has ended *)
| GLeadStart (name email phone : jstring)   (* the form is submitted *)
| GLeadAccepted (form : option nat)  (* the lead request was answered ok *)
| GLeadRefused.                      (* the lead request failed *)

(** What a segment runs.  A segment of a handler the build does not have
    does nothing; a form can be submitted only while it is in the
    document.  Which segments are due depends on the requests that are
    pending, which the session does not record: the sequences of segments
    are all those a browser can run, and more. *)
Definition segment (g : Segment) : Eff unit :=
  match g with
  | GAtomic a => handler a
  | GSendStart => sendMessage_start
  | GChipStart text =>
    s <- get ;;
    if existsb isChips (chatBody s) then
      modify (set_chatInput_value text) ;;
      sendMessage_start ;;
      modify (fun s => set_chatBody (removeFirst isChips (chatBody s)) s)
    else ret tt
  | GEvent event =>
    match build with
    | Streaming => tryCatch (handleEvent event) (ret tt)
    | Plain => ret tt
    end
  | GReply data =>
    match build with
    | Streaming => ret tt
    | Plain => sendMessage_reply data
    end
  | GSendFailed => sendMessage_failed
  | GSendDone =>
    match build with
    | Streaming => showTyping false
    | Plain => ret tt
    end
  | GLeadStart name email phone =>
    s <- get ;;
    match build with
    | Streaming => ret tt
    | Plain =>
      if hasLeadForm (chatBody s) then handleLeadSubmit_start name email phone
      else ret tt
    end
  | GLeadAccepted form =>
    match build with
    | Streaming => ret tt
    | Plain => handleLeadSubmit_accepted form
    end
  | GLeadRefused =>
    match build with
    | Streaming => ret tt
    | Plain => handleLeadSubmit_refused
    end
  end.

Definition istep (s : Session) (g : Segment) : Session := exec (segment g) s.

Definition irun (s : Session) (segments : list Segment) : Session :=
  fold_left istep segments s.

(** The segments that follow [GSendStart] when the network answers with
    [response] and nothing else happens meanwhile. *)
Definition responseSegments (response : ChatResponse) : list Segment :=
  match response with
  | FetchRejected => [GSendFailed]
  | HttpResponse ok body =>
    if negb ok then [GSendFailed] else
    match build with
    | Streaming =>
      match body with
      | None => [GSendFailed]
      | Some (chunks, fin) =>
        map GEvent (streamEvents JSON_parse chunks)
        ++ [match fin with StreamDone => GSendDone | StreamAborted => GSendFailed end]
      end
    | Plain =>
      match responseJson body with
      | None => [GSendFailed]
      | Some data => [GReply data]
      end
    end
  end.

(** The segments that follow [GLeadStart]; the form that was submitted is
    still the [i]-th child of the chat body. *)
Definition leadSegments (i : nat) (response : LeadResponse) : list Segment :=
  match response with
  | LeadFetchRejected => [GLeadRefused]
  | LeadHttpResponse ok => if ok then [GLeadAccepted (Some i)] else [GLeadRefused]
  end.

(** [preserves P m]: whatever [m] does to a session that satisfies [P], and
    however it completes, the session it leaves satisfies [P]. *)
Definition preserves {A} (P : Session -> Prop) (m : Eff A) : Prop :=
  forall s, P s -> P (snd (m s)).

(** The bubble that [appendMessage('assistant', apology)] appends. *)
Definition apologyBubble : Node :=
  match build with
  | Streaming => Bubble assistant (InnerHTML (JStr apology))
  | Plain => Bubble assistant (TextContent (JStr apology))
  end.

(** A request that fails: the network rejects it, or the status is not a
    success. *)
Definition requestFailure (response : ChatResponse) : bool :=
  match response with
  | FetchRejected => true
  | HttpResponse ok _ => negb ok
  end.

(** The conversation id, the profile, the lead state and the ended flag of
    [s'] are those of [s]. *)
Definition sameCore (s s' : Session) : Prop :=
  conversationId s' = conversationId s
  /\ latestProfile s' = latestProfile s
  /\ leadFormVisible s' = leadFormVisible s
  /\ leadSubmitted s' = leadSubmitted s
  /\ pendingLeadMeta s' = pendingLeadMeta s
  /\ chatEnded s' = chatEnded s.

(** A conversation id as the data model wants it: a string that is not
    empty. *)
Definition isNonEmptyId (v : JsValue) : bool :=
  match v with
  | JStr (_ :: _) => true
  | _ => false
  end.

(** The reply [data] carries a non-empty string as its conversation id (or
    is null or undefined, and reading the id throws before anything is
    saved). *)
Definition dataIdOk (data : JsValue) : Prop :=
  match member data k_conversation_id with
  | Some id => isNonEmptyId id = true
  | None => True
  end.

(** The same for a stream event: only a result event carries data. *)
Definition eventIdOk (event : JsValue) : Prop :=
  match member event k_type with
  | Some type =>
    if strictEqStr type (lit "result") then
      match member event k_data with
      | Some data => dataIdOk data
      | None => True
      end
    else True
  | None => True
  end.

(** Every reply the response delivers carries a non-empty conversation id. *)
Definition responseIdsOk (response : ChatResponse) : Prop :=
  match response with
  | FetchRejected => True
  | HttpResponse ok body =>
    match build with
    | Streaming =>
      match body with
      | Some (chunks, _) => Forall eventIdOk (streamEvents JSON_parse chunks)
      | None => True
      end
    | Plain =>
      match responseJson body with
      | Some data => dataIdOk data
      | None => True
      end
    end
  end.

Definition actionIdsOk (a : Action) : Prop :=
  match a with
  | ASend response | AChip _ response => responseIdsOk response
  | AReset src => validIdSource src
  | _ => True
  end.

Definition idInvariant (s : Session) : Prop :=
  isNonEmptyId (conversationId s) = true.

(** ** Inline image tags in their simplest form *)

Definition s_src_attr : jstring := Eval cbv in litq " src=`".

(** The tag with number [d], the quoted source [src] and no inner text. *)
Definition simpleTag (t : Z * jstring) : jstring :=
  s_image_open ++ [fst t] ++ s_src_attr ++ snd t ++ [34; 62] ++ s_image_close ++ [fst t; 62].

(** The number is one of 1 to 5, and the source has no double quote and is
    not blank. *)
Definition validSimpleTag (t : Z * jstring) : Prop :=
  49 <= fst t <= 53
  /\ forallb notQuote (snd t) = true
  /\ nonEmpty (trim (snd t)) = true.

Definition imageOfSimpleTag (t : Z * jstring) : Image := mkImage (trim (snd t)) [].

(** The price a listing-card tag is rendered with: the value of
    [priceFormatted] in the card callback, when the tag is matched. *)
Definition cardPrice (tag : jstring) : option jstring :=
  match matchCardTag tag with
  | Some (attrString, _) => Some (priceFormatted (parseAttrs attrString 0 []))
  | None => None
  end.

Definition s_price_attr : jstring := Eval cbv in litq "price=`".

(** The listing-card tag whose only attribute is the price [p]. *)
Definition priceTag (p : jstring) : jstring :=
  s_card_open ++ [32] ++ s_price_attr ++ p ++ [34; 62] ++ s_card_close.


(** ** Sample inputs for the closed examples *)

(** Bytes of a text, a backtick standing for the double quote. *)
Definition bytesq (s : string) : list Byte.byte :=
  map (fun b => if Byte.eqb b Byte.x60 then Byte.x22 else b) (list_byte_of_string s).

Definition ex_uuid : jstring := lit "123e4567-e89b-12d3-a456-426614174000".
Definition ex_session : Session := initialSession (RandomUUID ex_uuid).
Definition ex_business : jstring := lit "default".

(** A routing signal and a profile that meet every fire condition, the
    profile with a contact email on file. *)
Definition ex_routing_yes : JsValue :=
  JObj [(k_lead_capture, JStr (lit "yes")); (k_intent, JStr (lit "buy"))].
Definition ex_profile_contact : JsValue :=
  JObj [(k_stage, JStr (lit "contact")); (k_product_name, JStr (lit "Loft"));
        (k_contact_email, JStr (lit "ann@example.com"))].

(** A profile with a product name and nothing else. *)
Definition ex_profile_product : JsValue := JObj [(k_product_name, JStr (lit "Loft"))].

(** A session whose visitor typed a message. *)
Definition ex_typed : Session := set_chatInput_value (lit " hello ") ex_session.

(** A stream of three lines, the second not JSON, cut in the middle of the
    second line. *)
Definition ex_line1 : list Byte.byte := bytesq "{`type`:`status`,`message`:`Searching`}".
Definition ex_line3 : list Byte.byte := bytesq "{`type`:`error`,`message`:`late`}".
Definition ex_chunks_bad : list (list Byte.byte) :=
  [ex_line1 ++ [Byte.x0a] ++ bytesq "not js"; bytesq "on" ++ [Byte.x0a] ++ ex_line3 ++ [Byte.x0a]].

(** One result line with a two-byte character in the reply, cut between
    the two bytes. *)
Definition ex_chunks_utf8 : list (list Byte.byte) :=
  [bytesq "{`type`:`result`,`data`:{`conversation_id`:`c-1`,`reply`:`caf" ++ [Byte.xc3];
   [Byte.xa9] ++ bytesq "`}}" ++ [Byte.x0a]].

(** A result whose conversation id is the empty string. *)
Definition ex_response_empty_id : ChatResponse :=
  HttpResponse true
    (Some ([bytesq "{`type`:`result`,`data`:{`conversation_id`:``,`reply`:`ok`}}" ++ [Byte.x0a]],
           StreamDone)).

(** A result with a profile that names a product, and no routing member. *)
Definition ex_response_no_routing : ChatResponse :=
  HttpResponse true
    (Some ([bytesq "{`type`:`result`,`data`:{`conversation_id`:`c-2`,`reply`:`ok`,`profile`:{`product_name`:`Loft`}}}"
            ++ [Byte.x0a]], StreamDone)).

(** A result with a routing signal and a conversation id. *)
Definition ex_response_ok : ChatResponse :=
  HttpResponse true
    (Some ([bytesq "{`type`:`result`,`data`:{`conversation_id`:`c-3`,`reply`:`ok`,`routing`:{`intent`:`buy`}}}"
            ++ [Byte.x0a]], StreamDone)).

(** Seven image tags in a sentence. *)
Definition ex_seven_tag_list : list (Z * jstring) :=
  [(49, lit "a.jpg"); (50, lit "b.jpg"); (51, lit "c.jpg"); (52, lit "d.jpg");
   (53, lit "e.jpg"); (49, lit "f.jpg"); (50, lit "g.jpg")].
Definition ex_seven_tags : jstring :=
  lit "Photos: " ++ List.concat (map simpleTag ex_seven_tag_list) ++ lit " enjoy".

(** The number of [<img] elements in a piece of markup. *)
Fixpoint countImgElements (html : jstring) : nat :=
  match html with
  | [] => 0
  | _ :: rest =>
    (match matchCI (lit "<img") html with Some _ => 1 | None => 0 end
     + countImgElements rest)%nat
  end.

Definition renderedImages (n : Node) : nat :=
  match n with
  | Bubble _ (InnerHTML (JStr h)) => countImgElements h
  | _ => 0%nat
  end.

(** Currency signs (a part of the Unicode category Sc). *)
Definition isCurrencySymbol (c : Z) : bool :=
  (c =? 36) || ((162 <=? c) && (c <=? 165)) || ((8352 <=? c) && (c <=? 8384)).

Definition ex_euro_price : jstring := 8364 :: lit "1,000".

(** ** Notions for the properties beyond the specification's *)

(** The number of lead forms in the chat body. *)
Definition countForms (body : list Node) : nat :=
  List.length (filter isLeadFormNode body).

(** The session [resetChat] leaves: the body is empty, or holds the
    greeting chips [openChat] offers in the streaming build. *)
Definition resetSession (src : IdSource) (s : Session) : Session :=
  set_chatBody (match build with Streaming => [SuggestionChips greetingChips] | Plain => [] end)
    (set_conversationId (JStr (makeConversationId src))
       (set_inputLocked false (set_ratingShown false (set_chatEnded false
          (set_sessionRating None (set_pendingLeadMeta None (set_leadSubmitted false
             (set_leadFormVisible false s)))))))).

(** ** Lead submission *)

(** The checks of [handleLeadSubmit] on the trimmed fields: a name, and an
    email or a phone number. *)
Definition leadFieldsOk (name email phone : jstring) : bool :=
  nonEmpty (trim name) && (nonEmpty (trim email) || nonEmpty (trim phone)).

Definition leadAccepted (response : LeadResponse) : bool :=
  match response with
  | LeadFetchRejected => false
  | LeadHttpResponse ok => ok
  end.

(** The alert a refused submission raises. *)
Definition refusalAlert (name email phone : jstring) : jstring :=
  if negb (nonEmpty (trim name)) then lit "Please add your name."
  else if leadFieldsOk name email phone
       then lit "Unable to submit lead yet. Make sure the backend is running."
       else lit "Please add at least an email or phone number.".

(** The request [handleLeadSubmit] posts from session [s]. *)
Definition leadRequestOf (name email phone : jstring) (s : Session) : FetchCall :=
  LeadRequest (conversationId s) (trim name) (trim email) (trim phone) (pendingLeadMeta s).

Definition thanksBubble : Node := Bubble assistant (InnerHTML (JStr thanksMessage)).

(** The actions that leave a submitted lead alone: all but a reset and the
    specialist button. *)
Definition keepsLead (a : Action) : bool :=
  match a with
  | AReset _ | ASpecialist => false
  | _ => true
  end.

Definition leadClosed (s : Session) : Prop :=
  leadSubmitted s = true /\ countForms (chatBody s) = 0%nat.

(** ** The end of a chat *)

Definition isChatRequest (c : FetchCall) : bool :=
  match c with ChatRequest _ _ _ _ => true | LeadRequest _ _ _ _ _ => false end.

(** The requests to the chat endpoint among those issued. *)
Definition chatRequests (log : list FetchCall) : list FetchCall :=
  filter isChatRequest log.

Definition keepsEnded (a : Action) : bool :=
  match a with AReset _ => false | _ => true end.

Definition endedWith (L : list FetchCall) (s : Session) : Prop :=
  chatEnded s = true /\ chatRequests (fetchLog s) = L.

(** ** Events of a stream *)

(** An event whose [type] is [result]; reading the type of [null] throws. *)
Definition isResultEvent (event : JsValue) : bool :=
  match member event k_type with
  | Some type => strictEqStr type (lit "result")
  | None => false
  end.

Definition isString (v : JsValue) : bool :=
  match v with JStr _ => true | _ => false end.

(** ** Text the renderer's expressions do not touch *)

(** Whether the literal [pat] (given in lower case) occurs in [s], in any
    case of its letters. *)
Fixpoint occurs (pat s : jstring) : bool :=
  match s with
  | [] => match matchCI pat [] with Some _ => true | None => false end
  | _ :: s' => match matchCI pat s with Some _ => true | None => occurs pat s' end
  end.

(** ** Attribute strings *)

(** One attribute as the backend writes it: a space, the key, the equals
    sign and the value in double quotes. *)
Definition attrSource (kv : jstring * jstring) : jstring :=
  32 :: fst kv ++ [61; 34] ++ snd kv ++ [34].

Definition validAttr (kv : jstring * jstring) : Prop :=
  nonEmpty (fst kv) = true
  /\ forallb isWordChar (fst kv) = true
  /\ forallb notQuote (snd kv) = true.

(** The attributes an assignment stores: all but those named [__proto__]. *)
Definition storable (kv : jstring * jstring) : bool := negb (jstr_eqb (fst kv) k_proto).

(** ** The phrase in the typing bubble *)

(** [String.prototype.toLowerCase] and the [toString] of a value that is
    no string, as the browser computes them. *)
Variable toLowerCase : jstring -> jstring.
Variable toStringOf : JsValue -> jstring.

Definition searchWords : list jstring :=
  [lit "see"; lit "show"; lit "find"; lit "search"; lit "look"; lit "list";
   lit "house"; lit "home"; lit "property"; lit "sqft"; lit "beds"; lit "baths"].
Definition bookingWords : list jstring :=
  [lit "book"; lit "schedule"; lit "tour"; lit "visit"; lit "appointment";
   lit "time"; lit "calendar"].
Definition contactWords : list jstring :=
  [lit "email"; lit "call"; lit "text"; lit "phone"; lit "contact"; lit "name";
   lit "reach"].

Definition searchPhrases : list jstring :=
  [lit "Searching listings..."; lit "Finding your match...";
   lit "Checking the market..."; lit "Looking up homes..."].
Definition bookingPhrases : list jstring :=
  [lit "Checking availability..."; lit "Reviewing calendar...";
   lit "Finding a slot..."; lit "Coordinating times..."].
Definition contactPhrases : list jstring :=
  [lit "Updating profile..."; lit "Saving details..."; lit "Noting that down..."].
Definition defaultPhrases : list jstring :=
  [lit "Thinking..."; lit "Processing..."; lit "Just a moment..."].

(** The test of an alternation of literals under the [i] flag: one of the
    words occurs somewhere in the text. *)
Definition testAny (words : list jstring) (s : jstring) : bool :=
  existsb (fun w => occurs w s) words.

(** [opts[Math.floor(random * opts.length)]], undefined out of range. *)
Definition pick (opts : list jstring) (random : Q) : option jstring :=
  let i := Qfloor (Qmult random (inject_Z (Z.of_nat (List.length opts)))) in
  if i <? 0 then None else nth_error opts (Z.to_nat i).

(** [getTypingFlavor(text)] for a string [text], with the number
    [Math.random()] returns. *)
Definition getTypingFlavor (text : jstring) (random : Q) : option jstring :=
  let lower := toLowerCase text in
  if testAny searchWords lower then pick searchPhrases random
  else if testAny bookingWords lower then pick bookingPhrases random
  else if testAny contactWords lower then pick contactPhrases random
  else pick defaultPhrases random.

(** ** The base of the backend's address *)

(** [replace] with the expression for one slash at the end of the input. *)
Definition stripTrailingSlash (s : jstring) : jstring :=
  match rev s with
  | 47 :: r => rev r
  | _ => s
  end.

Definition fallbackBase : jstring := lit "https://rmdev-gthj.onrender.com".

(** [API_BASE], from [window.RM_API_BASE] and [window.location.origin];
    [None] when [toString] throws. *)
Definition API_BASE (RM_API_BASE : JsValue) (origin : jstring) : option jstring :=
  let v := jsOr RM_API_BASE (JStr []) in
  if toStringThrows v then None else
  let configured :=
    stripTrailingSlash (trim (match v with JStr s => s | _ => toStringOf v end)) in
  Some (if nonEmpty configured then configured
        else if nonEmpty origin && startsWith origin (lit "http") then origin
        else fallbackBase).

(** ** The form and its lead meta *)

(** What the script knows of the forms in the chat body, whatever the
    order in which the pieces of its handlers run: there is at most one
    form; until a lead is accepted, a form that is there is flagged by
    [leadFormVisible] and the lead meta is the one it was built with; the
    streaming build has no form at all. *)
Definition formsKnown (s : Session) : Prop :=
  (countForms (chatBody s) <= 1)%nat
  /\ (hasLeadForm (chatBody s) = true -> leadSubmitted s = false ->
      leadFormVisible s = true)
  /\ (forall f, In (LeadFormNode f) (chatBody s) -> leadSubmitted s = false ->
        exists m, pendingLeadMeta s = Some m /\ meta_summary m = form_summaryText f)
  /\ (build = Streaming -> countForms (chatBody s) = 0%nat).

(** The position of the first form in the chat body. *)
Fixpoint formIndex (body : list Node) : nat :=
  match body with
  | [] => O
  | n :: rest => if isLeadFormNode n then O else Datatypes.S (formIndex rest)
  end.

(** ** Suggestion chips *)

Definition countChips (body : list Node) : nat := List.length (filter isChips body).

(** At most one chips container is in the chat body, and none in the
    plain build. *)
Definition chipsInvariant (s : Session) : Prop :=
  (countChips (chatBody s) <= 1)%nat
  /\ (build = Plain -> countChips (chatBody s) = 0%nat).

(** ** Responses without a reply *)

(** A successful response that carries nothing to read: in the streaming
    build its body is null, in the plain build its body is no JSON or is
    the JSON [null]. *)
Definition noReplyData (response : ChatResponse) : bool :=
  match response with
  | FetchRejected => false
  | HttpResponse ok body =>
    ok && match build with
          | Streaming => match body with None => true | Some _ => false end
          | Plain => match responseJson body with
                     | None | Some JNull | Some JUndefined => true
                     | Some _ => false
                     end
          end
  end.

(** ** Further sample inputs *)

(** [toLowerCase] on texts whose letters are ASCII, and a [toString] that
    is right for objects. *)
Definition toLowerCase_ascii (s : jstring) : jstring := map toLowerAscii s.
Definition toStringOf_ref (v : JsValue) : jstring :=
  match v with
  | JBool true => lit "true"
  | JBool false => lit "false"
  | _ => lit "[object Object]"
  end.

(** A status line, and a result line the backend did not terminate. *)
Definition ex_unterminated_tail : jstring :=
  litq "{`type`:`result`,`data`:{`conversation_id`:`c-7`,`reply`:`late`}}".
Definition ex_chunks_unterminated : list (list Byte.byte) :=
  [ex_line1 ++ [Byte.x0a];
   bytesq "{`type`:`result`,`data`:{`conversation_id`:`c-7`,`reply`:`late`}}"].

(** A stream with a status event and an error event only. *)
Definition ex_chunks_status : list (list Byte.byte) :=
  [ex_line1 ++ [Byte.x0a]; ex_line3 ++ [Byte.x0a]].

(** A result event whose reply is the number 5, with a routing signal
    that asks for lead capture. *)
Definition ex_data_number_reply : JsValue :=
  JObj [(k_conversation_id, JStr (lit "c-9")); (k_reply, JNum (5 # 1));
        (k_routing, ex_routing_yes)].
Definition ex_event_number_reply : JsValue :=
  JObj [(k_type, JStr (lit "result")); (k_data, ex_data_number_reply)].

(** A reply with markup that is neither an image tag nor a listing card. *)
Definition ex_markup : jstring := lit "<b>Hi</b><script>alert(1)</script>".

(** The attributes of a card that gives [beds] twice, and [__proto__]. *)
Definition ex_attrs : list (jstring * jstring) :=
  [(lit "beds", lit "3"); (lit "__proto__", lit "x"); (lit "price", lit "450000");
   (lit "beds", lit "4")].

(** A session with a lead submitted, and one that has ended with a message
    typed in. *)
Definition ex_submitted : Session := set_leadSubmitted true ex_session.
Definition ex_ended : Session := set_chatEnded true ex_typed.

(** Replies of the plain build: one JSON body.  The first has a profile
    that names a product and no routing member, the second a routing
    signal with a buying intent. *)
Definition ex_reply_no_routing : ChatResponse :=
  HttpResponse true
    (Some ([bytesq "{`conversation_id`:`c-2`,`reply`:`ok`,`profile`:{`product_name`:`Loft`}}"],
           StreamDone)).
Definition ex_reply_ok : ChatResponse :=
  HttpResponse true
    (Some ([bytesq "{`conversation_id`:`c-3`,`reply`:`ok`,`routing`:{`intent`:`buy`}}"],
           StreamDone)).

(** ** The scan of the image expression, piece by piece *)

(** What [cleaned.replace(imgTag, callback)] makes of a text: a code unit
    it keeps, or a match, with the text the match spans. *)
Inductive Piece :=
| Kept (c : Z)
| Tag (m : ImgMatch) (text : jstring).

Fixpoint imgTagPieces (s : jstring) (skip : nat) : list Piece :=
  match s with
  | [] => []
  | c :: s' =>
    match skip with
    | S k => imgTagPieces s' k
    | O =>
      match matchImgTag s with
      | Some m =>
        Tag m (firstn (List.length s - List.length (im_rest m)) s)
          :: imgTagPieces s' (List.length s' - List.length (im_rest m))
      | None => Kept c :: imgTagPieces s' 0
      end
    end
  end.

Definition pieceText (p : Piece) : jstring :=
  match p with Kept c => [c] | Tag _ text => text end.
Definition pieceKept (p : Piece) : jstring :=
  match p with Kept c => [c] | Tag _ _ => [] end.
Definition pieceTags (p : Piece) : list jstring :=
  match p with Kept _ => [] | Tag _ text => [text] end.
Definition pieceImages (p : Piece) : list Image :=
  match p with Kept _ => [] | Tag m _ => imageOfMatch m end.

(** [scanOf pieces s]: [pieces] is the scan of [s] by a global
    replacement.  Where the expression matches at the head of what is left,
    the piece is that match, it spans a non-empty text, and the scan goes
    on behind it; where it does not, the code unit at the head is kept. *)
Fixpoint scanOf (pieces : list Piece) (s : jstring) : Prop :=
  match pieces with
  | [] => s = []
  | Kept c :: rest =>
    matchImgTag s = None /\ exists s', s = c :: s' /\ scanOf rest s'
  | Tag m text :: rest =>
    matchImgTag s = Some m /\ text <> [] /\ s = text ++ im_rest m
    /\ scanOf rest (im_rest m)
  end.

(** ** A lead request answered late *)

(** The reply of [ex_reply_ok], parsed. *)
Definition ex_data_buy : JsValue :=
  JObj [(k_conversation_id, JStr (lit "c-3")); (k_reply, JStr (lit "ok"));
        (k_routing, JObj [(k_intent, JStr (lit "buy"))])].

(** A reply brings up a form, which is submitted and, while the lead
    request is pending, dismissed; the next reply brings up another
    form. *)
Definition ex_second_form : list Segment :=
  [GAtomic (AInput (lit "hi")); GSendStart; GReply ex_data_buy;
   GLeadStart (lit "Ann") (lit "ann@example.com") [];
   GAtomic ADismiss;
   GAtomic (AInput (lit "more")); GSendStart; GReply ex_data_buy].

(** The form a reply without a summary brings up. *)
Definition ex_form : LeadForm :=
  mkLeadForm (JStr genericSummary) (JStr []) (JStr []) (lit "email").

(* ================================================================== *)
(** * Properties *)

(** ** Values *)

Lemma jstr_eqb_refl (a : jstring) : jstr_eqb a a = true.
Proof.
  induction a as [|x a IH]; simpl; [reflexivity|].
  now rewrite Z.eqb_refl, IH.
Qed.

Lemma jstr_eqb_eq (a b : jstring) : jstr_eqb a b = true <-> a = b.
Proof.
  split.
  - revert b; induction a as [|x a IH]; intros [|y b]; simpl; try discriminate; auto.
    intros H. apply andb_true_iff in H as [Hxy Hab].
    apply Z.eqb_eq in Hxy. f_equal; auto.
  - intros ->. apply jstr_eqb_refl.
Qed.

Lemma member_truthy (v : JsValue) (k : jstring) :
  truthy v = true -> member v k = Some (optMember v k).
Proof. destruct v; simpl; intros H; try discriminate; reflexivity. Qed.

Lemma jsOr_truthy_l (a b : JsValue) : truthy a = true -> jsOr a b = a.
Proof. unfold jsOr; now intros ->. Qed.

Lemma jsOr_falsy_l (a b : JsValue) : truthy a = false -> jsOr a b = b.
Proof. unfold jsOr; now intros ->. Qed.

Lemma truthy_jsOr (a b : JsValue) : truthy (jsOr a b) = truthy a || truthy b.
Proof. unfold jsOr; destruct (truthy a) eqn:E; simpl; auto. Qed.

(** A value with a truthy member is an object, hence truthy itself. *)
Lemma optMember_truthy_obj (v : JsValue) (k : jstring) :
  truthy (optMember v k) = true -> exists props, v = JObj props.
Proof. destruct v; simpl; try discriminate; eauto. Qed.

Lemma orElse_members (a b : JsValue) (k : jstring) (d : JsValue) :
  truthy a = true -> truthy b = true ->
  orElse (member a k) (orElse (member b k) (Some d))
  = Some (jsOr (optMember a k) (jsOr (optMember b k) d)).
Proof.
  intros Ha Hb. rewrite (member_truthy a k Ha), (member_truthy b k Hb).
  unfold orElse, jsOr.
  destruct (truthy (optMember a k)); [reflexivity|].
  destruct (truthy (optMember b k)); reflexivity.
Qed.

Lemma orElse_member1 (b : JsValue) (k : jstring) (d : JsValue) :
  truthy b = true ->
  orElse (member b k) (Some d) = Some (jsOr (optMember b k) d).
Proof.
  intros Hb. rewrite (member_truthy b k Hb). unfold orElse, jsOr.
  destruct (truthy (optMember b k)); reflexivity.
Qed.

(** ** The Lead Gate *)

(** [handleRouting], read off its text: the profile replaces
    [latestProfile] when it is truthy; without a routing signal nothing
    else happens; with one, the gate decides whether [renderLeadForm] runs. *)
Lemma handleRouting_eq (routing profile : JsValue) (s : Session) :
  handleRouting routing profile s =
  let s1 := if truthy profile then set_latestProfile profile s else s in
  if negb (truthy routing) then (Normal tt, s1)
  else if leadGate routing profile s
       then renderLeadForm routing false (jsOr profile (latestProfile s1)) s1
       else (Normal tt, s1).
Proof.
  unfold handleRouting, updateProfilePanel, bind, modify, get, ret.
  destruct (truthy profile) eqn:Hp; cbn zeta.
  - assert (Hj : jsOr match profile with JUndefined => emptyObject | _ => profile end
                   emptyObject = profile).
    { destruct profile; simpl in Hp; try discriminate; unfold jsOr; simpl; try rewrite Hp; reflexivity. }
    rewrite Hj. destruct (truthy routing); simpl; [|reflexivity].
    change (leadGate routing profile (set_latestProfile profile s))
      with (leadGate routing profile s).
    destruct (leadGate routing profile s); reflexivity.
  - destruct (truthy routing); simpl; [|reflexivity].
    destruct (leadGate routing profile s); reflexivity.
Qed.

(** [renderLeadForm] on a routing signal and a profile that are truthy,
    when the form is not visible or the call is forced. *)
Lemma renderLeadForm_eq (routing profile : JsValue) (force : bool) (s : Session) :
  truthy routing = true -> truthy profile = true ->
  leadFormVisible s && negb force = false ->
  renderLeadForm routing force profile s =
  let s1 := set_pendingLeadMeta (Some (leadMetaFor routing profile))
              (set_chatBody (removeFirstLeadForm (chatBody s)) s) in
  if formBuilds (leadFormFor routing profile)
  then (Normal tt,
        set_leadFormVisible true
          (set_chatBody (chatBody s1 ++ [LeadFormNode (leadFormFor routing profile)]) s1))
  else (Thrown, s1).
Proof.
  intros Hr Hp Hv.
  unfold renderLeadForm, bind, get, modify, ret.
  assert (Er : match routing with JUndefined => emptyObject | _ => routing end = routing)
    by (destruct routing; simpl in Hr; try discriminate; reflexivity).
  assert (Ep : match profile with JUndefined => latestProfile s | _ => profile end = profile)
    by (destruct profile; simpl in Hp; try discriminate; reflexivity).
  rewrite Er, Ep, Hv.
  rewrite !(orElse_members routing profile _ _ Hr Hp).
  rewrite !(orElse_member1 profile _ _ Hp).
  cbn [liftE ret]. unfold formBuilds, leadFormFor, leadMetaFor, appendChild, modify, bind.
  cbn [form_summaryText form_emailOnFile form_phoneOnFile].
  destruct (formMarkupOk _ _ _); reflexivity.
Qed.

Lemma hasLeadForm_app_form (body : list Node) (f : LeadForm) :
  hasLeadForm (body ++ [LeadFormNode f]) = true.
Proof.
  unfold hasLeadForm. rewrite existsb_app. simpl. apply orb_true_r.
Qed.

Lemma leadGate_false_of_suppressed (routing profile : JsValue) (s : Session) :
  leadFormVisible s = true \/ leadSubmitted s = true
  \/ truthy (optMember profile k_contact_email) = true
  \/ truthy (optMember profile k_contact_phone) = true ->
  leadGate routing profile s = false.
Proof.
  unfold leadGate, contactOnFile. rewrite truthy_jsOr.
  intros [H | [H | [H | H]]]; rewrite H;
    repeat (rewrite ?andb_false_r, ?andb_false_l, ?orb_true_r; simpl); reflexivity.
Qed.

(** C1. Suppression takes precedence over every fire condition: when the
    lead form is already visible, or a lead was already submitted, or the
    profile carries a (truthy) contact email or contact phone, the gate is
    closed whatever the routing signal and the rest of the profile say, and
    [handleRouting] does nothing but record the profile: no form is
    rendered, the chat body, the visibility flag and the pending lead meta
    keep their values. *)
Theorem lead_gate_suppression_precedence (routing profile : JsValue) (s : Session) :
  leadFormVisible s = true \/ leadSubmitted s = true
  \/ truthy (optMember profile k_contact_email) = true
  \/ truthy (optMember profile k_contact_phone) = true ->
  leadGate routing profile s = false
  /\ handleRouting routing profile s
     = (Normal tt, if truthy profile then set_latestProfile profile s else s)
  /\ chatBody (exec (handleRouting routing profile) s) = chatBody s
  /\ leadFormVisible (exec (handleRouting routing profile) s) = leadFormVisible s
  /\ pendingLeadMeta (exec (handleRouting routing profile) s) = pendingLeadMeta s.
Proof.
  intros Hsup.
  pose proof (leadGate_false_of_suppressed routing profile s Hsup) as Hgate.
  assert (Heq : handleRouting routing profile s
                = (Normal tt, if truthy profile then set_latestProfile profile s else s)).
  { rewrite handleRouting_eq. cbn zeta. rewrite Hgate.
    destruct (negb (truthy routing)); reflexivity. }
  split; [exact Hgate|]. split; [exact Heq|].
  unfold exec. rewrite Heq. cbn [snd].
  destruct (truthy profile); repeat split; reflexivity.
Qed.

(** C8, as the script has it. On a turn that carries a routing signal (any
    truthy value, an empty object included) and a profile with a product
    name or a requested date, and with no suppression condition holding,
    the gate is open and [handleRouting] runs [renderLeadForm]; when the
    browser builds the form's markup the form is in the chat body and
    [leadFormVisible] is true.  On a turn without a routing signal
    [handleRouting] returns before it reads the gate: it records the profile
    and shows nothing. *)
Theorem lead_gate_fires_on_product_or_date (routing profile : JsValue) (s : Session) :
  truthy (hasProductOrDate profile) = true ->
  leadFormVisible s = false -> leadSubmitted s = false ->
  truthy (contactOnFile profile) = false ->
  (truthy routing = true ->
     leadGate routing profile s = true
     /\ handleRouting routing profile s
        = renderLeadForm routing false profile (set_latestProfile profile s)
     /\ (formBuilds (leadFormFor routing profile) = true ->
           completion (handleRouting routing profile) s = Normal tt
           /\ leadFormVisible (exec (handleRouting routing profile) s) = true
           /\ chatBody (exec (handleRouting routing profile) s)
              = removeFirstLeadForm (chatBody s)
                ++ [LeadFormNode (leadFormFor routing profile)]))
  /\ (truthy routing = false ->
        handleRouting routing profile s = (Normal tt, set_latestProfile profile s)
        /\ leadFormVisible (exec (handleRouting routing profile) s) = false
        /\ chatBody (exec (handleRouting routing profile) s) = chatBody s).
Proof.
  intros Hpd Hvis Hsub Hcontact.
  assert (Hp : truthy profile = true).
  { unfold hasProductOrDate in Hpd. rewrite truthy_jsOr in Hpd.
    apply orb_true_iff in Hpd as [H | H];
      apply optMember_truthy_obj in H as [props ->]; reflexivity. }
  assert (Hgate : leadGate routing profile s = true).
  { unfold leadGate. rewrite Hpd, Hvis, Hsub, Hcontact.
    rewrite orb_true_r. reflexivity. }
  split.
  - intros Hr.
    assert (Heq : handleRouting routing profile s
                  = renderLeadForm routing false profile (set_latestProfile profile s)).
    { rewrite handleRouting_eq. cbn zeta. rewrite Hp, Hr, Hgate. cbn [negb].
      rewrite (jsOr_truthy_l profile _ Hp). reflexivity. }
    split; [exact Hgate|]. split; [exact Heq|].
    intros Hbuild. unfold completion, exec. rewrite Heq.
    rewrite (renderLeadForm_eq routing profile false _ Hr Hp)
      by (cbn; rewrite Hvis; reflexivity).
    cbn zeta. rewrite Hbuild. cbn. repeat split; reflexivity.
  - intros Hr.
    assert (Heq : handleRouting routing profile s = (Normal tt, set_latestProfile profile s)).
    { rewrite handleRouting_eq. cbn zeta. rewrite Hp, Hr. reflexivity. }
    split; [exact Heq|]. unfold exec. rewrite Heq. cbn. split; [exact Hvis | reflexivity].
Qed.

(** With a routing signal and an open gate, [handleRouting] shows the form
    built from the routing signal and the profile (the latest profile when
    the turn has none), provided the browser builds its markup. *)
Lemma handleRouting_open_gate (routing profile : JsValue) (s : Session) :
  truthy routing = true ->
  leadGate routing profile s = true ->
  truthy (latestProfile s) = true ->
  formBuilds (leadFormFor routing (jsOr profile (latestProfile s))) = true ->
  completion (handleRouting routing profile) s = Normal tt
  /\ leadFormVisible (exec (handleRouting routing profile) s) = true
  /\ chatBody (exec (handleRouting routing profile) s)
     = removeFirstLeadForm (chatBody s)
       ++ [LeadFormNode (leadFormFor routing (jsOr profile (latestProfile s)))].
Proof.
  intros Hr Hgate Hlatest Hbuild.
  assert (Hvis : leadFormVisible s = false).
  { unfold leadGate in Hgate. destruct (leadFormVisible s); [|reflexivity].
    rewrite !andb_false_r in Hgate. discriminate. }
  unfold completion, exec. rewrite handleRouting_eq. cbn zeta.
  rewrite Hr, Hgate. cbn [negb].
  destruct (truthy profile) eqn:Hp.
  - rewrite (jsOr_truthy_l profile _ Hp) in Hbuild.
    rewrite !(jsOr_truthy_l profile _ Hp).
    rewrite (renderLeadForm_eq routing profile false _ Hr Hp)
      by (cbn; rewrite Hvis; reflexivity).
    cbn zeta. rewrite Hbuild. cbn. repeat split; reflexivity.
  - rewrite (jsOr_falsy_l profile _ Hp) in Hbuild.
    rewrite !(jsOr_falsy_l profile _ Hp).
    rewrite (renderLeadForm_eq routing (latestProfile s) false _ Hr Hlatest)
      by (rewrite Hvis; reflexivity).
    cbn zeta. rewrite Hbuild. cbn. repeat split; reflexivity.
Qed.


(** ** The Transport Decoder *)

Lemma decode_app (st : DecoderState) (a b : list Byte.byte) :
  decode st (a ++ b)
  = (fst (decode (fst (decode st a)) b),
     snd (decode st a) ++ snd (decode (fst (decode st a)) b)).
Proof.
  revert st; induction a as [|x a IH]; intros st; cbn [decode app fst snd].
  - destruct (decode st b); reflexivity.
  - rewrite IH. cbn [fst snd]. now rewrite app_assoc.
Qed.

Lemma split_nl_nonempty (s : jstring) : split_nl s <> [].
Proof.
  destruct s as [|c s]; cbn [split_nl]; [discriminate|].
  destruct (c =? 10); [discriminate|].
  destruct (split_nl s); discriminate.
Qed.

Lemma last_app_nonempty {A} (l l' : list A) (d : A) :
  l' <> [] -> last (l ++ l') d = last l' d.
Proof.
  intros Hne. induction l as [|x l IH]; [reflexivity|].
  cbn [app]. destruct (l ++ l') eqn:E.
  - destruct l; [cbn in E; contradiction | discriminate].
  - cbn [last]. exact IH.
Qed.

(** Splitting a text that arrives in two parts: the complete lines of the
    first part, then the split of its unfinished line followed by the
    second part. *)
Lemma split_nl_app (a b : jstring) :
  split_nl (a ++ b)
  = removelast (split_nl a) ++ split_nl (last (split_nl a) [] ++ b).
Proof.
  induction a as [|c a IH]; [reflexivity|].
  cbn [app split_nl]. destruct (c =? 10) eqn:Ec.
  - rewrite IH.
    pose proof (split_nl_nonempty a) as Hne.
    destruct (split_nl a) as [|l ls] eqn:Ea; [contradiction|]. reflexivity.
  - rewrite IH.
    pose proof (split_nl_nonempty a) as Hne.
    destruct (split_nl a) as [|l ls] eqn:Ea; [contradiction|].
    destruct ls as [|l2 ls].
    + cbn [removelast last app split_nl]. rewrite Ec.
      pose proof (split_nl_nonempty (l ++ b)) as Hne'.
      destruct (split_nl (l ++ b)); [contradiction | reflexivity].
    + reflexivity.
Qed.

Section Consumers.

Context {S : Type}.
Variable consume : JsValue -> S -> S.

(** Two reads in a row are one read of the two chunks joined. *)
Lemma readChunk_app (r : Reader) (a b : list Byte.byte) :
  readChunk JSON_parse consume (readChunk JSON_parse consume r a) b
  = readChunk JSON_parse consume r (a ++ b).
Proof.
  unfold readChunk. cbn [r_decoder r_buffer r_state].
  rewrite decode_app. cbn [fst snd].
  rewrite app_assoc, (split_nl_app (r_buffer r ++ snd (decode (r_decoder r) a))).
  set (la := split_nl (r_buffer r ++ snd (decode (r_decoder r) a))).
  set (lb := split_nl (last la [] ++ snd (decode (fst (decode (r_decoder r) a)) b))).
  assert (Hlb : lb <> []) by apply split_nl_nonempty.
  rewrite (last_app_nonempty _ _ _ Hlb), (removelast_app _ Hlb), fold_left_app.
  reflexivity.
Qed.

Lemma readChunk_fold (chunks : list (list Byte.byte)) (c : list Byte.byte) (r : Reader) :
  fold_left (readChunk JSON_parse consume) (c :: chunks) r
  = readChunk JSON_parse consume r (List.concat (c :: chunks)).
Proof.
  revert c r; induction chunks as [|c' chunks IH]; intros c r.
  - cbn [fold_left List.concat]. now rewrite app_nil_r.
  - cbn [fold_left]. cbn [fold_left] in IH. rewrite IH, readChunk_app. reflexivity.
Qed.

(** However the bytes are cut into reads, the loop ends with the same
    decoder state, the same unfinished line and the same consumer state as
    after a single read of all the bytes. *)
Lemma readChunks_concat (chunks : list (list Byte.byte)) (st : S) :
  readChunks JSON_parse consume chunks st
  = readChunks JSON_parse consume [List.concat chunks] st.
Proof.
  unfold readChunks. destruct chunks as [|c chunks].
  - reflexivity.
  - rewrite readChunk_fold. reflexivity.
Qed.

End Consumers.

(** The events are those of the complete lines of the decoded text. *)
Lemma streamEvents_lineEvents (chunks : list (list Byte.byte)) :
  streamEvents JSON_parse chunks = lineEvents JSON_parse (streamText chunks).
Proof.
  unfold streamEvents. rewrite readChunks_concat. reflexivity.
Qed.

Lemma readStream_concat (chunks : list (list Byte.byte)) (fin : StreamEnd) (s : Session) :
  readStream chunks fin s = readStream [List.concat chunks] fin s.
Proof. unfold readStream. rewrite readChunks_concat. reflexivity. Qed.

Lemma decode_all_concat (chunks : list (list Byte.byte)) :
  decode_all (List.concat [List.concat chunks]) = decode_all (List.concat chunks).
Proof. cbn [List.concat]. now rewrite app_nil_r. Qed.

Lemma requestReply_concat (message : jstring) (ok : bool)
  (chunks : list (list Byte.byte)) (fin : StreamEnd) (s : Session) :
  requestReply message (HttpResponse ok (Some (chunks, fin))) s
  = requestReply message (HttpResponse ok (Some ([List.concat chunks], fin))) s.
Proof.
  unfold requestReply, responseJson, bind, get, logFetch, modify.
  destruct ok; cbn [negb]; [|reflexivity].
  destruct build.
  - apply readStream_concat.
  - rewrite decode_all_concat. reflexivity.
Qed.

(** C2. Chunking invariance: however the bytes of a response body are cut
    into reads (in the middle of a line, in the middle of a UTF-8 sequence,
    into empty reads), the decoder hands over the same events in the same
    order as for one read of all the bytes; the read loop ends in the same
    state for every consumer of the events, and [sendMessage] leaves the
    same session. *)
Theorem decoder_chunking_invariance (chunks : list (list Byte.byte)) :
  streamEvents JSON_parse chunks = streamEvents JSON_parse [List.concat chunks]
  /\ (forall (S : Type) (consume : JsValue -> S -> S) (st : S),
        readChunks JSON_parse consume chunks st
        = readChunks JSON_parse consume [List.concat chunks] st)
  /\ (forall (ok : bool) (fin : StreamEnd) (s : Session),
        sendMessage (HttpResponse ok (Some (chunks, fin))) s
        = sendMessage (HttpResponse ok (Some ([List.concat chunks], fin))) s).
Proof.
  split; [|split].
  - unfold streamEvents. now rewrite readChunks_concat.
  - intros S consume st. apply readChunks_concat.
  - intros ok fin s.
    unfold sendMessage, bind, get, tryFinally, tryCatch.
    destruct (chatEnded s); [reflexivity|].
    destruct unconfigured; [reflexivity|].
    destruct (negb (nonEmpty (trim (chatInput_value s)))); [reflexivity|].
    destruct (beginSend (trim (chatInput_value s)) s) as [[[]|] s1]; [|reflexivity].
    rewrite requestReply_concat. reflexivity.
Qed.

Lemma lineEvents_fold (text : jstring) :
  lineEvents JSON_parse text
  = fold_left (processLine JSON_parse collect) (removelast (split_nl text)) [].
Proof. reflexivity. Qed.

Lemma collect_lines_acc (lines : list jstring) (acc : list JsValue) :
  fold_left (processLine JSON_parse collect) lines acc
  = acc ++ fold_left (processLine JSON_parse collect) lines [].
Proof.
  revert acc; induction lines as [|l lines IH]; intros acc; cbn [fold_left].
  - now rewrite app_nil_r.
  - rewrite IH, (IH (processLine JSON_parse collect [] l)).
    unfold processLine, collect. destruct (isBlank l).
    + reflexivity.
    + destruct (JSON_parse l); cbn [app]; [now rewrite <- app_assoc | reflexivity].
Qed.

Lemma split_nl_line (l b : jstring) :
  ~ In 10 l -> split_nl (l ++ 10 :: b) = l :: split_nl b.
Proof.
  induction l as [|c l IH]; intros Hnl; cbn [app split_nl].
  - reflexivity.
  - destruct (c =? 10) eqn:Ec.
    + apply Z.eqb_eq in Ec. exfalso. apply Hnl. left. exact Ec.
    + rewrite IH; [reflexivity|]. intros Hin. apply Hnl. right. exact Hin.
Qed.

Lemma split_nl_ends_newline (p : jstring) :
  exists l ls, split_nl (p ++ [10]) = (l :: ls) ++ [[]].
Proof.
  induction p as [|c p (l & ls & IH)].
  - exists [], []. reflexivity.
  - cbn [app split_nl]. rewrite IH. destruct (c =? 10).
    + exists [], (l :: ls). reflexivity.
    + exists (c :: l), ls. reflexivity.
Qed.

(** A text that is empty or ends in a newline has no unfinished line. *)
Lemma split_nl_aligned (pre : jstring) :
  pre = [] \/ (exists p, pre = p ++ [10]) -> last (split_nl pre) [] = [].
Proof.
  intros [-> | [p ->]]; [reflexivity|].
  destruct (split_nl_ends_newline p) as (l & ls & ->).
  apply last_last.
Qed.

(** Dropping one complete line that yields no event leaves the events of
    the lines before it and of the lines after it. *)
Lemma lineEvents_skip_line (pre bad post : jstring) :
  pre = [] \/ (exists p, pre = p ++ [10]) ->
  ~ In 10 bad ->
  processLine JSON_parse collect [] bad = [] ->
  lineEvents JSON_parse (pre ++ bad ++ 10 :: post)
  = lineEvents JSON_parse pre ++ lineEvents JSON_parse post.
Proof.
  intros Hal Hnl Hbad.
  rewrite !lineEvents_fold.
  rewrite split_nl_app, (split_nl_aligned pre Hal). cbn [app].
  rewrite (split_nl_line bad post Hnl).
  rewrite removelast_app by discriminate.
  pose proof (split_nl_nonempty post) as Hne.
  change (bad :: split_nl post) with ([bad] ++ split_nl post).
  rewrite (removelast_app _ Hne).
  rewrite !fold_left_app.
  rewrite (collect_lines_acc (removelast (split_nl post))).
  rewrite (collect_lines_acc [bad]). cbn [fold_left].
  rewrite Hbad, app_nil_r. reflexivity.
Qed.

(** C3. Decode-failure isolation: a complete line of the stream that
    [JSON.parse] rejects yields no event, and the events of the stream are
    exactly the events of the lines before it followed by the events of the
    lines after it, as if the text after the bad line were decoded on its
    own: nothing is dropped, altered or reordered. *)
Theorem decode_failure_isolation (chunks : list (list Byte.byte))
  (pre bad post : jstring) :
  streamText chunks = pre ++ bad ++ 10 :: post ->
  pre = [] \/ (exists p, pre = p ++ [10]) ->
  ~ In 10 bad ->
  JSON_parse bad = None ->
  processLine JSON_parse collect [] bad = []
  /\ streamEvents JSON_parse chunks
     = lineEvents JSON_parse pre ++ lineEvents JSON_parse post.
Proof.
  intros Htext Hal Hnl Hbad.
  assert (Hline : processLine JSON_parse collect [] bad = []).
  { unfold processLine. rewrite Hbad. destruct (isBlank bad); reflexivity. }
  split; [exact Hline|].
  rewrite streamEvents_lineEvents, Htext.
  apply lineEvents_skip_line; assumption.
Qed.

(** ** The Session Controller *)

Lemma preserves_ret {A} (P : Session -> Prop) (a : A) : preserves P (ret a).
Proof. intros s H; exact H. Qed.

Lemma preserves_throw {A} (P : Session -> Prop) : preserves P (@throw A).
Proof. intros s H; exact H. Qed.

Lemma preserves_get (P : Session -> Prop) : preserves P get.
Proof. intros s H; exact H. Qed.

Lemma preserves_liftE {A} (P : Session -> Prop) (o : option A) : preserves P (liftE o).
Proof. destruct o; intros s H; exact H. Qed.

Lemma preserves_modify (P : Session -> Prop) (f : Session -> Session) :
  (forall s, P s -> P (f s)) -> preserves P (modify f).
Proof. intros Hf s H; apply Hf, H. Qed.

Lemma preserves_bind {A B} (P : Session -> Prop) (m : Eff A) (k : A -> Eff B) :
  preserves P m -> (forall a, preserves P (k a)) -> preserves P (bind m k).
Proof.
  intros Hm Hk s H. unfold bind. specialize (Hm s H).
  destruct (m s) as [[a|] s']; cbn [snd] in *; [apply Hk, Hm | exact Hm].
Qed.

Lemma preserves_tryCatch (P : Session -> Prop) (body handler : Eff unit) :
  preserves P body -> preserves P handler -> preserves P (tryCatch body handler).
Proof.
  intros Hb Hh s H. unfold tryCatch. specialize (Hb s H).
  destruct (body s) as [[a|] s']; cbn [snd] in *; [exact Hb | apply Hh, Hb].
Qed.

Lemma preserves_tryFinally (P : Session -> Prop) (body cleanup : Eff unit) :
  preserves P body -> preserves P cleanup -> preserves P (tryFinally body cleanup).
Proof.
  intros Hb Hc s H. unfold tryFinally. specialize (Hb s H).
  destruct (body s) as [c s']; cbn [snd] in *. apply Hc, Hb.
Qed.

(** Decomposes a goal [preserves P m] along the structure of [m]; what is
    left are the updates of the session under [P]. *)
Ltac preserve_step :=
  lazymatch goal with
  | |- preserves _ (ret _) => apply preserves_ret
  | |- preserves _ throw => apply preserves_throw
  | |- preserves _ get => apply preserves_get
  | |- preserves _ (liftE _) => apply preserves_liftE
  | |- preserves _ (bind _ _) => apply preserves_bind; [| intros ?]
  | |- preserves _ (tryCatch _ _) => apply preserves_tryCatch
  | |- preserves _ (tryFinally _ _) => apply preserves_tryFinally
  | |- preserves _ (modify _) => apply preserves_modify
  | |- preserves _ (if ?c then _ else _) => destruct c
  | |- preserves _ (match ?x with _ => _ end) => destruct x
  end.

Ltac preserve := repeat preserve_step.

(** A property of the fields a function does not write. *)
Ltac frame := let s := fresh "s" in let H := fresh "H" in intros s H; cbn; exact H.

(** C7. Send is a no-op once the chat has ended: with [chatEnded] true,
    [sendMessage] returns at its first line, whatever the network would
    answer; the session is the same in every field, so no transcript
    entry is appended and no request is logged. *)
Theorem send_is_noop_once_ended (response : ChatResponse) (s : Session) :
  chatEnded s = true ->
  sendMessage response s = (Normal tt, s)
  /\ step s (ASend response) = s
  /\ chatBody (exec (sendMessage response) s) = chatBody s
  /\ fetchLog (exec (sendMessage response) s) = fetchLog s.
Proof.
  intros Hended.
  assert (Heq : sendMessage response s = (Normal tt, s)).
  { unfold sendMessage, bind, get. rewrite Hended. reflexivity. }
  unfold step, handler, exec. rewrite Heq. repeat split; reflexivity.
Qed.

Ltac unfold_handlers :=
  unfold beginSend, appendMessage, showTyping, renderSuggestions, openChat,
    logFetch, appendChild, saveConversation, scheduleEnd, endChatSession,
    handleRating, handleRouting, updateProfilePanel, renderLeadForm,
    dismissLeadForm.

Lemma appendMessage_apology (s : Session) :
  appendMessage assistant (JStr apology) false s
  = (Normal tt, set_chatBody (chatBody s ++ [apologyBubble]) s).
Proof.
  unfold appendMessage, apologyBubble. destruct build.
  - replace (renderAssistantMessage (JStr apology) false)
      with (Some (Bubble assistant (InnerHTML (JStr apology))))
      by (vm_compute; reflexivity).
    reflexivity.
  - reflexivity.
Qed.

Lemma beginSend_normal (message : jstring) (s : Session) :
  fst (beginSend message s) = Normal tt.
Proof.
  unfold beginSend, appendMessage, showTyping, appendChild, bind, modify, get, ret.
  destruct build; cbn; [|reflexivity].
  destruct (typingBubble s); reflexivity.
Qed.

Lemma showTyping_false_hides (s : Session) :
  fst (showTyping false s) = Normal tt /\ typingShown (snd (showTyping false s)) = false.
Proof.
  unfold showTyping, appendChild, bind, modify, get, ret.
  destruct build; cbn; [|split; reflexivity].
  destruct (typingBubble s); split; reflexivity.
Qed.

(** The parts of [sendMessage] around the handling of a reply leave the
    conversation id, the profile, the lead state and the ended flag alone. *)
Lemma frame_around_reply (P : Session -> Prop) (message : jstring) :
  (forall s b, P s -> P (set_chatBody b s)) ->
  (forall s v, P s -> P (set_chatInput_value v s)) ->
  (forall s b, P s -> P (set_typingBubble b s)) ->
  (forall s b, P s -> P (set_typingShown b s)) ->
  (forall s l, P s -> P (set_fetchLog l s)) ->
  preserves P (beginSend message)
  /\ (forall call, preserves P (logFetch call))
  /\ (forall role text html, preserves P (appendMessage role text html))
  /\ (forall show, preserves P (showTyping show)).
Proof.
  intros Hbody Hinput Hbubble Hshown Hlog.
  repeat split; intros; unfold_handlers; preserve; intros s0 H0;
    auto using Hbody, Hinput, Hbubble, Hshown, Hlog.
Qed.

Lemma requestReply_failure (message : jstring) (response : ChatResponse) (s : Session) :
  requestFailure response = true ->
  exists call, requestReply message response s = (Thrown, set_fetchLog (fetchLog s ++ [call]) s).
Proof.
  intros Hf. unfold requestReply, bind, get, logFetch, modify.
  eexists. destruct response as [|ok body]; [reflexivity|].
  cbn in Hf. rewrite Hf. reflexivity.
Qed.

Lemma showTyping_false_eq (s : Session) :
  build = Plain \/ typingBubble s = true ->
  showTyping false s = (Normal tt, set_typingShown false s).
Proof.
  intros [Hb | Ht]; unfold showTyping, appendChild, bind, modify, get, ret.
  - rewrite Hb. reflexivity.
  - destruct build; [rewrite Ht|]; reflexivity.
Qed.

Lemma beginSend_bubble_ready (message : jstring) (s : Session) :
  build = Plain \/ typingBubble (snd (beginSend message s)) = true.
Proof.
  destruct build eqn:Hb; [right | left; reflexivity].
  unfold beginSend, appendMessage, showTyping, appendChild, bind, modify, get, ret.
  rewrite Hb; cbn.
  destruct (typingBubble s) eqn:E; cbn; [exact E | reflexivity].
Qed.

(** Past its guards, [sendMessage] is the guarded request run on the
    session [beginSend] leaves. *)
Lemma sendMessage_proceeds (response : ChatResponse) (s : Session) :
  chatEnded s = false -> unconfigured = false ->
  nonEmpty (trim (chatInput_value s)) = true ->
  sendMessage response s
  = tryFinally
      (tryCatch (requestReply (trim (chatInput_value s)) response)
                (appendMessage assistant (JStr apology) false))
      (showTyping false)
      (snd (beginSend (trim (chatInput_value s)) s)).
Proof.
  intros He Hc Hm. unfold sendMessage, bind, get. rewrite He, Hc, Hm. cbn [negb].
  pose proof (beginSend_normal (trim (chatInput_value s)) s) as Hn.
  destruct (beginSend (trim (chatInput_value s)) s) as [[[]|] s1];
    cbn [fst snd] in *; [reflexivity | discriminate].
Qed.

Lemma sameCore_refl (s : Session) : sameCore s s.
Proof. repeat split. Qed.

Lemma sameCore_beginSend (message : jstring) (s : Session) :
  sameCore s (snd (beginSend message s)).
Proof.
  destruct (frame_around_reply (sameCore s) message) as (H & _);
    try (intros; assumption).
  apply H, sameCore_refl.
Qed.

Section ReadInvariant.

Context {S : Type}.
Variable consume : JsValue -> S -> S.
Variable P : S -> Prop.
Hypothesis consume_keeps : forall event st, P st -> P (consume event st).

Lemma processLine_invariant (st : S) (line : jstring) :
  P st -> P (processLine JSON_parse consume st line).
Proof.
  intros H. unfold processLine. destruct (isBlank line); [exact H|].
  destruct (JSON_parse line); [apply consume_keeps, H | exact H].
Qed.

Lemma readChunks_invariant (chunks : list (list Byte.byte)) (st : S) :
  P st -> P (r_state (readChunks JSON_parse consume chunks st)).
Proof.
  unfold readChunks. intros H.
  assert (G : forall r, P (r_state r) ->
                P (r_state (fold_left (readChunk JSON_parse consume) chunks r))).
  { induction chunks as [|c chunks IH]; intros r Hr; [exact Hr|].
    cbn [fold_left]. apply IH. unfold readChunk. cbn [r_state].
    generalize (removelast (split_nl (r_buffer r ++ snd (decode (r_decoder r) c)))).
    intros lines. revert Hr. generalize (r_state r).
    induction lines as [|l lines IHl]; intros st0 H0; [exact H0|].
    cbn [fold_left]. apply IHl, processLine_invariant, H0. }
  apply G. exact H.
Qed.

End ReadInvariant.

Lemma readStream_preserves (P : Session -> Prop) (chunks : list (list Byte.byte))
  (fin : StreamEnd) :
  (forall event, preserves P (handleEvent event)) ->
  preserves P (readStream chunks fin).
Proof.
  intros Hev s Hs.
  assert (G : P (r_state (readChunks JSON_parse onEvent chunks s))).
  { apply (readChunks_invariant onEvent P); [|exact Hs].
    intros event st Hst. unfold onEvent, exec.
    apply (preserves_tryCatch P); [apply Hev | apply preserves_ret | exact Hst]. }
  unfold readStream. destruct fin; exact G.
Qed.

Lemma handleEvent_typingBubble (event : JsValue) :
  preserves (fun x => typingBubble x = true) (handleEvent event).
Proof.
  unfold handleEvent, handleResult. unfold_handlers. preserve; frame.
Qed.

Lemma readStream_typingBubble (chunks : list (list Byte.byte)) (fin : StreamEnd)
  (s : Session) :
  typingBubble s = true -> typingBubble (snd (readStream chunks fin s)) = true.
Proof.
  apply (readStream_preserves (fun x => typingBubble x = true)).
  apply handleEvent_typingBubble.
Qed.

(** C4. Failure-path atomicity of send.  For a send that passes its guards:
    - when the request fails (the network rejects it or the status is not a
      success), [sendMessage] completes normally, the chat body is the one
      left by the optimistic append followed by the fixed apology, and the
      conversation id, the profile, the lead flags, the pending lead meta
      and the ended flag are those from before the send;
    - when the body of a streaming reply breaks off in the middle, the
      session is the one the same chunks leave when the stream ends
      normally, with the apology appended: the failure path itself changes
      none of those fields;
    - the typing bubble is hidden at the end, whatever the response. *)
Theorem send_failure_is_atomic (s : Session) :
  chatEnded s = false -> unconfigured = false ->
  nonEmpty (trim (chatInput_value s)) = true ->
  (forall response, requestFailure response = true ->
     completion (sendMessage response) s = Normal tt
     /\ chatBody (exec (sendMessage response) s)
        = chatBody (exec (beginSend (trim (chatInput_value s))) s) ++ [apologyBubble]
     /\ sameCore s (exec (sendMessage response) s)
     /\ typingShown (exec (sendMessage response) s) = false)
  /\ (forall chunks, build = Streaming ->
        chatBody (exec (sendMessage (HttpResponse true (Some (chunks, StreamAborted)))) s)
        = chatBody (exec (sendMessage (HttpResponse true (Some (chunks, StreamDone)))) s)
          ++ [apologyBubble]
        /\ sameCore (exec (sendMessage (HttpResponse true (Some (chunks, StreamDone)))) s)
                    (exec (sendMessage (HttpResponse true (Some (chunks, StreamAborted)))) s)
        /\ typingShown (exec (sendMessage (HttpResponse true (Some (chunks, StreamAborted)))) s)
           = false)
  /\ (forall response, typingShown (exec (sendMessage response) s) = false).
Proof.
  intros He Hc Hm.
  set (message := trim (chatInput_value s)).
  pose proof (beginSend_bubble_ready message s) as Hready.
  pose proof (sameCore_beginSend message s) as Hcore.
  split; [|split].
  - intros response Hf.
    unfold completion, exec. rewrite (sendMessage_proceeds response s He Hc Hm).
    fold message. unfold tryFinally, tryCatch.
    destruct (requestReply_failure message response (snd (beginSend message s)) Hf)
      as [call ->].
    rewrite appendMessage_apology.
    rewrite showTyping_false_eq by (destruct Hready as [H | H]; [left | right]; exact H).
    cbn. repeat split; try reflexivity; apply Hcore.
  - intros chunks Hb.
    unfold exec. rewrite !(sendMessage_proceeds _ s He Hc Hm). fold message.
    unfold tryFinally, tryCatch, requestReply, bind, get, logFetch, modify.
    cbn [negb]. rewrite Hb.
    set (s2 := set_fetchLog _ _).
    assert (Ht : typingBubble s2 = true).
    { destruct Hready as [H | H]; [congruence | exact H]. }
    pose proof (readStream_typingBubble chunks StreamDone s2 Ht) as Ht3.
    unfold readStream in *. cbn [snd] in Ht3.
    set (s3 := r_state (readChunks JSON_parse onEvent chunks s2)) in *.
    rewrite appendMessage_apology.
    rewrite !showTyping_false_eq by (right; first [exact Ht3 | exact Ht3]).
    cbn. repeat split; reflexivity.
  - intros response. unfold exec.
    rewrite (sendMessage_proceeds response s He Hc Hm). unfold tryFinally.
    destruct (tryCatch _ _ _) as [c s']. cbn [snd].
    apply showTyping_false_hides.
Qed.

(** The read loop is a fold of the consumer over the events of the stream. *)
Lemma readChunks_events {S : Type} (consume : JsValue -> S -> S)
  (chunks : list (list Byte.byte)) (st : S) :
  r_state (readChunks JSON_parse consume chunks st)
  = fold_left (fun st event => consume event st) (streamEvents JSON_parse chunks) st.
Proof.
  unfold streamEvents. rewrite !(readChunks_concat _ chunks).
  unfold readChunks. cbn [fold_left]. unfold readChunk. cbn [r_state r_buffer r_decoder].
  generalize (removelast (split_nl ([] ++ snd (decode decoder_init (List.concat chunks))))).
  intros lines.
  assert (G : forall acc,
             fold_left (processLine JSON_parse consume) lines
               (fold_left (fun st event => consume event st) acc st)
             = fold_left (fun st event => consume event st)
                 (fold_left (processLine JSON_parse collect) lines acc) st).
  { induction lines as [|l lines IH]; intros acc; [reflexivity|].
    cbn [fold_left]. rewrite <- IH. f_equal.
    unfold processLine, collect. destruct (isBlank l); [reflexivity|].
    destruct (JSON_parse l); [|reflexivity].
    rewrite fold_left_app. reflexivity. }
  exact (G []).
Qed.

Lemma makeConversationId_nonempty (src : IdSource) :
  validIdSource src -> isNonEmptyId (JStr (makeConversationId src)) = true.
Proof.
  destruct src as [uuid | r]; cbn.
  - intros H. destruct uuid; [discriminate | reflexivity].
  - reflexivity.
Qed.

Lemma idInvariant_frame (P := idInvariant) :
  (forall role text html, preserves P (appendMessage role text html))
  /\ (forall show, preserves P (showTyping show))
  /\ (forall routing profile, preserves P (handleRouting routing profile))
  /\ (forall routing force profile, preserves P (renderLeadForm routing force profile))
  /\ preserves P openChat
  /\ preserves P dismissLeadForm
  /\ preserves P endChatSession
  /\ preserves P scheduleEnd.
Proof.
  repeat split; intros; unfold_handlers; preserve; frame.
Qed.

Lemma preserves_bind_some {A B} (P : Session -> Prop) (a : A) (k : A -> Eff B) :
  preserves P (k a) -> preserves P (bind (liftE (Some a)) k).
Proof. intros H s Hs. apply H, Hs. Qed.

Lemma handleResult_id (data : JsValue) :
  dataIdOk data -> preserves idInvariant (handleResult data).
Proof.
  intros Hok.
  destruct idInvariant_frame as (Happ & _ & Hroute & _ & _ & _ & _ & Hsched).
  unfold handleResult, dataIdOk in *.
  destruct (member data k_conversation_id) as [id|].
  - apply preserves_bind_some.
    apply preserves_bind; [intros s _; exact Hok|]. intros _.
    preserve; first [apply Happ | apply Hroute | apply Hsched].
  - intros s H. exact H.
Qed.

Lemma onEvent_id (event : JsValue) (s : Session) :
  eventIdOk event -> idInvariant s -> idInvariant (onEvent event s).
Proof.
  intros Hok. unfold onEvent, exec.
  apply (preserves_tryCatch idInvariant); [|apply preserves_ret].
  unfold handleEvent, eventIdOk in *.
  destruct (member event k_type) as [type|]; [|intros s0 H; exact H].
  apply preserves_bind_some.
  destruct (strictEqStr type (lit "status")); [apply preserves_ret|].
  destruct (strictEqStr type (lit "result")); [|apply preserves_ret].
  destruct (member event k_data) as [data|]; [|intros s0 H; exact H].
  apply preserves_bind_some, handleResult_id, Hok.
Qed.

Lemma requestReply_id (message : jstring) (response : ChatResponse) :
  responseIdsOk response -> preserves idInvariant (requestReply message response).
Proof.
  intros Hok. unfold requestReply.
  apply preserves_bind; [apply preserves_get|]. intros s0.
  apply preserves_bind; [unfold logFetch; apply preserves_modify; frame|]. intros _.
  destruct response as [|ok body]; [apply preserves_throw|].
  destruct (negb ok); [apply preserves_throw|].
  unfold responseIdsOk in Hok. destruct build.
  - destruct body as [[chunks fin]|]; [|apply preserves_throw].
    intros s Hs. unfold readStream.
    assert (G : idInvariant (r_state (readChunks JSON_parse onEvent chunks s))).
    { rewrite readChunks_events. revert s Hs.
      induction Hok as [|event events Hev _ IH]; intros s Hs; [exact Hs|].
      cbn [fold_left]. apply IH, onEvent_id; assumption. }
    destruct fin; exact G.
  - destruct (responseJson body) as [data|]; [|apply preserves_throw].
    apply preserves_bind_some, handleResult_id, Hok.
Qed.

Lemma sendMessage_id (response : ChatResponse) :
  responseIdsOk response -> preserves idInvariant (sendMessage response).
Proof.
  intros Hok.
  destruct idInvariant_frame as (Happ & Htyping & _).
  unfold sendMessage, beginSend.
  preserve; first [apply Happ | apply Htyping | apply requestReply_id, Hok | frame].
Qed.

Lemma handler_id (a : Action) :
  actionIdsOk a -> preserves idInvariant (handler a).
Proof.
  intros Hok.
  destruct idInvariant_frame
    as (Happ & Htyping & Hroute & Hform & Hopen & Hdismiss & Hend & Hsched).
  destruct a; cbn [handler actionIdsOk] in *.
  - apply preserves_modify; frame.
  - apply sendMessage_id, Hok.
  - preserve; first [apply sendMessage_id, Hok | frame].
  - unfold resetChat, saveConversation.
    preserve; try apply Hopen; try frame.
    intros s _. apply makeConversationId_nonempty, Hok.
  - apply Hopen.
  - preserve. apply Hdismiss.
  - unfold handleLeadSubmit, logFetch.
    preserve; first [apply Happ | frame].
  - unfold specialistClick. preserve; first [apply Hopen | apply Hform].
  - unfold handleRating. preserve; frame.
  - preserve; first [apply Hend | frame].
Qed.

(** C9, as the script has it.  The conversation id is a non-empty string
    when the script loads and after every reset, and [saveConversation]
    stores whatever id a reply carries, unchecked.  So the id is a
    non-empty string in every session reached by actions whose replies all
    carry a non-empty string as conversation id, and whose resets draw
    their id from a well-formed source. *)
Theorem conversation_id_invariant (src : IdSource) (actions : list Action) :
  validIdSource src ->
  Forall actionIdsOk actions ->
  isNonEmptyId (conversationId (run (initialSession src) actions)) = true.
Proof.
  intros Hsrc Hok.
  assert (Hinit : idInvariant (initialSession src))
    by (apply makeConversationId_nonempty, Hsrc).
  unfold run. revert Hinit. generalize (initialSession src).
  induction Hok as [|a actions Ha _ IH]; intros s Hs; [exact Hs|].
  cbn [fold_left]. apply IH. unfold step, exec. apply handler_id; assumption.
Qed.

(** ** The Message Renderer *)

Lemma matchCI_prefix (pat rest : jstring) :
  forallb (fun c => toLowerAscii c =? c) pat = true ->
  matchCI pat (pat ++ rest) = Some rest.
Proof.
  induction pat as [|p pat IH]; intros H; cbn [matchCI app]; [now destruct rest|].
  cbn [forallb] in H. apply andb_true_iff in H as [Hp Hpat].
  rewrite Hp. apply IH, Hpat.
Qed.

Lemma span_stop (p : Z -> bool) (a : jstring) (c : Z) (rest : jstring) :
  forallb p a = true -> p c = false -> span p (a ++ c :: rest) = (a, c :: rest).
Proof.
  intros Ha Hc. induction a as [|x a IH]; cbn [app span].
  - now rewrite Hc.
  - cbn [forallb] in Ha. apply andb_true_iff in Ha as [Hx Ha].
    rewrite Hx, (IH Ha). reflexivity.
Qed.

Lemma findClose_here (closer s rest : jstring) :
  matchCI closer s = Some rest -> findClose closer s = Some ([], rest).
Proof. intros H. destruct s; cbn [findClose]; rewrite H; reflexivity. Qed.

Lemma trim_nonEmpty (s : jstring) : nonEmpty (trim s) = true -> nonEmpty s = true.
Proof. destruct s; [discriminate | reflexivity]. Qed.

(** The image expression matches a simple tag at once, whatever follows. *)
Lemma matchImgTag_simpleTag (t : Z * jstring) (rest : jstring) :
  validSimpleTag t ->
  matchImgTag (simpleTag t ++ rest)
  = Some (mkImgMatch (Some (snd t)) None [] rest).
Proof.
  destruct t as [d src]. intros (Hd & Hq & Hne). cbn [fst snd] in *.
  unfold matchImgTag, simpleTag. cbn [fst snd].
  rewrite <- !app_assoc.
  rewrite matchCI_prefix by reflexivity.
  cbn [app].
  replace ((49 <=? d) && (d <=? 53)) with true
    by (symmetry; apply andb_true_iff; split; apply Z.leb_le; lia).
  assert (Hsrc : matchAttr s_src false
                   (s_src_attr ++ src ++ 34 :: 62 :: s_image_close ++ d :: 62 :: rest)
                 = Some (src, 62 :: s_image_close ++ d :: 62 :: rest)).
  { unfold matchAttr, s_src_attr. cbn [app span isWhiteSpace].
    replace (isWhiteSpace 32) with true by reflexivity.
    replace (isWhiteSpace 115) with false by reflexivity.
    cbn [fst snd nonEmpty].
    change (s_src ++ [61; 34]) with [115; 114; 99; 61; 34].
    change (115 :: 114 :: 99 :: 61 :: 34 :: src ++ 34 :: 62 :: s_image_close ++ d :: 62 :: rest)
      with ([115; 114; 99; 61; 34] ++ (src ++ 34 :: 62 :: s_image_close ++ d :: 62 :: rest)).
    rewrite matchCI_prefix by reflexivity.
    rewrite (span_stop notQuote src 34 _ Hq) by reflexivity.
    cbn [fst snd]. rewrite (trim_nonEmpty src Hne). reflexivity. }
  rewrite Hsrc. cbn [fst snd].
  assert (Halt : matchAttr s_alt true (62 :: s_image_close ++ d :: 62 :: rest) = None).
  { unfold matchAttr. cbn [span]. replace (isWhiteSpace 62) with false by reflexivity.
    reflexivity. }
  rewrite Halt. cbn [fst snd span].
  replace (isWhiteSpace 62) with false by reflexivity. cbn [snd].
  change (s_image_close ++ d :: 62 :: rest) with (s_image_close ++ [d; 62] ++ rest).
  rewrite app_assoc.
  rewrite (findClose_here _ _ rest); [reflexivity|].
  apply matchCI_prefix.
  rewrite forallb_app. apply andb_true_iff. split; [reflexivity|].
  cbn [forallb]. unfold toLowerAscii.
  replace ((65 <=? d) && (d <=? 90)) with false
    by (symmetry; apply andb_false_iff; left; apply Z.leb_gt; lia).
  rewrite Z.eqb_refl. reflexivity.
Qed.

Lemma imgTagReplace_skip (a rest : jstring) :
  imgTagReplace (a ++ rest) (List.length a) = imgTagReplace rest 0.
Proof.
  induction a as [|c a IH]; cbn [app List.length].
  - destruct rest; reflexivity.
  - exact IH.
Qed.

Lemma imgTagMatches_skip (a rest : jstring) :
  imgTagMatches (a ++ rest) (List.length a) = imgTagMatches rest 0.
Proof.
  induction a as [|c a IH]; cbn [app List.length].
  - destruct rest; reflexivity.
  - exact IH.
Qed.

Lemma simpleTag_cons (t : Z * jstring) :
  exists tail, simpleTag t = 60 :: tail.
Proof. unfold simpleTag. cbn. eauto. Qed.

Lemma imageOfMatch_simpleTag (t : Z * jstring) (rest : jstring) :
  validSimpleTag t ->
  imageOfMatch (mkImgMatch (Some (snd t)) None [] rest) = [imageOfSimpleTag t].
Proof.
  intros (_ & _ & Hne). unfold imageOfMatch, imageOfSimpleTag.
  cbn [im_srcAttr im_altAttr im_inner captureOr].
  pose proof (trim_nonEmpty _ Hne) as Hs.
  destruct (snd t) as [|c v]; [discriminate|]. rewrite Hne. reflexivity.
Qed.

(** A text made of simple tags only: every tag is matched, replaced by the
    empty string, and its image is pushed. *)
Lemma imgTagReplace_simpleTags (tags : list (Z * jstring)) :
  Forall validSimpleTag tags ->
  imgTagReplace (List.concat (map simpleTag tags)) 0 = ([], map imageOfSimpleTag tags)
  /\ imgTagMatches (List.concat (map simpleTag tags)) 0 = map simpleTag tags.
Proof.
  induction 1 as [|t tags Ht _ [IHr IHm]]; [split; reflexivity|].
  cbn [map List.concat].
  destruct (simpleTag_cons t) as [tail Htail].
  pose proof (matchImgTag_simpleTag t (List.concat (map simpleTag tags)) Ht) as Hm.
  rewrite Htail in *. cbn [app] in *.
  cbn [imgTagReplace imgTagMatches]. rewrite Hm. cbn [im_rest].
  assert (Hlen : (List.length (tail ++ List.concat (map simpleTag tags))
                  - List.length (List.concat (map simpleTag tags)))%nat
                 = List.length tail)
    by (rewrite length_app; lia).
  rewrite Hlen, imgTagReplace_skip, imgTagMatches_skip, IHr, IHm.
  rewrite (imageOfMatch_simpleTag t _ Ht). cbn [fst snd app].
  split; [reflexivity|]. f_equal.
  cbn [List.length].
  replace (Datatypes.S (List.length (tail ++ List.concat (map simpleTag tags)))
           - List.length (List.concat (map simpleTag tags)))%nat
    with (List.length (60 :: tail))
    by (cbn [List.length]; rewrite length_app; lia).
  change (60 :: tail ++ List.concat (map simpleTag tags))
    with ((60 :: tail) ++ List.concat (map simpleTag tags)).
  rewrite firstn_app, firstn_all, Nat.sub_diag. cbn [firstn]. apply app_nil_r.
Qed.

(** *** Every text: what a match leaves behind is shorter than the text *)

Lemma matchCI_length (pat s rest : jstring) :
  matchCI pat s = Some rest -> (List.length rest + List.length pat = List.length s)%nat.
Proof.
  revert s; induction pat as [|p pat IH]; intros s H; cbn [matchCI] in H.
  - destruct s; inversion H; cbn [List.length]; lia.
  - destruct s as [|c s]; [discriminate|].
    destruct (toLowerAscii c =? p); [|discriminate].
    apply IH in H. cbn [List.length]. lia.
Qed.

Lemma span_length (p : Z -> bool) (s : jstring) :
  (List.length (snd (span p s)) <= List.length s)%nat.
Proof.
  induction s as [|c s IH]; cbn [span]; [reflexivity|].
  destruct (p c); cbn [snd List.length]; lia.
Qed.

Lemma matchAttr_length (name : jstring) (allowEmpty : bool) (s v rest : jstring) :
  matchAttr name allowEmpty s = Some (v, rest) ->
  (List.length rest <= List.length s)%nat.
Proof.
  unfold matchAttr. intros H.
  destruct (nonEmpty (fst (span isWhiteSpace s))); [|discriminate].
  destruct (matchCI (name ++ [61; 34]) (snd (span isWhiteSpace s))) as [r2|] eqn:E;
    [|discriminate].
  apply matchCI_length in E.
  pose proof (span_length isWhiteSpace s) as H1.
  pose proof (span_length notQuote r2) as H2.
  destruct (snd (span notQuote r2)) as [|q r4]; [discriminate|].
  destruct (allowEmpty || nonEmpty (fst (span notQuote r2))); [|discriminate].
  inversion H; subst. cbn [List.length] in H2. lia.
Qed.

Lemma findClose_length (closer s inner rest : jstring) :
  findClose closer s = Some (inner, rest) ->
  (List.length rest <= List.length s)%nat.
Proof.
  revert inner rest; induction s as [|c s IH]; intros inner rest H; cbn [findClose] in H.
  - destruct (matchCI closer []) eqn:E; [|discriminate].
    inversion H; subst. apply matchCI_length in E. lia.
  - destruct (matchCI closer (c :: s)) eqn:E.
    + inversion H; subst. apply matchCI_length in E. lia.
    + destruct (findClose closer s) as [[inner' rest']|]; [|discriminate].
      inversion H; subst. specialize (IH _ _ eq_refl). cbn [List.length]. lia.
Qed.

(** A match consumes at least the opening [<image] and a digit. *)
Lemma matchImgTag_length (s : jstring) (m : ImgMatch) :
  matchImgTag s = Some m -> (List.length (im_rest m) < List.length s)%nat.
Proof.
  unfold matchImgTag. intros H.
  destruct (matchCI s_image_open s) as [[|d r1]|] eqn:E; try discriminate.
  apply matchCI_length in E. cbn [List.length] in E.
  destruct ((49 <=? d) && (d <=? 53)); [|discriminate].
  set (a := match matchAttr s_src false r1 with
            | Some (v, r) => (Some v, r) | None => (None, r1) end) in H.
  assert (Ha : (List.length (snd a) <= List.length r1)%nat).
  { subst a. destruct (matchAttr s_src false r1) as [[v r]|] eqn:Ea; cbn [snd].
    - eapply matchAttr_length, Ea.
    - reflexivity. }
  set (b := match matchAttr s_alt true (snd a) with
            | Some (v, r) => (Some v, r) | None => (None, snd a) end) in H.
  assert (Hb : (List.length (snd b) <= List.length (snd a))%nat).
  { subst b. destruct (matchAttr s_alt true (snd a)) as [[v r]|] eqn:Eb; cbn [snd].
    - eapply matchAttr_length, Eb.
    - reflexivity. }
  pose proof (span_length isWhiteSpace (snd b)) as Hw.
  destruct (snd (span isWhiteSpace (snd b))) as [|g r5]; [discriminate|].
  destruct (g =? 62) eqn:Eg.
  - apply Z.eqb_eq in Eg. subst g.
    destruct (findClose (s_image_close ++ [d; 62]) r5) as [[inner rest]|] eqn:Ef;
      [|discriminate].
    apply findClose_length in Ef. inversion H; subst. cbn [im_rest].
    cbn [List.length] in Hw. lia.
  - exfalso. revert H. clear - Eg.
    destruct g as [|g|g]; try discriminate.
    do 6 (destruct g as [g|g|]; try discriminate).
Qed.

Lemma imageOfMatch_length (m : ImgMatch) : (List.length (imageOfMatch m) <= 1)%nat.
Proof. unfold imageOfMatch. destruct (nonEmpty _); cbn; lia. Qed.

(** The text that remains and the matches add up to the text; no match
    pushes more than one image. *)
Lemma imgTagReplace_accounts (s : jstring) (skip : nat) :
  (skip <= List.length s)%nat ->
  (List.length s
   = skip + List.length (fst (imgTagReplace s skip))
     + List.length (List.concat (imgTagMatches s skip)))%nat
  /\ (List.length (snd (imgTagReplace s skip))
      <= List.length (imgTagMatches s skip))%nat.
Proof.
  revert skip; induction s as [|c s IH]; intros skip Hskip.
  - cbn in *. split; lia.
  - cbn [imgTagReplace imgTagMatches]. destruct skip as [|k].
    + destruct (matchImgTag (c :: s)) as [m|] eqn:Em.
      * apply matchImgTag_length in Em. cbn [List.length] in Em.
        destruct (IH (List.length s - List.length (im_rest m))%nat) as [IH1 IH2]; [lia|].
        pose proof (imageOfMatch_length m) as Hone.
        cbn [fst snd List.concat]. rewrite !length_app, length_firstn.
        cbn [List.length]. split; lia.
      * destruct (IH 0%nat) as [IH1 IH2]; [lia|].
        cbn [fst snd List.length]. split; lia.
    + cbn [List.length] in Hskip.
      destruct (IH k) as [IH1 IH2]; [lia|]. cbn [List.length]. split; lia.
Qed.

Lemma figuresFrom_length (idx : Z) (images : list Image) :
  List.length (figuresFrom idx images) = List.length images.
Proof.
  revert idx; induction images as [|img images IH]; intros idx; cbn; [reflexivity|].
  now rewrite IH.
Qed.

(** The text a match consumes lies before what the match leaves. *)
Lemma matchCI_suffix (pat s rest : jstring) :
  matchCI pat s = Some rest -> exists pre, s = pre ++ rest.
Proof.
  revert s; induction pat as [|p pat IH]; intros s H; cbn [matchCI] in H.
  - exists []. destruct s; inversion H; reflexivity.
  - destruct s as [|c s]; [discriminate|].
    destruct (toLowerAscii c =? p); [|discriminate].
    destruct (IH s H) as [pre ->]. exists (c :: pre). reflexivity.
Qed.

Lemma span_app (p : Z -> bool) (s : jstring) :
  s = fst (span p s) ++ snd (span p s).
Proof.
  induction s as [|c s IH]; cbn [span]; [reflexivity|].
  destruct (p c); cbn [fst snd app]; [|reflexivity].
  rewrite <- IH. reflexivity.
Qed.

Lemma matchAttr_suffix (name : jstring) (allowEmpty : bool) (s v rest : jstring) :
  matchAttr name allowEmpty s = Some (v, rest) -> exists pre, s = pre ++ rest.
Proof.
  unfold matchAttr. intros H.
  destruct (nonEmpty (fst (span isWhiteSpace s))); [|discriminate].
  destruct (matchCI (name ++ [61; 34]) (snd (span isWhiteSpace s))) as [r2|] eqn:E;
    [|discriminate].
  apply matchCI_suffix in E. destruct E as [p1 E].
  pose proof (span_app isWhiteSpace s) as H1.
  pose proof (span_app notQuote r2) as H2.
  destruct (snd (span notQuote r2)) as [|q r4]; [discriminate|].
  destruct (allowEmpty || nonEmpty (fst (span notQuote r2))); [|discriminate].
  inversion H; subst v rest.
  exists (fst (span isWhiteSpace s) ++ p1 ++ fst (span notQuote r2) ++ [q]).
  rewrite H1 at 1. rewrite E. rewrite H2 at 1.
  rewrite <- !app_assoc. reflexivity.
Qed.

Lemma findClose_suffix (closer s inner rest : jstring) :
  findClose closer s = Some (inner, rest) -> exists pre, s = pre ++ rest.
Proof.
  revert inner rest; induction s as [|c s IH]; intros inner rest H; cbn [findClose] in H.
  - destruct (matchCI closer []) eqn:E; [|discriminate].
    inversion H; subst. apply matchCI_suffix in E. exact E.
  - destruct (matchCI closer (c :: s)) eqn:E.
    + inversion H; subst. apply matchCI_suffix in E. exact E.
    + destruct (findClose closer s) as [[inner' rest']|]; [|discriminate].
      inversion H; subst. destruct (IH _ _ eq_refl) as [pre ->].
      exists (c :: pre). reflexivity.
Qed.

Lemma matchImgTag_suffix (s : jstring) (m : ImgMatch) :
  matchImgTag s = Some m -> exists pre, s = pre ++ im_rest m.
Proof.
  unfold matchImgTag. intros H.
  destruct (matchCI s_image_open s) as [[|d r1]|] eqn:E; try discriminate.
  apply matchCI_suffix in E. destruct E as [p0 E].
  destruct ((49 <=? d) && (d <=? 53)); [|discriminate].
  set (a := match matchAttr s_src false r1 with
            | Some (v, r) => (Some v, r) | None => (None, r1) end) in H.
  assert (Ha : exists pa, r1 = pa ++ snd a).
  { subst a. destruct (matchAttr s_src false r1) as [[v r]|] eqn:Ea; cbn [snd].
    - eapply matchAttr_suffix, Ea.
    - exists []. reflexivity. }
  set (b := match matchAttr s_alt true (snd a) with
            | Some (v, r) => (Some v, r) | None => (None, snd a) end) in H.
  assert (Hb : exists pb, snd a = pb ++ snd b).
  { subst b. destruct (matchAttr s_alt true (snd a)) as [[v r]|] eqn:Eb; cbn [snd].
    - eapply matchAttr_suffix, Eb.
    - exists []. reflexivity. }
  pose proof (span_app isWhiteSpace (snd b)) as Hw.
  destruct (snd (span isWhiteSpace (snd b))) as [|g r5]; [discriminate|].
  destruct (g =? 62) eqn:Eg.
  - apply Z.eqb_eq in Eg. subst g.
    destruct (findClose (s_image_close ++ [d; 62]) r5) as [[inner rest]|] eqn:Ef;
      [|discriminate].
    apply findClose_suffix in Ef. destruct Ef as [pf Ef].
    destruct Ha as [pa Ha]. destruct Hb as [pb Hb].
    inversion H; subst m. cbn [im_rest].
    exists (p0 ++ [d] ++ pa ++ pb ++ fst (span isWhiteSpace (snd b)) ++ [62] ++ pf).
    rewrite E, Ha, Hb. rewrite Hw at 1. rewrite Ef.
    rewrite <- !app_assoc. reflexivity.
  - exfalso. revert H. clear - Eg.
    destruct g as [|g|g]; try discriminate.
    do 6 (destruct g as [g|g|]; try discriminate).
Qed.

(** The text a match spans, cut off by length, and what the match leaves. *)
Lemma matchImgTag_split (s : jstring) (m : ImgMatch) :
  matchImgTag s = Some m ->
  s = firstn (List.length s - List.length (im_rest m)) s ++ im_rest m
  /\ skipn (List.length s - List.length (im_rest m)) s = im_rest m
  /\ firstn (List.length s - List.length (im_rest m)) s <> [].
Proof.
  intros H. destruct (matchImgTag_suffix s m H) as [pre E].
  pose proof (matchImgTag_length s m H) as Hlen.
  assert (Hn : Nat.sub (List.length s) (List.length (im_rest m)) = List.length pre).
  { rewrite E. rewrite length_app. lia. }
  rewrite Hn.
  assert (Hf : firstn (List.length pre) s = pre).
  { rewrite E, firstn_app, Nat.sub_diag, firstn_all. cbn [firstn]. apply app_nil_r. }
  assert (Hk : skipn (List.length pre) s = im_rest m).
  { rewrite E, skipn_app, Nat.sub_diag, skipn_all. reflexivity. }
  rewrite Hf, Hk. split; [exact E|]. split; [reflexivity|].
  intros ->. cbn [List.length] in Hn. lia.
Qed.

Lemma imgTagPieces_scan (s : jstring) (skip : nat) :
  (skip <= List.length s)%nat -> scanOf (imgTagPieces s skip) (skipn skip s).
Proof.
  revert skip; induction s as [|c s IH]; intros skip Hskip.
  - destruct skip; reflexivity.
  - cbn [imgTagPieces]. destruct skip as [|k].
    + cbn [skipn]. destruct (matchImgTag (c :: s)) as [m|] eqn:Em.
      * destruct (matchImgTag_split _ m Em) as (Hs & Hrest & Hne).
        pose proof (matchImgTag_length _ m Em) as Hlen. cbn [List.length] in Hlen.
        cbn [scanOf]. split; [exact Em|]. split; [exact Hne|]. split; [exact Hs|].
        replace (im_rest m) with (skipn (List.length s - List.length (im_rest m)) s) at 2.
        -- apply IH. lia.
        -- rewrite <- Hrest at 2.
           replace (List.length (c :: s) - List.length (im_rest m))%nat
             with (Datatypes.S (List.length s - List.length (im_rest m)))
             by (cbn [List.length]; lia).
           reflexivity.
      * cbn [scanOf]. split; [exact Em|]. exists s. split; [reflexivity|].
        apply (IH 0%nat). lia.
    + cbn [skipn]. apply IH. cbn [List.length] in Hskip. lia.
Qed.

Lemma imgTagPieces_replace (s : jstring) (skip : nat) :
  fst (imgTagReplace s skip) = List.concat (map pieceKept (imgTagPieces s skip))
  /\ snd (imgTagReplace s skip) = List.concat (map pieceImages (imgTagPieces s skip))
  /\ imgTagMatches s skip = List.concat (map pieceTags (imgTagPieces s skip)).
Proof.
  revert skip; induction s as [|c s IH]; intros skip; [repeat split|].
  cbn [imgTagReplace imgTagMatches imgTagPieces]. destruct skip as [|k]; [|apply IH].
  destruct (matchImgTag (c :: s)) as [m|].
  - destruct (IH (List.length s - List.length (im_rest m))%nat) as (H1 & H2 & H3).
    cbn [fst snd map List.concat pieceKept pieceImages pieceTags app].
    rewrite H1, H2, H3. repeat split.
  - destruct (IH 0%nat) as (H1 & H2 & H3).
    cbn [fst snd map List.concat pieceKept pieceImages pieceTags app].
    rewrite H1, H2, H3. repeat split.
Qed.

Lemma scanOf_text (pieces : list Piece) (s : jstring) :
  scanOf pieces s -> s = List.concat (map pieceText pieces).
Proof.
  revert s; induction pieces as [|[c|m text] pieces IH]; intros s H; cbn [scanOf] in H.
  - exact H.
  - destruct H as (_ & s' & -> & H). cbn [map List.concat pieceText app].
    rewrite <- (IH s' H). reflexivity.
  - destruct H as (_ & _ & -> & H). cbn [map List.concat pieceText].
    rewrite <- (IH _ H). reflexivity.
Qed.

(** C5, as the script has it.  [buildCarousel] builds one figure for each
    of the first five images it is given, not more; but the renderer no
    longer calls it.  For a reply text made of any number of image tags,
    every tag is recognised and removed from the text, every image is
    pushed to the array [images] (all of them, beyond the fifth too), and
    the bubble is built from what is left of the text alone: it holds no
    image.  For every reply text, the text that remains and the recognised
    tags add up to the text, each tag pushes at most one image, and the
    bubble's markup is computed from the remaining text only.  More
    precisely, for every reply text the scan cuts the text into the
    matches of the expression and the code units between them
    ([scanOf]): the text is these pieces in order, what remains of it is
    exactly the code units between the matches, so every match is removed
    whole, the fifth and later ones like the first, and the array [images]
    holds, in order, what the matches push: one image for a match whose
    source is not blank after trimming, none for one whose source is. *)
Theorem image_tags_removed_not_rendered :
  (forall images : list Image,
      List.length (buildCarousel images) = Nat.min 5 (List.length images))
  /\ (forall (tags : list (Z * jstring)) (html : bool),
        Forall validSimpleTag tags ->
        imgTagMatches (List.concat (map simpleTag tags)) 0 = map simpleTag tags
        /\ imgTagReplace (List.concat (map simpleTag tags)) 0
           = ([], map imageOfSimpleTag tags)
        /\ renderAssistantMessage (JStr (List.concat (map simpleTag tags))) html
           = Some (Bubble assistant (InnerHTML (JStr []))))
  /\ (forall (text : jstring) (html : bool),
        (List.length text
         = List.length (fst (imgTagReplace text 0))
           + List.length (List.concat (imgTagMatches text 0)))%nat
        /\ (List.length (snd (imgTagReplace text 0))
            <= List.length (imgTagMatches text 0))%nat
        /\ renderAssistantMessage (JStr text) html
           = Some (Bubble assistant
                     (InnerHTML
                        (JStr (let cleaned :=
                                 trim (cardTagReplace (fst (imgTagReplace text 0)) 0) in
                               if html then cleaned else newlinesToBr cleaned))))
        /\ scanOf (imgTagPieces text 0) text
        /\ text = List.concat (map pieceText (imgTagPieces text 0))
        /\ fst (imgTagReplace text 0)
           = List.concat (map pieceKept (imgTagPieces text 0))
        /\ imgTagMatches text 0 = List.concat (map pieceTags (imgTagPieces text 0))
        /\ snd (imgTagReplace text 0)
           = List.concat (map pieceImages (imgTagPieces text 0)))
  /\ (forall m : ImgMatch,
        imageOfMatch m
        = if nonEmpty (trim (captureOr (im_srcAttr m) (im_inner m)))
          then [mkImage (trim (captureOr (im_srcAttr m) (im_inner m)))
                        (trim (captureOr (im_altAttr m) (im_inner m)))]
          else []).
Proof.
  split; [|split; [|split]].
  - intros images. unfold buildCarousel.
    rewrite figuresFrom_length. apply length_firstn.
  - intros tags html Hvalid.
    destruct (imgTagReplace_simpleTags tags Hvalid) as [Hr Hm].
    split; [exact Hm|]. split; [exact Hr|].
    unfold renderAssistantMessage, jsOr.
    destruct (truthy (JStr (List.concat (map simpleTag tags)))) eqn:Et.
    + rewrite Hr. cbn [fst]. destruct html; reflexivity.
    + destruct html; reflexivity.
  - intros text html.
    destruct (imgTagReplace_accounts text 0) as [Hlen Himg]; [lia|].
    split; [exact Hlen|]. split; [exact Himg|].
    split.
    { unfold renderAssistantMessage, jsOr.
      destruct text as [|c text]; [destruct html; reflexivity|].
      cbn [truthy]. destruct html; reflexivity. }
    pose proof (imgTagPieces_scan text 0 (Nat.le_0_l _)) as Hscan. cbn [skipn] in Hscan.
    destruct (imgTagPieces_replace text 0) as (Hkept & Himages & Htags).
    split; [exact Hscan|]. split; [exact (scanOf_text _ _ Hscan)|].
    split; [exact Hkept|]. split; [exact Htags | exact Himages].
  - intros m. reflexivity.
Qed.

Lemma parseAttrs_skip_all (a : jstring) (attrs : Attrs) :
  parseAttrs a (List.length a) attrs = attrs.
Proof. induction a as [|c a IH]; [reflexivity | exact IH]. Qed.

Lemma parseAttrs_price (p : jstring) :
  forallb notQuote p = true ->
  parseAttrs (s_price_attr ++ p ++ [34]) 0 [] = [(k_price, p)].
Proof.
  intros Hq.
  assert (Hm : matchKeyValue (s_price_attr ++ p ++ [34]) = Some (k_price, p, [])).
  { unfold matchKeyValue, s_price_attr. cbn [app span].
    replace (isWordChar 112) with true by reflexivity.
    replace (isWordChar 114) with true by reflexivity.
    replace (isWordChar 105) with true by reflexivity.
    replace (isWordChar 99) with true by reflexivity.
    replace (isWordChar 101) with true by reflexivity.
    replace (isWordChar 61) with false by reflexivity.
    cbn [fst snd nonEmpty].
    rewrite (span_stop notQuote p 34 [] Hq) by reflexivity. reflexivity. }
  unfold s_price_attr in *. cbn [app] in *. cbn [parseAttrs]. rewrite Hm.
  change (List.length (@nil Z)) with 0%nat. rewrite Nat.sub_0_r.
  apply parseAttrs_skip_all.
Qed.

Lemma matchCardTag_priceTag (p rest : jstring) :
  forallb notQuote p = true -> forallb notGt p = true ->
  matchCardTag (priceTag p ++ rest) = Some (s_price_attr ++ p ++ [34], rest).
Proof.
  intros Hq Hg. unfold matchCardTag, priceTag.
  rewrite <- !app_assoc. rewrite matchCI_prefix by reflexivity.
  change ([32] ++ s_price_attr ++ p ++ [34; 62] ++ s_card_close ++ rest)
    with (([32] ++ s_price_attr) ++ p ++ 34 :: 62 :: s_card_close ++ rest).
  replace (([32] ++ s_price_attr) ++ p ++ 34 :: 62 :: s_card_close ++ rest)
    with ((([32] ++ s_price_attr) ++ p ++ [34]) ++ 62 :: s_card_close ++ rest)
    by (rewrite <- !app_assoc; reflexivity).
  rewrite (span_stop notGt (([32] ++ s_price_attr) ++ p ++ [34]) 62)
    by (rewrite ?forallb_app, ?Hg; reflexivity).
  cbn [fst snd].
  unfold s_price_attr. cbn [app span].
  replace (isWhiteSpace 32) with true by reflexivity.
  replace (isWhiteSpace 112) with false by reflexivity.
  cbn [fst snd nonEmpty].
  rewrite matchCI_prefix by reflexivity. reflexivity.
Qed.


(** ** The latest profile *)

(** X1. [latestProfile] starts as the empty object and is only ever
    replaced by a truthy profile ([profile || {}] in
    [updateProfilePanel]), and a reset does not touch it: in every session
    the script can reach it is truthy, so [renderLeadForm] can always read
    the members of its default profile. *)
Theorem latestProfile_truthy (src : IdSource) (actions : list Action) :
  truthy (latestProfile (run (initialSession src) actions)) = true.
Proof.
  set (P := fun s : Session => truthy (latestProfile s) = true).
  assert (Hprofile : forall p s, P (set_latestProfile (jsOr p emptyObject) s)).
  { intros p s. unfold P. cbn. rewrite truthy_jsOr. apply orb_true_r. }
  assert (Hevent : forall event, preserves P (handleEvent event)).
  { intros event. unfold handleEvent, handleResult. unfold_handlers. preserve;
      intros s0 H0; first [exact H0 | apply Hprofile]. }
  assert (Hhandler : forall a, preserves P (handler a)).
  { intros a. destruct a; cbn [handler];
      unfold sendMessage, requestReply, resetChat, handleLeadSubmit,
        specialistClick, handleResult, beginSend;
      unfold_handlers; preserve;
      first [ apply readStream_preserves, Hevent
            | intros s0 H0; first [exact H0 | apply Hprofile] ]. }
  unfold run. assert (Hinit : P (initialSession src)) by reflexivity.
  revert Hinit. generalize (initialSession src).
  induction actions as [|a actions IH]; intros s Hs; [exact Hs|].
  cbn [fold_left]. apply IH. apply Hhandler, Hs.
Qed.

(** ** The lead form in the chat body *)

Lemma countForms_app (a b : list Node) :
  countForms (a ++ b) = (countForms a + countForms b)%nat.
Proof. unfold countForms. now rewrite filter_app, length_app. Qed.

Lemma countForms_removeFirst (p : Node -> bool) (body : list Node) :
  (forall n, p n = true -> isLeadFormNode n = false) ->
  countForms (removeFirst p body) = countForms body.
Proof.
  intros Hp. induction body as [|n body IH]; [reflexivity|].
  cbn [removeFirst]. destruct (p n) eqn:E.
  - unfold countForms. cbn [filter]. now rewrite (Hp n E).
  - unfold countForms in *. cbn [filter]. destruct (isLeadFormNode n); cbn [List.length]; lia.
Qed.

Lemma countForms_removeFirstLeadForm (body : list Node) :
  countForms (removeFirstLeadForm body) = Nat.pred (countForms body).
Proof.
  induction body as [|n body IH]; [reflexivity|].
  cbn [removeFirstLeadForm]. unfold countForms in *. cbn [filter].
  destruct (isLeadFormNode n) eqn:E; cbn [List.length Nat.pred]; [reflexivity|].
  cbn [filter]. rewrite E. exact IH.
Qed.

Lemma countForms_hasLeadForm (body : list Node) :
  hasLeadForm body = true <-> (1 <= countForms body)%nat.
Proof.
  unfold hasLeadForm, countForms. induction body as [|n body IH]; cbn [existsb filter].
  - cbn. split; [discriminate | lia].
  - destruct (isLeadFormNode n); cbn [orb List.length]; [split; [lia | reflexivity] | exact IH].
Qed.

Lemma renderAssistantMessage_bubble (text : JsValue) (html : bool) (n : Node) :
  renderAssistantMessage text html = Some n -> isLeadFormNode n = false.
Proof.
  unfold renderAssistantMessage. destruct (jsOr text (JStr [])); try discriminate.
  intros H; inversion H; reflexivity.
Qed.

Lemma isChips_not_form (n : Node) : isChips n = true -> isLeadFormNode n = false.
Proof. destruct n; simpl; congruence. Qed.

Lemma isTypingNode_not_form (n : Node) : isTypingNode n = true -> isLeadFormNode n = false.
Proof. destruct n; simpl; congruence. Qed.

(** ** The specialist button *)

Lemma renderLeadForm_default_profile (routing : JsValue) (force : bool) (s : Session) :
  renderLeadForm routing force JUndefined s
  = renderLeadForm routing force (latestProfile s) s.
Proof.
  unfold renderLeadForm, bind, get.
  destruct (latestProfile s); reflexivity.
Qed.

Lemma openChat_body_only (s : Session) :
  exists body, openChat s = (Normal tt, set_chatBody body s).
Proof.
  unfold openChat, renderSuggestions, appendChild, bind, get, modify.
  destruct build; [|exists (chatBody s); destruct s; reflexivity].
  destruct (List.length (chatBody s) <=? 1)%nat; cbn.
  - eexists. reflexivity.
  - exists (chatBody s). destruct s; reflexivity.
Qed.

Lemma openChat_forms (s : Session) :
  countForms (chatBody (snd (openChat s))) = countForms (chatBody s).
Proof.
  unfold openChat, renderSuggestions, appendChild, bind, get, modify, ret.
  destruct build; [|reflexivity].
  destruct (List.length (chatBody s) <=? 1)%nat;
    cbn [fst snd chatBody set_chatBody greetingChips]; [|reflexivity].
  rewrite countForms_app, (countForms_removeFirst _ _ isChips_not_form).
  cbn. lia.
Qed.

(** X3. In the plain build the specialist button goes past the Lead
    Gate: it calls [renderLeadForm] with [force] true, so whatever the
    flags say (a form already visible, a lead already submitted, the chat
    ended) the session ends with the form shown as the last child of the
    chat body, in place of any earlier form, and with the lead meta of a
    booking (intent [book], urgency [soon]); [leadSubmitted] and
    [chatEnded] stay as they were.  In the streaming build the same
    listener calls a function that is not declared: the click shows no
    form and leaves the lead flags and the lead meta alone. *)
Theorem specialist_button_forces_form (s : Session) :
  truthy (latestProfile s) = true ->
  formBuilds (leadFormFor specialistRouting (latestProfile s)) = true ->
  (build = Plain ->
   leadFormVisible (step s ASpecialist) = true
   /\ chatBody (step s ASpecialist)
      = removeFirstLeadForm (chatBody s)
        ++ [LeadFormNode (leadFormFor specialistRouting (latestProfile s))]
   /\ pendingLeadMeta (step s ASpecialist)
      = Some (mkLeadMeta (JStr (lit "book"))
                (JStr (lit "To hold a consultation slot we just need your preferred contact."))
                (JStr (lit "soon")))
   /\ leadSubmitted (step s ASpecialist) = leadSubmitted s
   /\ chatEnded (step s ASpecialist) = chatEnded s)
  /\ (build = Streaming ->
      countForms (chatBody (step s ASpecialist)) = countForms (chatBody s)
      /\ leadFormVisible (step s ASpecialist) = leadFormVisible s
      /\ leadSubmitted (step s ASpecialist) = leadSubmitted s
      /\ pendingLeadMeta (step s ASpecialist) = pendingLeadMeta s).
Proof.
  intros Hp Hf. unfold step, exec. cbn [handler]. unfold specialistClick, bind.
  split; intros Hb; rewrite Hb.
  - unfold openChat. rewrite Hb. unfold ret. cbn [fst snd].
    rewrite renderLeadForm_default_profile.
    rewrite renderLeadForm_eq;
      [| reflexivity | exact Hp | cbn; apply andb_false_r].
    cbv zeta. rewrite Hf. cbn [snd]. repeat split.
  - pose proof (openChat_forms s) as Hforms.
    destruct (openChat_body_only s) as [body Hopen]. rewrite Hopen in *.
    unfold throw. cbn [fst snd leadFormVisible leadSubmitted pendingLeadMeta] in *.
    repeat split. exact Hforms.
Qed.

(** ** The requests a send issues *)

Lemma handleEvent_fetchLog (L : list FetchCall) (event : JsValue) :
  preserves (fun x => fetchLog x = L) (handleEvent event).
Proof. unfold handleEvent, handleResult. unfold_handlers. preserve; frame. Qed.

Lemma handleResult_fetchLog (L : list FetchCall) (data : JsValue) :
  preserves (fun x => fetchLog x = L) (handleResult data).
Proof. unfold handleResult. unfold_handlers. preserve; frame. Qed.

Lemma requestReply_fetchLog (message : jstring) (response : ChatResponse) (s : Session) :
  fetchLog (snd (requestReply message response s))
  = fetchLog s
    ++ [ChatRequest (match build with Plain => Some BUSINESS_ID | Streaming => None end)
          (conversationId s) message sheetId].
Proof.
  unfold requestReply, bind, get, logFetch, modify. cbn [fst snd].
  match goal with
  | |- context [set_fetchLog ?l s] => set (s2 := set_fetchLog l s); set (L := l)
  end.
  destruct response as [|ok body]; [reflexivity|].
  destruct ok; [|reflexivity]. cbn [negb].
  destruct build.
  - destruct body as [[chunks fin]|]; [|reflexivity].
    exact (readStream_preserves (fun x => fetchLog x = L) chunks fin
             (handleEvent_fetchLog L) s2 eq_refl).
  - unfold liftE. destruct (responseJson body) as [data|]; [|reflexivity].
    exact (handleResult_fetchLog L data s2 eq_refl).
Qed.

Lemma sendMessage_logs (response : ChatResponse) (s : Session) :
  chatEnded s = false -> unconfigured = false ->
  nonEmpty (trim (chatInput_value s)) = true ->
  fetchLog (snd (sendMessage response s))
  = fetchLog s
    ++ [ChatRequest (match build with Plain => Some BUSINESS_ID | Streaming => None end)
          (conversationId s) (trim (chatInput_value s)) sheetId].
Proof.
  intros He Hc Hm. rewrite (sendMessage_proceeds response s He Hc Hm).
  set (message := trim (chatInput_value s)).
  pose proof (sameCore_beginSend message s) as (Hid & _).
  assert (Hlog : fetchLog (snd (beginSend message s)) = fetchLog s).
  { assert (Hp : preserves (fun x => fetchLog x = fetchLog s) (beginSend message))
      by (unfold beginSend; unfold_handlers; preserve; frame).
    exact (Hp s eq_refl). }
  set (s1 := snd (beginSend message s)) in *.
  pose proof (requestReply_fetchLog message response s1) as Hreq.
  rewrite Hlog, Hid in Hreq.
  unfold tryFinally, tryCatch.
  destruct (requestReply message response s1) as [[[]|] s2]; cbn [snd] in Hreq;
    cbv beta iota.
  - cbn [snd].
    assert (Hp : preserves (fun x => fetchLog x = fetchLog s2) (showTyping false))
      by (unfold_handlers; preserve; frame).
    rewrite (Hp s2 eq_refl). exact Hreq.
  - rewrite appendMessage_apology. cbv beta iota. cbn [snd].
    assert (Hp : preserves (fun x => fetchLog x = fetchLog s2) (showTyping false))
      by (unfold_handlers; preserve; frame).
    rewrite (Hp (set_chatBody (chatBody s2 ++ [apologyBubble]) s2) eq_refl). exact Hreq.
Qed.

(** X4. Whatever the network answers, [sendMessage] issues at most one
    request: none when the chat has ended, when the plain build has no
    business id, or when the input is blank; otherwise exactly one, which
    carries the trimmed input and the conversation id the session had
    before the send (the id a reply brings is used from the next send
    on). *)
Theorem send_issues_one_request (response : ChatResponse) (s : Session) :
  fetchLog (step s (ASend response))
  = if chatEnded s || unconfigured || negb (nonEmpty (trim (chatInput_value s)))
    then fetchLog s
    else fetchLog s
         ++ [ChatRequest
               (match build with Plain => Some BUSINESS_ID | Streaming => None end)
               (conversationId s) (trim (chatInput_value s)) sheetId].
Proof.
  unfold step, exec. cbn [handler].
  destruct (chatEnded s) eqn:He.
  { unfold sendMessage, bind, get. rewrite He. reflexivity. }
  destruct unconfigured eqn:Hc.
  { unfold sendMessage, bind, get. rewrite He, Hc. cbn [orb].
    assert (Hp : preserves (fun x => fetchLog x = fetchLog s)
                   (appendMessage assistant (JStr notConfigured) false))
      by (unfold_handlers; preserve; frame).
    exact (Hp s eq_refl). }
  destruct (nonEmpty (trim (chatInput_value s))) eqn:Hm.
  - cbn [orb negb]. apply sendMessage_logs; assumption.
  - unfold sendMessage, bind, get. rewrite He, Hc, Hm. reflexivity.
Qed.

(** ** Reset *)

Lemma resetChat_eq (src : IdSource) (s : Session) :
  resetChat src s = (Normal tt, resetSession src s).
Proof.
  unfold resetChat, resetSession, saveConversation, openChat, renderSuggestions,
    appendChild, bind, modify, get, ret.
  destruct build; reflexivity.
Qed.

(** X5. [resetChat] does not cancel the timer that a reply with
    [lead_captured] has set: the number of pending timers is the same
    after the reset, and when the timer fires in the plain build, the only
    one that sets it, it ends the fresh conversation, which then has the
    new conversation id, the ended flag and a locked input.  (A callback
    of this kind in the streaming build would call [endChatSession],
    which is not declared there, and end nothing.) *)
Theorem reset_keeps_end_timer (src : IdSource) (s : Session) :
  (0 < endTimers s)%nat ->
  endTimers (step s (AReset src)) = endTimers s
  /\ chatEnded (step s (AReset src)) = false
  /\ (build = Plain ->
      chatEnded (run s [AReset src; AEndTimer]) = true
      /\ inputLocked (run s [AReset src; AEndTimer]) = true
      /\ conversationId (run s [AReset src; AEndTimer]) = JStr (makeConversationId src))
  /\ (build = Streaming -> chatEnded (run s [AReset src; AEndTimer]) = false).
Proof.
  intros Ht. unfold run. cbn [fold_left].
  assert (Hr : step s (AReset src) = resetSession src s)
    by (unfold step, exec; cbn [handler]; rewrite resetChat_eq; reflexivity).
  rewrite Hr. split; [reflexivity|]. split; [reflexivity|].
  unfold step, exec. cbn [handler]. unfold endChatSession, bind, get, modify, throw.
  cbn [fst snd].
  change (endTimers (resetSession src s)) with (endTimers s).
  destruct (endTimers s) as [|n]; [inversion Ht|].
  split; intros Hb; rewrite Hb; repeat split.
Qed.

(** X6. A reset reopens a chat from any state, an ended one included: the
    ended flag, the lead flags and the lead form are gone while the latest
    profile is kept, and the next send goes out with the freshly made
    conversation id. *)
Theorem reset_reopens_chat (src : IdSource) (text : jstring) (response : ChatResponse)
  (s : Session) :
  unconfigured = false -> nonEmpty (trim text) = true ->
  chatEnded (step s (AReset src)) = false
  /\ leadSubmitted (step s (AReset src)) = false
  /\ leadFormVisible (step s (AReset src)) = false
  /\ hasLeadForm (chatBody (step s (AReset src))) = false
  /\ latestProfile (step s (AReset src)) = latestProfile s
  /\ fetchLog (run s [AReset src; AInput text; ASend response])
     = fetchLog s
       ++ [ChatRequest
             (match build with Plain => Some BUSINESS_ID | Streaming => None end)
             (JStr (makeConversationId src)) (trim text) sheetId].
Proof.
  intros Hc Hm. unfold run. cbn [fold_left].
  assert (Hr : step s (AReset src) = resetSession src s)
    by (unfold step, exec; cbn [handler]; rewrite resetChat_eq; reflexivity).
  rewrite Hr. repeat split; try reflexivity.
  - unfold resetSession. destruct build; reflexivity.
  - unfold step, exec. cbn [handler modify snd].
    rewrite sendMessage_logs; [reflexivity | reflexivity | exact Hc | exact Hm].
Qed.

(** ** Lead submission *)

Lemma appendMessage_thanks (s : Session) :
  appendMessage assistant (JStr thanksMessage) true s
  = (Normal tt, set_chatBody (chatBody s ++ [thanksBubble]) s).
Proof.
  unfold appendMessage, thanksBubble. destruct build.
  - replace (renderAssistantMessage (JStr thanksMessage) true)
      with (Some (Bubble assistant (InnerHTML (JStr thanksMessage))))
      by (vm_compute; reflexivity).
    reflexivity.
  - reflexivity.
Qed.

(** X7. A lead submission that is refused, by the checks on the fields (no
    name, or neither email nor phone, after trimming) or by the backend (a
    rejected request or a status that is not a success), only raises one
    alert: the form stays in the chat body and the lead flags, the lead
    meta and the conversation id are untouched, so the visitor can
    submit again.  A request was posted only when the fields passed the
    checks. *)
Theorem lead_submit_refused (name email phone : jstring) (response : LeadResponse)
  (s : Session) :
  nonEmpty BUSINESS_ID = true ->
  leadFieldsOk name email phone && leadAccepted response = false ->
  handleLeadSubmit name email phone response s
  = (Normal tt,
     set_alerts (alerts s ++ [refusalAlert name email phone])
       (if leadFieldsOk name email phone
        then set_fetchLog (fetchLog s ++ [leadRequestOf name email phone s]) s
        else s)).
Proof.
  intros Hb Hr. unfold handleLeadSubmit, refusalAlert, leadFieldsOk in *.
  rewrite Hb. cbn [negb].
  destruct (nonEmpty (trim name)); cbn [negb andb] in *; [|reflexivity].
  destruct (nonEmpty (trim email)); destruct (nonEmpty (trim phone));
    cbn [negb andb orb] in *; try reflexivity.
  all: unfold tryCatch, bind, get, logFetch, modify, throw; cbn [fst snd];
    destruct response as [|ok]; cbn in Hr; [reflexivity|]; rewrite Hr; reflexivity.
Qed.

(** X8. A lead submission whose fields pass the checks and which the
    backend accepts posts one request, with the conversation id and the
    lead meta of the moment, removes the form, sets [leadSubmitted],
    clears [leadFormVisible] and the lead meta, and thanks the visitor. *)
Theorem lead_submit_accepted (name email phone : jstring) (s : Session) :
  nonEmpty BUSINESS_ID = true ->
  leadFieldsOk name email phone = true ->
  completion (handleLeadSubmit name email phone (LeadHttpResponse true)) s = Normal tt
  /\ leadSubmitted (exec (handleLeadSubmit name email phone (LeadHttpResponse true)) s) = true
  /\ leadFormVisible (exec (handleLeadSubmit name email phone (LeadHttpResponse true)) s)
     = false
  /\ pendingLeadMeta (exec (handleLeadSubmit name email phone (LeadHttpResponse true)) s)
     = None
  /\ chatBody (exec (handleLeadSubmit name email phone (LeadHttpResponse true)) s)
     = removeFirstLeadForm (chatBody s) ++ [thanksBubble]
  /\ fetchLog (exec (handleLeadSubmit name email phone (LeadHttpResponse true)) s)
     = fetchLog s ++ [leadRequestOf name email phone s]
  /\ alerts (exec (handleLeadSubmit name email phone (LeadHttpResponse true)) s) = alerts s.
Proof.
  intros Hb Hf. unfold leadFieldsOk in Hf.
  apply andb_true_iff in Hf. destruct Hf as [Hn Hc].
  assert (Hc' : negb (nonEmpty (trim email)) && negb (nonEmpty (trim phone)) = false)
    by (rewrite <- negb_orb, Hc; reflexivity).
  unfold completion, exec, handleLeadSubmit. rewrite Hb, Hn, Hc'. cbn [negb].
  unfold tryCatch, bind, get, logFetch, modify. cbn [fst snd].
  rewrite appendMessage_thanks. cbn [fst snd]. repeat split.
Qed.

(** What [appendMessage] appends is a message bubble, whatever the build,
    the role and the text. *)
Lemma appendMessage_preserves (P : Session -> Prop) :
  (forall s n, isLeadFormNode n = false -> P s -> P (set_chatBody (chatBody s ++ [n]) s)) ->
  forall role text html, preserves P (appendMessage role text html).
Proof.
  intros Happ role text html. unfold appendMessage, appendChild.
  assert (Hplain : preserves P
            (if html then modify (fun s => set_chatBody (chatBody s ++ [Bubble role (InnerHTML text)]) s)
             else if toStringThrows text then throw
                  else modify (fun s => set_chatBody (chatBody s ++ [Bubble role (TextContent text)]) s))).
  { preserve; intros s H; (apply Happ; [reflexivity | exact H]). }
  destruct build; destruct role; try exact Hplain.
  destruct (renderAssistantMessage text html) as [n|] eqn:E; cbn [liftE].
  - apply preserves_bind_some. apply preserves_modify. intros s H.
    apply Happ; [eapply renderAssistantMessage_bubble, E | exact H].
  - intros s H. exact H.
Qed.

Lemma leadClosed_append (s : Session) (n : Node) :
  isLeadFormNode n = false -> leadClosed s ->
  leadClosed (set_chatBody (chatBody s ++ [n]) s).
Proof.
  intros Hn [H1 H2]. split; [exact H1|]. cbn [chatBody set_chatBody].
  rewrite countForms_app, H2. unfold countForms. cbn. rewrite Hn. reflexivity.
Qed.

Lemma leadClosed_removeFirst (p : Node -> bool) (s : Session) :
  (forall n, p n = true -> isLeadFormNode n = false) -> leadClosed s ->
  leadClosed (set_chatBody (removeFirst p (chatBody s)) s).
Proof.
  intros Hp [H1 H2]. split; [exact H1|]. cbn [chatBody set_chatBody].
  rewrite countForms_removeFirst by exact Hp. exact H2.
Qed.

Lemma leadClosed_removeForm (s : Session) :
  leadClosed s -> leadClosed (set_chatBody (removeFirstLeadForm (chatBody s)) s).
Proof.
  intros [H1 H2]. split; [exact H1|]. cbn [chatBody set_chatBody].
  rewrite countForms_removeFirstLeadForm, H2. reflexivity.
Qed.

Lemma showTyping_leadClosed (show : bool) : preserves leadClosed (showTyping show).
Proof.
  unfold showTyping, appendChild. preserve; intros s0 H0;
    first [ exact H0
          | apply leadClosed_append; [reflexivity | exact H0]
          | apply leadClosed_removeFirst; [exact isChips_not_form | exact H0]
          | exact (leadClosed_append _ TypingBubbleNode eq_refl
                     (leadClosed_removeFirst isTypingNode s0
                        isTypingNode_not_form H0)) ].
Qed.

Lemma openChat_leadClosed : preserves leadClosed openChat.
Proof.
  unfold openChat, renderSuggestions, appendChild. preserve; intros s0 H0;
    first [ apply leadClosed_removeFirst; [exact isChips_not_form | exact H0]
          | apply leadClosed_append; [reflexivity | exact H0] ].
Qed.

(** With a lead submitted the gate is closed: [handleRouting] only records
    the profile. *)
Lemma handleRouting_leadClosed (routing profile : JsValue) :
  preserves leadClosed (handleRouting routing profile).
Proof.
  intros s [H1 H2]. rewrite handleRouting_eq.
  rewrite (leadGate_false_of_suppressed routing profile s (or_intror (or_introl H1))).
  cbv zeta. destruct (truthy profile); destruct (negb (truthy routing)); split; assumption.
Qed.

Lemma handleEvent_leadClosed (event : JsValue) : preserves leadClosed (handleEvent event).
Proof.
  unfold handleEvent, handleResult, saveConversation, scheduleEnd.
  preserve; first [ apply (appendMessage_preserves leadClosed leadClosed_append)
                  | apply handleRouting_leadClosed
                  | intros s0 H0; exact H0 ].
Qed.

Lemma sendMessage_leadClosed (response : ChatResponse) :
  preserves leadClosed (sendMessage response).
Proof.
  unfold sendMessage, beginSend, requestReply, handleResult, saveConversation,
    scheduleEnd, logFetch.
  preserve; first [ apply (appendMessage_preserves leadClosed leadClosed_append)
                  | apply showTyping_leadClosed
                  | apply handleRouting_leadClosed
                  | apply readStream_preserves, handleEvent_leadClosed
                  | intros s0 H0; exact H0 ].
Qed.

Lemma handler_leadClosed (a : Action) :
  keepsLead a = true -> preserves leadClosed (handler a).
Proof.
  intros Hk. destruct a; try discriminate Hk; cbn [handler].
  - apply preserves_modify. intros s H. exact H.
  - apply sendMessage_leadClosed.
  - preserve; first [ apply sendMessage_leadClosed
                    | intros s1 H1; first [ exact H1
                        | apply leadClosed_removeFirst;
                          [exact isChips_not_form | exact H1] ] ].
  - apply openChat_leadClosed.
  - unfold dismissLeadForm. preserve; intros s1 H1;
      first [exact H1 | apply leadClosed_removeForm, H1].
  - unfold handleLeadSubmit, logFetch.
    preserve; first [ apply (appendMessage_preserves leadClosed leadClosed_append)
                    | intros s1 H1; first [ exact H1 | apply leadClosed_removeForm, H1
                                          | split; [reflexivity | apply H1] ] ].
  - unfold handleRating. preserve; intros s1 H1; exact H1.
  - unfold endChatSession. preserve; intros s1 H1; exact H1.
Qed.

(** X9. A submitted lead closes the gate for the rest of the conversation:
    from a session with [leadSubmitted] set and no form in the chat body,
    no sequence of sends, chip clicks, backend replies (whatever routing
    and profile they carry), timers and other actions brings the form
    back or clears the flag; only a reset or the specialist button do. *)
Theorem submitted_lead_stays_closed (s : Session) (actions : list Action) :
  leadSubmitted s = true -> hasLeadForm (chatBody s) = false ->
  forallb keepsLead actions = true ->
  leadSubmitted (run s actions) = true
  /\ hasLeadForm (chatBody (run s actions)) = false.
Proof.
  intros Hs Hf Hk.
  assert (H0 : leadClosed s).
  { split; [exact Hs|]. destruct (countForms (chatBody s)) eqn:E; [reflexivity|].
    assert (Ht : hasLeadForm (chatBody s) = true)
      by (apply countForms_hasLeadForm; lia).
    congruence. }
  assert (H : leadClosed (run s actions)).
  { unfold run. revert s H0 Hs Hf. induction actions as [|a actions IH];
      intros s H0 _ _; [exact H0|].
    cbn [forallb] in Hk. apply andb_true_iff in Hk. destruct Hk as [Ha Hk].
    cbn [fold_left]. assert (H1 : leadClosed (step s a))
      by (apply handler_leadClosed; assumption).
    apply (IH Hk (step s a) H1); [apply H1|].
    destruct (hasLeadForm (chatBody (step s a))) eqn:E; [|reflexivity].
    apply countForms_hasLeadForm in E. destruct H1 as [_ H1]. lia. }
  destruct H as [H1 H2]. split; [exact H1|].
  destruct (hasLeadForm (chatBody (run s actions))) eqn:E; [|reflexivity].
  apply countForms_hasLeadForm in E. lia.
Qed.

(** ** The end of a chat *)

Lemma handler_ended (L : list FetchCall) (a : Action) :
  keepsEnded a = true -> preserves (endedWith L) (handler a).
Proof.
  intros Hk.
  assert (Hsend : forall response, preserves (endedWith L) (sendMessage response)).
  { intros response s [H1 H2]. unfold sendMessage, bind, get. rewrite H1.
    split; assumption. }
  assert (Happ : forall role text html,
             preserves (endedWith L) (appendMessage role text html)).
  { apply appendMessage_preserves. intros s n _ H. exact H. }
  destruct a; try discriminate Hk; cbn [handler].
  - apply preserves_modify. intros s H. exact H.
  - apply Hsend.
  - preserve; first [ apply Hsend | intros s1 H1; exact H1 ].
  - unfold openChat, renderSuggestions, appendChild. preserve; intros s1 H1; exact H1.
  - unfold dismissLeadForm. preserve; intros s1 H1; exact H1.
  - unfold handleLeadSubmit, logFetch.
    preserve; first [ apply Happ | intros s1 H1; first [ exact H1 | idtac ] ].
    destruct H1 as [H1 H2]. split; [exact H1|].
    cbn [fetchLog set_fetchLog]. unfold chatRequests in *.
    rewrite filter_app. cbn. rewrite app_nil_r. exact H2.
  - unfold specialistClick, openChat, renderSuggestions, renderLeadForm, appendChild.
    preserve; intros s1 H1; exact H1.
  - unfold handleRating. preserve; intros s1 H1; exact H1.
  - unfold endChatSession. preserve; intros s1 H1;
      first [exact H1 | split; [reflexivity | apply H1]].
Qed.

(** X10. An ended chat stays ended until it is reset: no action other
    than a reset clears [chatEnded], and none of them posts a request
    to the chat endpoint (a lead form that is still shown can be
    submitted; that request goes to the lead endpoint). *)
Theorem ended_chat_stays_ended (s : Session) (actions : list Action) :
  chatEnded s = true ->
  forallb keepsEnded actions = true ->
  chatEnded (run s actions) = true
  /\ chatRequests (fetchLog (run s actions)) = chatRequests (fetchLog s).
Proof.
  intros He Hk.
  assert (H0 : endedWith (chatRequests (fetchLog s)) s) by (split; [exact He | reflexivity]).
  clear He. revert H0. generalize (chatRequests (fetchLog s)) as L. intros L.
  unfold run. revert s. induction actions as [|a actions IH]; intros s H0; [exact H0|].
  cbn [forallb] in Hk. apply andb_true_iff in Hk. destruct Hk as [Ha Hk].
  cbn [fold_left]. apply (IH Hk). apply handler_ended; assumption.
Qed.

(** ** The typing indicator *)

Lemma sendMessage_typing (response : ChatResponse) :
  preserves (fun x => typingShown x = false) (sendMessage response).
Proof.
  intros s H.
  destruct (chatEnded s) eqn:He.
  { unfold sendMessage, bind, get. rewrite He. exact H. }
  destruct unconfigured eqn:Hc.
  { unfold sendMessage, bind, get. rewrite He, Hc.
    apply (appendMessage_preserves (fun x => typingShown x = false)); [|exact H].
    intros s0 n _ H0. exact H0. }
  destruct (nonEmpty (trim (chatInput_value s))) eqn:Hm.
  2:{ unfold sendMessage, bind, get. rewrite He, Hc, Hm. exact H. }
  rewrite (sendMessage_proceeds response s He Hc Hm). unfold tryFinally.
  destruct (tryCatch (requestReply (trim (chatInput_value s)) response)
              (appendMessage assistant (JStr apology) false)
              (snd (beginSend (trim (chatInput_value s)) s))) as [c s2].
  cbn [snd]. apply showTyping_false_hides.
Qed.

(** X11. The typing indicator is never left showing: [sendMessage] hides
    it in its [finally], whatever the response and however the handling
    of the reply ends, and nothing else shows it, so after every action
    of every session it is hidden. *)
Theorem typing_indicator_never_left_showing (src : IdSource) (actions : list Action) :
  typingShown (run (initialSession src) actions) = false.
Proof.
  set (P := fun x : Session => typingShown x = false).
  assert (Hhandler : forall a, preserves P (handler a)).
  { intros a. destruct a; cbn [handler].
    - apply preserves_modify. intros s H. exact H.
    - apply sendMessage_typing.
    - preserve; first [apply sendMessage_typing | intros s1 H1; exact H1].
    - unfold resetChat, saveConversation, openChat, renderSuggestions, appendChild.
      preserve; intros s1 H1; exact H1.
    - unfold openChat, renderSuggestions, appendChild. preserve; intros s1 H1; exact H1.
    - unfold dismissLeadForm. preserve; intros s1 H1; exact H1.
    - unfold handleLeadSubmit, logFetch.
      preserve; first [ apply (appendMessage_preserves P); intros s1 n _ H1; exact H1
                      | intros s1 H1; exact H1 ].
    - unfold specialistClick, openChat, renderSuggestions, renderLeadForm, appendChild.
      preserve; intros s1 H1; exact H1.
    - unfold handleRating. preserve; intros s1 H1; exact H1.
    - unfold endChatSession. preserve; intros s1 H1; exact H1. }
  unfold run. assert (Hinit : P (initialSession src)) by reflexivity.
  revert Hinit. generalize (initialSession src).
  induction actions as [|a actions IH]; intros s Hs; [exact Hs|].
  cbn [fold_left]. apply IH. apply Hhandler, Hs.
Qed.

(** ** The end of a stream *)

Lemma split_nl_no_newline (tail : jstring) : ~ In 10 tail -> split_nl tail = [tail].
Proof.
  induction tail as [|c tail IH]; intros Hn; [reflexivity|].
  cbn [split_nl]. destruct (c =? 10) eqn:E.
  - exfalso. apply Hn. left. apply Z.eqb_eq in E. exact E.
  - rewrite IH; [reflexivity|]. intros Hin. apply Hn. right. exact Hin.
Qed.

Lemma split_nl_unterminated (pre tail : jstring) :
  pre = [] \/ (exists p, pre = p ++ [10]) -> ~ In 10 tail ->
  split_nl (pre ++ tail) = removelast (split_nl pre) ++ [tail].
Proof.
  intros Hpre Hn. rewrite split_nl_app, (split_nl_aligned pre Hpre).
  cbn [app]. rewrite (split_nl_no_newline tail Hn). reflexivity.
Qed.

Lemma readChunks_buffer {S : Type} (consume : JsValue -> S -> S)
  (chunks : list (list Byte.byte)) (st : S) :
  r_buffer (readChunks JSON_parse consume chunks st)
  = last (split_nl (streamText chunks)) [].
Proof. rewrite readChunks_concat. reflexivity. Qed.

(** X12. The read loop never parses what follows the last newline: when
    the stream ends, the text after the last newline (an event the backend
    did not terminate, a complete result event included) is still in the
    buffer and is dropped with it.  The events and the state a consumer
    ends in are those of the text up to the last newline. *)
Theorem unterminated_last_line_is_dropped (chunks : list (list Byte.byte))
  (pre tail : jstring) :
  streamText chunks = pre ++ tail ->
  pre = [] \/ (exists p, pre = p ++ [10]) ->
  ~ In 10 tail ->
  streamEvents JSON_parse chunks = lineEvents JSON_parse pre
  /\ forall (S : Type) (consume : JsValue -> S -> S) (st : S),
       r_buffer (readChunks JSON_parse consume chunks st) = tail
       /\ r_state (readChunks JSON_parse consume chunks st)
          = fold_left (fun st event => consume event st) (lineEvents JSON_parse pre) st.
Proof.
  intros Htext Hpre Hn.
  assert (Hsplit := split_nl_unterminated pre tail Hpre Hn).
  assert (Hev : streamEvents JSON_parse chunks = lineEvents JSON_parse pre).
  { rewrite streamEvents_lineEvents, Htext. unfold lineEvents.
    rewrite Hsplit, removelast_last. reflexivity. }
  split; [exact Hev|]. intros S consume st. split.
  - rewrite readChunks_buffer, Htext, Hsplit. apply last_last.
  - rewrite readChunks_events, Hev. reflexivity.
Qed.

(** ** Streams without a reply *)

Lemma onEvent_not_result (event : JsValue) (s : Session) :
  isResultEvent event = false -> onEvent event s = s.
Proof.
  unfold isResultEvent, onEvent, exec, tryCatch, handleEvent, bind, liftE, ret, throw.
  destruct (member event k_type) as [type|]; [|reflexivity].
  intros H. destruct (strictEqStr type (lit "status")); [reflexivity|].
  rewrite H. reflexivity.
Qed.

Lemma onEvents_not_result (events : list JsValue) (s : Session) :
  forallb (fun event => negb (isResultEvent event)) events = true ->
  fold_left (fun st event => onEvent event st) events s = s.
Proof.
  induction events as [|e events IH]; intros H; [reflexivity|].
  cbn [forallb] in H. apply andb_true_iff in H. destruct H as [He H].
  cbn [fold_left]. rewrite onEvent_not_result by (apply negb_true_iff, He).
  apply IH, H.
Qed.

(** X13. In the streaming build a stream that ends without a result event
    (only status and error events, lines that do not parse, or nothing at
    all) is answered with silence: the send completes normally, the
    transcript holds the visitor's message and nothing after it (no reply
    and no apology), and the session is the one [beginSend] left, with the
    request logged and the typing indicator hidden. *)
Theorem stream_without_result_is_silent (chunks : list (list Byte.byte)) (s : Session) :
  build = Streaming ->
  chatEnded s = false ->
  nonEmpty (trim (chatInput_value s)) = true ->
  forallb (fun event => negb (isResultEvent event)) (streamEvents JSON_parse chunks) = true ->
  sendMessage (HttpResponse true (Some (chunks, StreamDone))) s
  = (Normal tt,
     set_typingShown false
       (set_fetchLog
          (fetchLog (exec (beginSend (trim (chatInput_value s))) s)
           ++ [ChatRequest None
                 (conversationId (exec (beginSend (trim (chatInput_value s))) s))
                 (trim (chatInput_value s)) sheetId])
          (exec (beginSend (trim (chatInput_value s))) s))).
Proof.
  intros Hb He Hm Hev.
  assert (Hc : unconfigured = false) by (unfold unconfigured; rewrite Hb; reflexivity).
  rewrite (sendMessage_proceeds _ s He Hc Hm). unfold exec.
  set (message := trim (chatInput_value s)).
  pose proof (beginSend_bubble_ready message s) as Hbubble.
  destruct Hbubble as [Hp | Hbubble]; [congruence|].
  set (s1 := snd (beginSend message s)) in *.
  unfold tryFinally, tryCatch, requestReply, bind, get, logFetch, modify.
  cbn [fst snd negb]. rewrite Hb. unfold readStream.
  rewrite readChunks_events, (onEvents_not_result _ _ Hev).
  rewrite showTyping_false_eq by (right; exact Hbubble). reflexivity.
Qed.

(** X14. In the streaming build a result event whose reply is a truthy
    value that is no string (a number, an array, an object) loses its
    turn: the renderer's [cleaned.replace] throws, the [catch] around the
    line swallows it, and what remains is the conversation id the event
    brought.  No bubble is appended and the routing signal and the profile
    of the event are not looked at. *)
Theorem non_string_reply_drops_turn (event data id reply : JsValue) (s : Session) :
  build = Streaming ->
  member event k_type = Some (JStr (lit "result")) ->
  member event k_data = Some data ->
  member data k_conversation_id = Some id ->
  member data k_reply = Some reply ->
  truthy reply = true -> isString reply = false ->
  handleResult data s = (Thrown, set_conversationId id s)
  /\ onEvent event s = set_conversationId id s.
Proof.
  intros Hb Ht Hd Hi Hr Htr Hs.
  assert (H : handleResult data s = (Thrown, set_conversationId id s)).
  { unfold handleResult, saveConversation, bind, modify. rewrite Hi, Hr. cbn [liftE ret].
    cbn [fst snd]. unfold appendMessage. rewrite Hb.
    unfold renderAssistantMessage. rewrite (jsOr_truthy_l _ _ Htr).
    destruct reply; try discriminate Hs; reflexivity. }
  split; [exact H|].
  unfold onEvent, exec, tryCatch, handleEvent, bind. rewrite Ht, Hd. cbn [liftE ret].
  cbn [fst snd]. replace (strictEqStr (JStr (lit "result")) (lit "status")) with false
    by (vm_compute; reflexivity).
  replace (strictEqStr (JStr (lit "result")) (lit "result")) with true
    by (vm_compute; reflexivity).
  rewrite H. reflexivity.
Qed.

(** ** Text without image or card tags *)

Lemma imgTagReplace_none (t : jstring) :
  occurs s_image_open t = false -> imgTagReplace t 0 = (t, []).
Proof.
  induction t as [|c t IH]; intros H; [reflexivity|].
  cbn [occurs] in H. cbn [imgTagReplace]. unfold matchImgTag.
  destruct (matchCI s_image_open (c :: t)); [discriminate H|].
  rewrite (IH H). reflexivity.
Qed.

Lemma cardTagReplace_none (t : jstring) :
  occurs s_card_open t = false -> cardTagReplace t 0 = t.
Proof.
  induction t as [|c t IH]; intros H; [reflexivity|].
  cbn [occurs] in H. cbn [cardTagReplace]. unfold matchCardTag.
  destruct (matchCI s_card_open (c :: t)); [discriminate H|].
  rewrite (IH H). reflexivity.
Qed.

(** X15. The renderer escapes nothing: a reply in which neither [<image]
    nor [<listing-card] occurs (in any case of the letters) becomes the
    bubble's [innerHTML] as it is, trimmed and, unless the caller asks for
    HTML, with its newlines turned into [<br>]; any other markup in the
    reply reaches the document unchanged. *)
Theorem markup_passes_unescaped (t : jstring) (html : bool) :
  occurs s_image_open t = false ->
  occurs s_card_open t = false ->
  renderAssistantMessage (JStr t) html
  = Some (Bubble assistant
            (InnerHTML (JStr (if html then trim t else newlinesToBr (trim t))))).
Proof.
  intros Hi Hc. unfold renderAssistantMessage, jsOr.
  destruct t as [|c t]; [reflexivity|]. cbn [truthy].
  replace (truthy (JStr (c :: t))) with true by reflexivity.
  rewrite (imgTagReplace_none _ Hi). cbn [fst].
  rewrite (cardTagReplace_none _ Hc). reflexivity.
Qed.

(** ** Attribute strings *)

Lemma parseAttrs_skip (a rest : jstring) (attrs : Attrs) :
  parseAttrs (a ++ rest) (List.length a) attrs = parseAttrs rest 0 attrs.
Proof.
  induction a as [|c a IH]; [|exact IH].
  destruct rest; reflexivity.
Qed.

Lemma matchKeyValue_attr (k v rest : jstring) :
  validAttr (k, v) ->
  matchKeyValue (k ++ [61; 34] ++ v ++ [34] ++ rest) = Some (k, v, rest).
Proof.
  intros (Hne & Hk & Hv). cbn [fst snd] in *. unfold matchKeyValue.
  cbn [app]. rewrite (span_stop isWordChar k 61 _ Hk) by reflexivity.
  cbn [fst snd]. rewrite Hne.
  rewrite (span_stop notQuote v 34 rest Hv) by reflexivity. reflexivity.
Qed.

Lemma attrSource_app (k v rest : jstring) :
  attrSource (k, v) ++ rest = 32 :: k ++ 61 :: 34 :: v ++ 34 :: rest.
Proof.
  unfold attrSource. cbn [fst snd app]. rewrite <- !app_assoc. cbn [app].
  rewrite <- !app_assoc. reflexivity.
Qed.

Lemma parseAttrs_attrSource (kv : jstring * jstring) (rest : jstring) (attrs : Attrs) :
  validAttr kv ->
  parseAttrs (attrSource kv ++ rest) 0 attrs
  = parseAttrs rest 0 (attrSet (fst kv) (snd kv) attrs).
Proof.
  destruct kv as [k v]. intros Hv. pose proof Hv as (Hne & Hk & Hq). cbn [fst snd] in *.
  rewrite attrSource_app. cbn [parseAttrs].
  replace (matchKeyValue (32 :: k ++ 61 :: 34 :: v ++ 34 :: rest)) with
    (@None (jstring * jstring * jstring)) by reflexivity.
  assert (Hm := matchKeyValue_attr k v rest Hv). cbn [app] in Hm.
  destruct k as [|c k]; [discriminate Hne|].
  cbn [app] in *. cbn [parseAttrs]. rewrite Hm.
  replace (Nat.sub (List.length (k ++ 61 :: 34 :: v ++ 34 :: rest)) (List.length rest))
    with (List.length (k ++ 61 :: 34 :: v ++ [34])).
  - replace (k ++ 61 :: 34 :: v ++ 34 :: rest) with ((k ++ 61 :: 34 :: v ++ [34]) ++ rest).
    + apply parseAttrs_skip.
    + rewrite <- app_assoc. cbn [app]. rewrite <- app_assoc. reflexivity.
  - rewrite !length_app. cbn [List.length]. rewrite !length_app. cbn [List.length]. lia.
Qed.

Lemma parseAttrs_sources (kvs : list (jstring * jstring)) (attrs : Attrs) :
  Forall validAttr kvs ->
  parseAttrs (List.concat (map attrSource kvs)) 0 attrs
  = rev (filter storable kvs) ++ attrs.
Proof.
  intros H. revert attrs. induction H as [|kv kvs Hkv _ IH]; intros attrs; [reflexivity|].
  cbn [map List.concat filter]. rewrite (parseAttrs_attrSource kv _ attrs Hkv), IH.
  unfold attrSet, storable. destruct (jstr_eqb (fst kv) k_proto); cbn [negb];
    [reflexivity|].
  cbn [rev]. rewrite <- app_assoc. destruct kv. reflexivity.
Qed.

Lemma attrGet_None (k : jstring) (l : Attrs) :
  attrGet k l = None <-> ~ In k (map fst l).
Proof.
  induction l as [|[k' v'] l IH]; cbn [attrGet map In fst].
  - split; [intros _ [] | reflexivity].
  - destruct (jstr_eqb k k') eqn:Ek.
    + apply jstr_eqb_eq in Ek. split; [discriminate|]. intros Hn. exfalso. apply Hn.
      left. symmetry. exact Ek.
    + split.
      * intros Hn [Hk | Hin]; [|exact (proj1 IH Hn Hin)].
        subst k'. rewrite jstr_eqb_refl in Ek. discriminate.
      * intros Hn. apply IH. intros Hin. apply Hn. right. exact Hin.
Qed.

Lemma stored_keys (k : jstring) (kvs : list (jstring * jstring)) :
  In k (map fst (rev (filter storable kvs))) ->
  In k (map fst kvs) /\ jstr_eqb k k_proto = false.
Proof.
  intros H. apply in_map_iff in H. destruct H as ([k' v] & Hk & Hin).
  cbn [fst] in Hk. subst k'. apply in_rev, filter_In in Hin. destruct Hin as [Hin Hs].
  split.
  - apply in_map_iff. exists (k, v). split; [reflexivity | exact Hin].
  - unfold storable in Hs. cbn [fst] in Hs. apply negb_true_iff, Hs.
Qed.

(** X16. The attribute loop of a listing card reads back what was written,
    as far as a plain object stores it.  For attributes written as a
    space, a key of word characters, the equals sign and a quoted value
    without quotes inside, the own properties of [attrs] are these keys and
    values, except those named [__proto__], which are not stored; a key
    written more than once reads as the value written last; and a key that
    was not written reads as undefined unless it is a name of
    [Object.prototype], which is there without being written. *)
Theorem parseAttrs_reads_back (kvs : list (jstring * jstring)) :
  Forall validAttr kvs ->
  parseAttrs (List.concat (map attrSource kvs)) 0 [] = rev (filter storable kvs)
  /\ (forall k v kvs',
        kvs = kvs' ++ [(k, v)] -> storable (k, v) = true ->
        attrRead k (parseAttrs (List.concat (map attrSource kvs)) 0 []) = ReadString v)
  /\ (forall k, ~ In k (map fst kvs) ->
        attrRead k (parseAttrs (List.concat (map attrSource kvs)) 0 [])
        = if isInherited k then ReadInherited else ReadUndefined)
  /\ attrRead k_proto (parseAttrs (List.concat (map attrSource kvs)) 0 []) = ReadInherited.
Proof.
  intros H. assert (E := parseAttrs_sources kvs [] H). rewrite app_nil_r in E.
  rewrite E. split; [reflexivity|]. split; [|split].
  - intros k v kvs' -> Hs. rewrite filter_app. cbn [filter]. rewrite Hs.
    rewrite rev_app_distr. unfold attrRead. cbn [rev app attrGet].
    rewrite jstr_eqb_refl. reflexivity.
  - intros k Hn. unfold attrRead.
    replace (attrGet k (rev (filter storable kvs))) with (@None jstring); [reflexivity|].
    symmetry. apply attrGet_None. intros Hin. apply Hn. apply (stored_keys k kvs Hin).
  - unfold attrRead.
    replace (attrGet k_proto (rev (filter storable kvs))) with (@None jstring);
      [reflexivity|].
    symmetry. apply attrGet_None. intros Hin.
    destruct (stored_keys k_proto kvs Hin) as [_ Hp].
    rewrite jstr_eqb_refl in Hp. discriminate Hp.
Qed.

(** ** The figures of a carousel *)

Lemma figuresFrom_src (idx : Z) (images : list Image) :
  map fig_src (figuresFrom idx images) = map img_src images.
Proof.
  revert idx. induction images as [|img images IH]; intros idx; [reflexivity|].
  cbn [figuresFrom map fig_src]. rewrite IH. reflexivity.
Qed.

Lemma figuresFrom_alt (idx : Z) (images : list Image) :
  Forall (fun f => nonEmpty (fig_alt f) = true) (figuresFrom idx images).
Proof.
  revert idx. induction images as [|img images IH]; intros idx; [constructor|].
  cbn [figuresFrom]. constructor; [|apply IH].
  cbn [fig_alt]. destruct (nonEmpty (img_alt img)) eqn:E; [exact E | reflexivity].
Qed.

Lemma figuresFrom_nth (idx : Z) (images : list Image) (n : nat) (img : Image) :
  nth_error images n = Some img ->
  nth_error (figuresFrom idx images) n
  = Some (mkFigure (img_src img)
            (if nonEmpty (img_alt img) then img_alt img
             else s_listing_image ++ [48 + (idx + Z.of_nat n) + 1])
            (if nonEmpty (img_alt img) then Some (img_alt img) else None)).
Proof.
  revert idx n. induction images as [|i images IH]; intros idx n H.
  - destruct n; discriminate H.
  - destruct n as [|n]; cbn [nth_error figuresFrom] in *.
    + injection H as ->. rewrite Z.add_0_r. reflexivity.
    + rewrite (IH (idx + 1) n H).
      replace (idx + 1 + Z.of_nat n) with (idx + Z.of_nat (Datatypes.S n)) by lia.
      reflexivity.
Qed.

(** X17. [buildCarousel] keeps the order of the images it is given, and
    every figure it builds has an alternative text: the image's own, which
    is then also the caption, or [Listing image k] for the image at
    position [k] (counted from 1) when the image has none, and then
    without a caption. *)
Theorem carousel_figures (images : list Image) :
  map fig_src (buildCarousel images) = map img_src (firstn 5 images)
  /\ Forall (fun f => nonEmpty (fig_alt f) = true) (buildCarousel images)
  /\ (forall (n : nat) (img : Image),
        nth_error (firstn 5 images) n = Some img ->
        exists f, nth_error (buildCarousel images) n = Some f
          /\ fig_src f = img_src img
          /\ (nonEmpty (img_alt img) = true ->
              fig_alt f = img_alt img /\ fig_caption f = Some (img_alt img))
          /\ (nonEmpty (img_alt img) = false ->
              fig_alt f = s_listing_image ++ [48 + Z.of_nat n + 1]
              /\ fig_caption f = None)).
Proof.
  unfold buildCarousel. split; [apply figuresFrom_src|]. split; [apply figuresFrom_alt|].
  intros n img H. eexists. split; [apply (figuresFrom_nth 0 _ n img H)|].
  cbn [fig_src fig_alt fig_caption]. split; [reflexivity|].
  split; intros E; rewrite E; split; reflexivity.
Qed.

(** ** The phrase in the typing bubble *)

Lemma occurs_here (w post : jstring) :
  forallb (fun c => toLowerAscii c =? c) w = true -> occurs w (w ++ post) = true.
Proof.
  intros H. pose proof (matchCI_prefix w post H) as E.
  destruct (w ++ post); cbn [occurs]; rewrite E; reflexivity.
Qed.

Lemma occurs_app (w pre s : jstring) : occurs w s = true -> occurs w (pre ++ s) = true.
Proof.
  intros H. induction pre as [|c pre IH]; [exact H|].
  cbn [app occurs]. destruct (matchCI w (c :: pre ++ s)); [reflexivity | exact IH].
Qed.

Lemma testAny_occurrence (words : list jstring) (w pre post : jstring) :
  forallb (fun w => forallb (fun c => toLowerAscii c =? c) w) words = true ->
  In w words -> testAny words (pre ++ w ++ post) = true.
Proof.
  intros Hl Hin. unfold testAny. apply existsb_exists. exists w. split; [exact Hin|].
  apply occurs_app, occurs_here.
  rewrite forallb_forall in Hl. apply Hl, Hin.
Qed.

Lemma pick_in_range (opts : list jstring) (random : Q) :
  opts <> [] -> (0 <= random)%Q -> (random < 1)%Q ->
  exists phrase, pick opts random = Some phrase /\ In phrase opts.
Proof.
  intros Hne H0 H1. unfold pick.
  set (n := Z.of_nat (List.length opts)).
  assert (Hn : 0 < n) by (destruct opts; [congruence | unfold n; cbn [List.length]; lia]).
  set (i := Qfloor (Qmult random (inject_Z n))).
  assert (Hi0 : 0 <= i).
  { change 0 with (Qfloor (inject_Z 0)). apply Qfloor_resp_le.
    apply Qmult_le_0_compat; [exact H0|].
    unfold Qle, inject_Z. cbn [Qnum Qden]. lia. }
  assert (Hi1 : i < n).
  { rewrite Zlt_Qlt. apply Qle_lt_trans with (Qmult random (inject_Z n)).
    - apply Qfloor_le.
    - apply Qlt_le_trans with (Qmult 1 (inject_Z n)).
      + apply Qmult_lt_compat_r; [|exact H1].
        unfold Qlt, inject_Z. cbn [Qnum Qden]. lia.
      + rewrite Qmult_1_l. apply Qle_refl. }
  replace (i <? 0) with false by (symmetry; apply Z.ltb_ge, Hi0).
  destruct (nth_error opts (Z.to_nat i)) as [phrase|] eqn:E.
  - exists phrase. split; [reflexivity|]. eapply nth_error_In, E.
  - apply nth_error_None in E. unfold n in Hi1. lia.
Qed.

(** X18. [getTypingFlavor] always returns one of its phrases, never
    undefined, and the first category whose words occur wins: a text in
    which a search word occurs anywhere, inside another word or next to
    booking or contact words, gets a search phrase; a booking word
    decides only when no search word occurs, and a contact word only when
    neither occurs. *)
Theorem typing_flavor_categories (text : jstring) (random : Q) :
  (0 <= random)%Q -> (random < 1)%Q ->
  exists phrase,
    getTypingFlavor text random = Some phrase
    /\ In phrase (searchPhrases ++ bookingPhrases ++ contactPhrases ++ defaultPhrases)
    /\ (forall w pre post,
          In w searchWords -> toLowerCase text = pre ++ w ++ post ->
          In phrase searchPhrases)
    /\ (testAny searchWords (toLowerCase text) = false ->
        forall w pre post,
          In w bookingWords -> toLowerCase text = pre ++ w ++ post ->
          In phrase bookingPhrases)
    /\ (testAny searchWords (toLowerCase text) = false ->
        testAny bookingWords (toLowerCase text) = false ->
        forall w pre post,
          In w contactWords -> toLowerCase text = pre ++ w ++ post ->
          In phrase contactPhrases)
    /\ (testAny searchWords (toLowerCase text) = false ->
        testAny bookingWords (toLowerCase text) = false ->
        testAny contactWords (toLowerCase text) = false ->
        In phrase defaultPhrases).
Proof.
  intros H0 H1. unfold getTypingFlavor.
  destruct (pick_in_range searchPhrases random ltac:(discriminate) H0 H1) as (p1 & E1 & I1).
  destruct (pick_in_range bookingPhrases random ltac:(discriminate) H0 H1) as (p2 & E2 & I2).
  destruct (pick_in_range contactPhrases random ltac:(discriminate) H0 H1) as (p3 & E3 & I3).
  destruct (pick_in_range defaultPhrases random ltac:(discriminate) H0 H1) as (p4 & E4 & I4).
  assert (Ls : forall w pre post, In w searchWords ->
                 testAny searchWords (pre ++ w ++ post) = true)
    by (intros; apply testAny_occurrence; [reflexivity | assumption]).
  assert (Lb : forall w pre post, In w bookingWords ->
                 testAny bookingWords (pre ++ w ++ post) = true)
    by (intros; apply testAny_occurrence; [reflexivity | assumption]).
  assert (Lc : forall w pre post, In w contactWords ->
                 testAny contactWords (pre ++ w ++ post) = true)
    by (intros; apply testAny_occurrence; [reflexivity | assumption]).
  destruct (testAny searchWords (toLowerCase text)) eqn:Ts.
  { exists p1. split; [exact E1|]. split; [apply in_or_app; left; exact I1|].
    split; [intros; exact I1|]. repeat split; discriminate. }
  destruct (testAny bookingWords (toLowerCase text)) eqn:Tb.
  { exists p2. split; [exact E2|].
    split; [apply in_or_app; right; apply in_or_app; left; exact I2|].
    split; [intros w pre post Hw E; rewrite E, (Ls w pre post Hw) in Ts; discriminate|].
    split; [intros; exact I2|]. repeat split; discriminate. }
  destruct (testAny contactWords (toLowerCase text)) eqn:Tc.
  { exists p3. split; [exact E3|].
    split; [do 2 (apply in_or_app; right); apply in_or_app; left; exact I3|].
    split; [intros w pre post Hw E; rewrite E, (Ls w pre post Hw) in Ts; discriminate|].
    split; [intros _ w pre post Hw E; rewrite E, (Lb w pre post Hw) in Tb; discriminate|].
    split; [intros; exact I3 | discriminate]. }
  exists p4. split; [exact E4|].
  split; [do 3 (apply in_or_app; right); exact I4|].
  split; [intros w pre post Hw E; rewrite E, (Ls w pre post Hw) in Ts; discriminate|].
  split; [intros _ w pre post Hw E; rewrite E, (Lb w pre post Hw) in Tb; discriminate|].
  split; [intros _ _ w pre post Hw E; rewrite E, (Lc w pre post Hw) in Tc; discriminate|].
  intros; exact I4.
Qed.

(** ** The base of the backend's address *)

Lemma stripTrailingSlash_blank (s : jstring) :
  s = [] \/ s = [47] -> stripTrailingSlash s = [].
Proof. intros [-> | ->]; reflexivity. Qed.

(** X19. The base address is never empty: a configured base counts only
    when something is left of it after trimming and dropping one slash at
    its end; otherwise the page's origin is taken when it starts with
    [http], and the deployed backend when it does not.  A configured base
    that is blank or a lone slash is the same as none. *)
Theorem api_base_never_empty (RM_API_BASE : JsValue) (origin base : jstring) :
  API_BASE RM_API_BASE origin = Some base ->
  nonEmpty base = true
  /\ (forall s, RM_API_BASE = JStr s -> trim s = [] \/ trim s = [47] ->
        API_BASE RM_API_BASE origin = API_BASE JUndefined origin)
  /\ (API_BASE JUndefined origin
      = Some (if startsWith origin (lit "http") then origin else fallbackBase)).
Proof.
  intros H. split; [|split].
  - unfold API_BASE in H. destruct (toStringThrows _); [discriminate|].
    injection H as <-.
    destruct (nonEmpty (stripTrailingSlash _)) eqn:E; [exact E|].
    destruct (nonEmpty origin && startsWith origin (lit "http")) eqn:E2; [|reflexivity].
    apply andb_true_iff in E2. apply E2.
  - intros s -> Hs. unfold API_BASE, jsOr.
    destruct s as [|c s]; [reflexivity|].
    replace (truthy (JStr (c :: s))) with true by reflexivity.
    cbn [truthy toStringThrows]. rewrite (stripTrailingSlash_blank _ Hs). reflexivity.
  - unfold API_BASE, jsOr. cbn [truthy toStringThrows].
    replace (stripTrailingSlash (trim [])) with (@nil Z) by reflexivity.
    cbn [nonEmpty]. destruct origin as [|c o]; reflexivity.
Qed.

(** ** The form and its lead meta *)

Lemma countForms_zero (body : list Node) (f : LeadForm) :
  countForms body = 0%nat -> ~ In (LeadFormNode f) body.
Proof.
  intros H Hin. unfold countForms in H.
  assert (Hf : In (LeadFormNode f) (filter isLeadFormNode body))
    by (apply filter_In; split; [exact Hin | reflexivity]).
  destruct (filter isLeadFormNode body); [exact Hf | discriminate H].
Qed.

Lemma removeFirst_In (p : Node -> bool) (body : list Node) (n : Node) :
  In n (removeFirst p body) -> In n body.
Proof.
  induction body as [|x body IH]; [intros []|].
  cbn [removeFirst]. destruct (p x); [intros H; right; exact H|].
  intros [H | H]; [left; exact H | right; apply IH, H].
Qed.

Lemma removeFirstLeadForm_In (body : list Node) (n : Node) :
  In n (removeFirstLeadForm body) -> In n body.
Proof.
  induction body as [|x body IH]; [intros []|].
  cbn [removeFirstLeadForm]. destruct (isLeadFormNode x); [intros H; right; exact H|].
  intros [H | H]; [left; exact H | right; apply IH, H].
Qed.

Lemma removeFormAt_In (i : nat) (body : list Node) (n : Node) :
  In n (removeFormAt i body) -> In n body.
Proof.
  revert i. induction body as [|x body IH]; intros i; [destruct i; intros []|].
  destruct i as [|i]; cbn [removeFormAt].
  - destruct (isLeadFormNode x); [intros H; right; exact H | intros H; exact H].
  - intros [H | H]; [left; exact H | right; apply (IH i), H].
Qed.

Lemma countForms_removeFormAt (i : nat) (body : list Node) :
  (countForms (removeFormAt i body) <= countForms body)%nat.
Proof.
  revert i. induction body as [|x body IH]; intros i; [destruct i; apply le_n|].
  destruct i as [|i]; cbn [removeFormAt]; unfold countForms in *.
  - destruct (isLeadFormNode x) eqn:E; cbn [filter]; rewrite ?E; cbn [List.length]; lia.
  - specialize (IH i). cbn [filter]. destruct (isLeadFormNode x); cbn [List.length]; lia.
Qed.

(** While the form that was submitted is the only one in the chat body,
    [form.remove()] removes the first form. *)
Lemma removeFormAt_formIndex (body : list Node) :
  removeFormAt (formIndex body) body = removeFirstLeadForm body.
Proof.
  induction body as [|x body IH]; [reflexivity|].
  cbn [formIndex removeFirstLeadForm]. destruct (isLeadFormNode x) eqn:E.
  - cbn [removeFormAt]. rewrite E. reflexivity.
  - cbn [removeFormAt]. rewrite IH. reflexivity.
Qed.

Lemma formsKnown_none (s : Session) :
  countForms (chatBody s) = 0%nat -> formsKnown s.
Proof.
  intros H. split; [lia | split; [|split]].
  - intros Hf. apply countForms_hasLeadForm in Hf. lia.
  - intros f Hin. destruct (countForms_zero _ f H Hin).
  - intros _. exact H.
Qed.

Lemma formsKnown_submitted (s : Session) :
  leadSubmitted s = true -> countForms (chatBody s) = 0%nat \/ build = Plain ->
  (countForms (chatBody s) <= 1)%nat -> formsKnown s.
Proof.
  intros Hs Hb H. split; [exact H | split; [|split]].
  - intros _ Hn. congruence.
  - intros f _ Hn. congruence.
  - intros Hstr. destruct Hb as [H0 | Hp]; [exact H0 | congruence].
Qed.

(** Taking children out of the chat body, or adding children that are no
    forms, keeps what is known of the forms. *)
Lemma formsKnown_body (s : Session) (body : list Node) :
  (countForms body <= countForms (chatBody s))%nat ->
  (forall f, In (LeadFormNode f) body -> In (LeadFormNode f) (chatBody s)) ->
  formsKnown s -> formsKnown (set_chatBody body s).
Proof.
  intros Hc Hin (H1 & H2 & H3 & H4).
  split; [|split; [|split]];
    cbn [chatBody set_chatBody leadSubmitted leadFormVisible pendingLeadMeta].
  - lia.
  - intros Hf Hs. apply H2; [|exact Hs].
    apply countForms_hasLeadForm. apply countForms_hasLeadForm in Hf. lia.
  - intros f Hf Hs. exact (H3 f (Hin f Hf) Hs).
  - intros Hb. specialize (H4 Hb). lia.
Qed.

Lemma formsKnown_append (s : Session) (n : Node) :
  isLeadFormNode n = false -> formsKnown s ->
  formsKnown (set_chatBody (chatBody s ++ [n]) s).
Proof.
  intros Hn. apply formsKnown_body.
  - rewrite countForms_app. assert (H0 : countForms [n] = 0%nat)
      by (unfold countForms; cbn [filter]; rewrite Hn; reflexivity).
    lia.
  - intros f Hin. apply in_app_or in Hin. destruct Hin as [Hin | [Hf | []]]; [exact Hin|].
    rewrite Hf in Hn. discriminate Hn.
Qed.

Lemma formsKnown_removeFirst (p : Node -> bool) (s : Session) :
  (forall n, p n = true -> isLeadFormNode n = false) -> formsKnown s ->
  formsKnown (set_chatBody (removeFirst p (chatBody s)) s).
Proof.
  intros Hp. apply formsKnown_body.
  - rewrite countForms_removeFirst by exact Hp. apply le_n.
  - intros f Hin. eapply removeFirst_In, Hin.
Qed.

Lemma appendMessage_formsKnown (role : Role) (text : JsValue) (html : bool) :
  preserves formsKnown (appendMessage role text html).
Proof. apply (appendMessage_preserves formsKnown formsKnown_append). Qed.

Lemma showTyping_formsKnown (show : bool) : preserves formsKnown (showTyping show).
Proof.
  unfold showTyping, appendChild. preserve; intros s0 H0;
    first [ exact H0
          | apply formsKnown_append; [reflexivity | exact H0]
          | apply formsKnown_removeFirst; [exact isChips_not_form | exact H0]
          | exact (formsKnown_append _ TypingBubbleNode eq_refl
                     (formsKnown_removeFirst isTypingNode s0
                        isTypingNode_not_form H0)) ].
Qed.

Lemma openChat_formsKnown : preserves formsKnown openChat.
Proof.
  unfold openChat, renderSuggestions, appendChild. preserve; intros s0 H0;
    first [ apply formsKnown_removeFirst; [exact isChips_not_form | exact H0]
          | apply formsKnown_append; [reflexivity | exact H0] ].
Qed.

Lemma removeFirstLeadForm_none (s : Session) :
  formsKnown s -> countForms (removeFirstLeadForm (chatBody s)) = 0%nat.
Proof. intros [H _]. rewrite countForms_removeFirstLeadForm. lia. Qed.

(** [renderLeadForm] takes the old form out before it appends the new one
    and sets the flag and the lead meta with it; when it throws on the way
    no form is left. *)
Lemma renderLeadForm_formsKnown (routing : JsValue) (force : bool) (profile : JsValue) :
  build = Plain -> preserves formsKnown (renderLeadForm routing force profile).
Proof.
  intros Hb s H. pose proof (removeFirstLeadForm_none s H) as H0.
  unfold renderLeadForm, bind, get, modify, appendChild, liftE, ret, throw.
  destruct (leadFormVisible s && negb force); [exact H|].
  repeat match goal with
         | |- context [orElse ?a ?b] =>
           let o := fresh "o" in
           set (o := orElse a b); destruct o; cbn [snd fst]
         end;
    try (apply formsKnown_none; exact H0).
  destruct (formMarkupOk _ _ _); cbn [snd]; [|apply formsKnown_none; exact H0].
  unfold formsKnown, modify.
  cbn [snd fst chatBody pendingLeadMeta leadFormVisible leadSubmitted set_chatBody
       set_leadFormVisible set_pendingLeadMeta].
  split; [|split; [|split]].
  - rewrite countForms_app, H0. cbn. lia.
  - intros _ _. reflexivity.
  - intros f Hin _. apply in_app_or in Hin. destruct Hin as [Hin | [Hf | []]].
    + destruct (countForms_zero _ f H0 Hin).
    + injection Hf as <-. eexists. split; reflexivity.
  - intros Hs. congruence.
Qed.

Lemma handleRouting_formsKnown (routing profile : JsValue) :
  build = Plain -> preserves formsKnown (handleRouting routing profile).
Proof.
  intros Hb. unfold handleRouting, updateProfilePanel.
  preserve; first [apply (renderLeadForm_formsKnown _ _ _ Hb) | intros s0 H0; exact H0].
Qed.

Lemma handleResult_formsKnown (data : JsValue) : preserves formsKnown (handleResult data).
Proof.
  unfold handleResult, saveConversation, scheduleEnd.
  destruct build eqn:Hb;
    preserve; first [ apply appendMessage_formsKnown
                    | apply (handleRouting_formsKnown _ _ Hb)
                    | intros s0 H0; exact H0 ].
Qed.

Lemma handleEvent_formsKnown (event : JsValue) : preserves formsKnown (handleEvent event).
Proof.
  unfold handleEvent.
  preserve; first [apply handleResult_formsKnown | intros s0 H0; exact H0].
Qed.

Lemma sendMessage_start_formsKnown : preserves formsKnown sendMessage_start.
Proof.
  unfold sendMessage_start, beginSend, logFetch.
  preserve; first [ apply appendMessage_formsKnown | apply showTyping_formsKnown
                  | intros s0 H0; exact H0 ].
Qed.

Lemma sendMessage_formsKnown (response : ChatResponse) :
  preserves formsKnown (sendMessage response).
Proof.
  unfold sendMessage, beginSend, requestReply, logFetch.
  preserve; first [ apply appendMessage_formsKnown | apply showTyping_formsKnown
                  | apply handleResult_formsKnown
                  | apply readStream_preserves, handleEvent_formsKnown
                  | intros s0 H0; exact H0 ].
Qed.

Lemma dismissLeadForm_formsKnown : preserves formsKnown dismissLeadForm.
Proof.
  intros s H. apply formsKnown_none. cbn. apply removeFirstLeadForm_none, H.
Qed.

Lemma resetChat_formsKnown (src : IdSource) : preserves formsKnown (resetChat src).
Proof.
  intros s _. unfold resetChat, saveConversation, bind, modify. cbn [snd fst].
  apply openChat_formsKnown. apply formsKnown_none. reflexivity.
Qed.

(** An accepted lead takes the submitted form out if it is still there,
    and leaves whatever form has come up since. *)
Lemma handleLeadSubmit_accepted_formsKnown (form : option nat) :
  build = Plain -> preserves formsKnown (handleLeadSubmit_accepted form).
Proof.
  intros Hb. unfold handleLeadSubmit_accepted.
  apply preserves_tryCatch; [|apply preserves_modify; intros s H; exact H].
  intros s H. unfold bind, modify. cbn [snd fst].
  apply appendMessage_formsKnown. apply formsKnown_submitted.
  - reflexivity.
  - right. exact Hb.
  - cbn [chatBody set_pendingLeadMeta set_leadSubmitted set_leadFormVisible set_chatBody].
    destruct H as [H _]. destruct form as [i|]; cbn [removeForm]; [|exact H].
    pose proof (countForms_removeFormAt i (chatBody s)). lia.
Qed.

Lemma handleLeadSubmit_formsKnown (name email phone : jstring) (response : LeadResponse) :
  preserves formsKnown (handleLeadSubmit name email phone response).
Proof.
  unfold handleLeadSubmit, logFetch.
  destruct (negb (nonEmpty BUSINESS_ID)); [apply appendMessage_formsKnown|].
  destruct (negb (nonEmpty (trim name))); [apply preserves_modify; intros s H; exact H|].
  destruct (negb (nonEmpty (trim email)) && negb (nonEmpty (trim phone)));
    [apply preserves_modify; intros s H; exact H|].
  apply preserves_tryCatch; [|apply preserves_modify; intros s H; exact H].
  apply preserves_bind; [apply preserves_get|]. intros s0.
  apply preserves_bind; [apply preserves_modify; intros s H; exact H|]. intros _.
  destruct response as [|ok]; [apply preserves_throw|].
  destruct (negb ok); [apply preserves_throw|].
  intros s H. pose proof (removeFirstLeadForm_none s H) as H0.
  unfold bind, modify. cbn [snd fst].
  apply appendMessage_formsKnown. apply formsKnown_none. exact H0.
Qed.

Lemma handler_formsKnown (a : Action) : preserves formsKnown (handler a).
Proof.
  destruct a; cbn [handler].
  - apply preserves_modify. intros s H. exact H.
  - apply sendMessage_formsKnown.
  - preserve; first [ apply sendMessage_formsKnown
                    | intros s1 H1; first [ exact H1
                        | apply formsKnown_removeFirst;
                          [exact isChips_not_form | exact H1] ] ].
  - apply resetChat_formsKnown.
  - apply openChat_formsKnown.
  - preserve; first [apply dismissLeadForm_formsKnown | intros s1 H1; exact H1].
  - preserve; first [apply handleLeadSubmit_formsKnown | intros s1 H1; exact H1].
  - unfold specialistClick. destruct build eqn:Hb; preserve;
      first [apply openChat_formsKnown | apply (renderLeadForm_formsKnown _ _ _ Hb)].
  - unfold handleRating. preserve; intros s1 H1; exact H1.
  - unfold endChatSession. preserve; intros s1 H1; exact H1.
Qed.

Lemma segment_formsKnown (g : Segment) : preserves formsKnown (segment g).
Proof.
  destruct g; cbn [segment].
  - apply handler_formsKnown.
  - apply sendMessage_start_formsKnown.
  - preserve; first [ apply sendMessage_start_formsKnown
                    | intros s1 H1; first [ exact H1
                        | apply formsKnown_removeFirst;
                          [exact isChips_not_form | exact H1] ] ].
  - preserve. apply handleEvent_formsKnown.
  - unfold sendMessage_reply.
    preserve; first [ apply handleResult_formsKnown | apply appendMessage_formsKnown
                    | apply showTyping_formsKnown ].
  - unfold sendMessage_failed.
    preserve; first [apply appendMessage_formsKnown | apply showTyping_formsKnown].
  - preserve. apply showTyping_formsKnown.
  - unfold handleLeadSubmit_start, logFetch.
    preserve; first [apply appendMessage_formsKnown | intros s1 H1; exact H1].
  - destruct build eqn:Hb; [apply preserves_ret|].
    apply (handleLeadSubmit_accepted_formsKnown _ Hb).
  - unfold handleLeadSubmit_refused. preserve; intros s1 H1; exact H1.
Qed.

Lemma irun_formsKnown (src : IdSource) (segments : list Segment) :
  formsKnown (irun (initialSession src) segments).
Proof.
  unfold irun. assert (Hinit : formsKnown (initialSession src))
    by (apply formsKnown_none; reflexivity).
  revert Hinit. generalize (initialSession src).
  induction segments as [|g segments IH]; intros s Hs; [exact Hs|].
  cbn [fold_left]. apply IH. apply segment_formsKnown, Hs.
Qed.

(** The handlers run one after the other are one of the orders in which
    their pieces can run. *)
Lemma run_irun (s : Session) (actions : list Action) :
  run s actions = irun s (map GAtomic actions).
Proof.
  unfold run, irun. revert s. induction actions as [|a actions IH]; intros s; [reflexivity|].
  cbn [map fold_left]. apply IH.
Qed.

(** X2. Whatever the order in which the handlers and the pieces of the
    handlers that wait for the network run, from the start of a session
    on: there is at most one lead form in the chat body; until a lead has
    been accepted, a form that is there is known to the gate, that is,
    [leadFormVisible] is true; and the streaming build never has a form.
    ([renderLeadForm] removes the old form before it appends a new one;
    dismissal and a reset take the form out and clear the flag together.
    Once a lead has been accepted the flag says nothing: the answer to a
    lead request clears it although another form may have come up while
    the request was pending.)  The forms are those the script builds: the
    markup inside a bubble is not searched. *)
Theorem single_lead_form (src : IdSource) (segments : list Segment) :
  (countForms (chatBody (irun (initialSession src) segments)) <= 1)%nat
  /\ (hasLeadForm (chatBody (irun (initialSession src) segments)) = true ->
      leadSubmitted (irun (initialSession src) segments) = false ->
      leadFormVisible (irun (initialSession src) segments) = true)
  /\ (build = Streaming ->
      countForms (chatBody (irun (initialSession src) segments)) = 0%nat)
  /\ (forall actions,
        (countForms (chatBody (run (initialSession src) actions)) <= 1)%nat
        /\ (hasLeadForm (chatBody (run (initialSession src) actions)) = true ->
            leadSubmitted (run (initialSession src) actions) = false ->
            leadFormVisible (run (initialSession src) actions) = true)).
Proof.
  destruct (irun_formsKnown src segments) as (H1 & H2 & _ & H4).
  split; [exact H1 | split; [exact H2 | split; [exact H4|]]].
  intros actions. rewrite run_irun.
  destruct (irun_formsKnown src (map GAtomic actions)) as (G1 & G2 & _).
  split; [exact G1 | exact G2].
Qed.

(** X20. The form in the chat body and the lead meta belong together,
    whatever the order in which the handlers and their pieces run: until a
    lead has been accepted, a form that is shown was built by the call of
    [renderLeadForm] that set [pendingLeadMeta], so the lead meta is not
    null and its summary is the one the form displays.  (The answer to a
    lead request clears the lead meta although another form may have come
    up while the request was pending; [leadSubmitted] is then true.)  The
    forms are those the script builds: the markup inside a bubble is not
    searched. *)
Theorem lead_form_has_its_meta (src : IdSource) (segments : list Segment) (f : LeadForm) :
  In (LeadFormNode f) (chatBody (irun (initialSession src) segments)) ->
  leadSubmitted (irun (initialSession src) segments) = false ->
  exists m, pendingLeadMeta (irun (initialSession src) segments) = Some m
            /\ meta_summary m = form_summaryText f.
Proof.
  destruct (irun_formsKnown src segments) as (_ & _ & H3 & _).
  exact (H3 f).
Qed.

(** ** The end timer *)

(** X21. A reply ends the chat only through the timer, and only when it
    was handled to its end.  In the plain build [handleResult] sets one
    timer exactly when the reply's [lead_captured] is truthy and neither
    the reading of the reply, nor its rendering, nor the handling of its
    routing signal has thrown.  In the streaming build the handling of a
    result never completes normally (the call of [handleRouting] throws),
    so the [setTimeout] after it is never reached and no timer is ever
    set.  Neither build sets the ended flag while handling a reply. *)
Theorem reply_schedules_end (data : JsValue) (s : Session) :
  endTimers (exec (handleResult data) s)
  = (endTimers s
     + match completion (handleResult data) s with
       | Normal _ => if truthy (optMember data k_lead_captured) then 1 else 0
       | Thrown => 0
       end)%nat
  /\ chatEnded (exec (handleResult data) s) = chatEnded s
  /\ (build = Streaming ->
      completion (handleResult data) s = Thrown
      /\ endTimers (exec (handleResult data) s) = endTimers s).
Proof.
  set (P := fun x : Session => endTimers x = endTimers s /\ chatEnded x = chatEnded s).
  assert (Happ : forall text, preserves P (appendMessage assistant text false)).
  { intros text. apply appendMessage_preserves. intros s0 n _ H. exact H. }
  assert (Hrout : forall routing profile, preserves P (handleRouting routing profile)).
  { intros routing profile.
    unfold handleRouting, updateProfilePanel, renderLeadForm, appendChild.
    preserve; intros s0 H0; exact H0. }
  unfold exec, completion, handleResult, saveConversation, bind, modify.
  destruct (member data k_conversation_id) as [id|] eqn:Ei; cbn [liftE ret throw fst snd];
    [|repeat split; lia].
  assert (Hm : forall k, member data k = Some (optMember data k))
    by (intros k; destruct data; try discriminate Ei; reflexivity).
  rewrite !Hm. cbn [liftE ret fst snd].
  pose proof (Happ (optMember data k_reply) (set_conversationId id s)
                (conj eq_refl eq_refl)) as H1.
  destruct (appendMessage assistant (optMember data k_reply) false
              (set_conversationId id s)) as [[[]|] s1];
    cbn [fst snd] in *; [|destruct H1 as [-> ->]; repeat split; lia].
  destruct build eqn:Hb.
  { unfold throw. cbn [fst snd]. destruct H1 as [-> ->]. repeat split; lia. }
  pose proof (Hrout (optMember data k_routing) (optMember data k_profile) s1 H1) as H2.
  destruct (handleRouting (optMember data k_routing) (optMember data k_profile) s1)
    as [[[]|] s2];
    cbn [fst snd] in *; [|destruct H2 as [-> ->]; repeat split; first [lia | discriminate]].
  destruct H2 as [H2 H3].
  destruct (truthy (optMember data k_lead_captured)); unfold scheduleEnd, modify, ret;
    cbn [fst snd endTimers chatEnded set_endTimers]; rewrite ?H2, ?H3;
    repeat split; first [lia | discriminate].
Qed.

(** ** Suggestion chips *)

Lemma countChips_app (a b : list Node) :
  countChips (a ++ b) = (countChips a + countChips b)%nat.
Proof. unfold countChips. now rewrite filter_app, length_app. Qed.

Lemma countChips_removeFirst (p : Node -> bool) (body : list Node) :
  (forall n, p n = true -> isChips n = false) ->
  countChips (removeFirst p body) = countChips body.
Proof.
  intros Hp. induction body as [|n body IH]; [reflexivity|].
  cbn [removeFirst]. destruct (p n) eqn:E.
  - unfold countChips. cbn [filter]. now rewrite (Hp n E).
  - unfold countChips in *. cbn [filter]. destruct (isChips n); cbn [List.length]; lia.
Qed.

Lemma countChips_removeChips (body : list Node) :
  countChips (removeFirst isChips body) = Nat.pred (countChips body).
Proof.
  induction body as [|n body IH]; [reflexivity|].
  cbn [removeFirst]. unfold countChips in *. cbn [filter].
  destruct (isChips n) eqn:E; cbn [List.length Nat.pred]; [reflexivity|].
  cbn [filter]. rewrite E. exact IH.
Qed.

Lemma countChips_removeFirstLeadForm (body : list Node) :
  countChips (removeFirstLeadForm body) = countChips body.
Proof.
  induction body as [|n body IH]; [reflexivity|].
  cbn [removeFirstLeadForm]. destruct n; cbn [isLeadFormNode]; try reflexivity;
    unfold countChips in *; cbn [filter isChips List.length]; rewrite ?IH; reflexivity.
Qed.

Lemma appendMessage_bubble_preserves (P : Session -> Prop) :
  (forall s role body, P s -> P (set_chatBody (chatBody s ++ [Bubble role body]) s)) ->
  forall role text html, preserves P (appendMessage role text html).
Proof.
  intros Happ role text html. unfold appendMessage, appendChild.
  assert (Hplain : preserves P
            (if html then modify (fun s => set_chatBody (chatBody s ++ [Bubble role (InnerHTML text)]) s)
             else if toStringThrows text then throw
                  else modify (fun s => set_chatBody (chatBody s ++ [Bubble role (TextContent text)]) s))).
  { preserve; intros s H; apply Happ; exact H. }
  destruct build; destruct role; try exact Hplain.
  unfold renderAssistantMessage. destruct (jsOr text (JStr [])); cbn [liftE];
    try (intros s0 H0; exact H0).
  apply preserves_bind_some. apply preserves_modify. intros s0 H0. apply Happ. exact H0.
Qed.

Lemma chipsInvariant_append (s : Session) (n : Node) :
  isChips n = false -> chipsInvariant s ->
  chipsInvariant (set_chatBody (chatBody s ++ [n]) s).
Proof.
  intros Hn [H1 H2]. unfold chipsInvariant. cbn [chatBody set_chatBody].
  rewrite countChips_app. unfold countChips at 2 4. cbn [filter]. rewrite Hn.
  cbn [List.length]. split; [lia|]. intros Hb. rewrite (H2 Hb). reflexivity.
Qed.

Lemma countChips_removeFirst_le (p : Node -> bool) (body : list Node) :
  (countChips (removeFirst p body) <= countChips body)%nat.
Proof.
  induction body as [|n body IH]; [cbn; lia|].
  cbn [removeFirst]. unfold countChips in *. destruct (p n); cbn [filter];
    destruct (isChips n); cbn [List.length]; lia.
Qed.

Lemma chipsInvariant_removeFirst (p : Node -> bool) (s : Session) :
  chipsInvariant s -> chipsInvariant (set_chatBody (removeFirst p (chatBody s)) s).
Proof.
  intros [H1 H2]. unfold chipsInvariant. cbn [chatBody set_chatBody].
  pose proof (countChips_removeFirst_le p (chatBody s)) as Hle.
  split; [lia|]. intros Hb. specialize (H2 Hb). lia.
Qed.

Lemma chipsInvariant_removeForm (s : Session) :
  chipsInvariant s -> chipsInvariant (set_chatBody (removeFirstLeadForm (chatBody s)) s).
Proof.
  intros H. unfold chipsInvariant. cbn [chatBody set_chatBody].
  rewrite countChips_removeFirstLeadForm. exact H.
Qed.

Lemma chipsInvariant_frame :
  (forall role text html, preserves chipsInvariant (appendMessage role text html))
  /\ (forall show, preserves chipsInvariant (showTyping show))
  /\ (forall routing force profile,
        preserves chipsInvariant (renderLeadForm routing force profile))
  /\ preserves chipsInvariant openChat.
Proof.
  split; [|split; [|split]].
  - apply appendMessage_bubble_preserves. intros s role body H.
    apply chipsInvariant_append; [reflexivity | exact H].
  - intros show. unfold showTyping, appendChild. preserve; intros s0 H0;
      first [ exact H0
            | apply chipsInvariant_append; [reflexivity | exact H0]
            | apply chipsInvariant_removeFirst; exact H0
            | exact (chipsInvariant_append _ TypingBubbleNode eq_refl
                       (chipsInvariant_removeFirst isTypingNode s0 H0)) ].
  - intros routing force profile. unfold renderLeadForm, appendChild.
    preserve; intros s0 H0;
      first [ exact H0
            | apply chipsInvariant_removeForm; exact H0
            | apply chipsInvariant_append; [reflexivity | exact H0] ].
  - intros s H. pose proof (proj1 H) as H1.
    unfold openChat, renderSuggestions, appendChild, bind, get, modify, ret.
    destruct build eqn:Hb; [|exact H].
    destruct (List.length (chatBody s) <=? 1)%nat; [|exact H].
    unfold chipsInvariant. cbn [snd fst greetingChips chatBody set_chatBody].
    rewrite countChips_app, countChips_removeChips.
    split; [cbn; lia | congruence].
Qed.

Lemma handleEvent_chips (event : JsValue) : preserves chipsInvariant (handleEvent event).
Proof.
  destruct chipsInvariant_frame as (Happ & _ & Hform & _).
  unfold handleEvent, handleResult, saveConversation, scheduleEnd, handleRouting,
    updateProfilePanel.
  preserve; first [ apply Happ | apply Hform | intros s0 H0; exact H0 ].
Qed.

Lemma sendMessage_chips (response : ChatResponse) :
  preserves chipsInvariant (sendMessage response).
Proof.
  destruct chipsInvariant_frame as (Happ & Htyping & Hform & _).
  unfold sendMessage, beginSend, requestReply, handleResult, saveConversation,
    scheduleEnd, logFetch, handleRouting, updateProfilePanel.
  preserve; first [ apply Happ | apply Htyping | apply Hform
                  | apply readStream_preserves, handleEvent_chips
                  | intros s0 H0; exact H0 ].
Qed.

Lemma handler_chips (a : Action) : preserves chipsInvariant (handler a).
Proof.
  destruct chipsInvariant_frame as (Happ & Htyping & Hform & Hopen).
  destruct a; cbn [handler].
  - apply preserves_modify. intros s H. exact H.
  - apply sendMessage_chips.
  - preserve; first [ apply sendMessage_chips
                    | intros s1 H1; first [ exact H1
                        | apply chipsInvariant_removeFirst; exact H1 ] ].
  - intros s _. unfold resetChat, saveConversation, bind, modify. cbn [snd fst].
    apply Hopen. split; [cbn; lia | reflexivity].
  - apply Hopen.
  - unfold dismissLeadForm. preserve; intros s1 H1;
      first [exact H1 | apply chipsInvariant_removeForm, H1].
  - unfold handleLeadSubmit, logFetch.
    preserve; first [ apply Happ
                    | intros s1 H1; first [ exact H1 | apply chipsInvariant_removeForm, H1 ] ].
  - unfold specialistClick. preserve; [apply Hopen | apply Hform].
  - unfold handleRating. preserve; intros s1 H1; exact H1.
  - unfold endChatSession. preserve; intros s1 H1; exact H1.
Qed.

Lemma isTypingNode_not_chips (n : Node) : isTypingNode n = true -> isChips n = false.
Proof. destruct n; first [reflexivity | discriminate]. Qed.

Lemma beginSend_chips (message : jstring) (s : Session) :
  chipsInvariant s -> countChips (chatBody (snd (beginSend message s))) = 0%nat.
Proof.
  intros [H1 H2].
  unfold beginSend, appendMessage, showTyping, appendChild, bind, get, modify, ret.
  cbn [toStringThrows]. destruct build.
  - cbn [fst snd typingBubble set_chatBody set_chatInput_value].
    destruct (typingBubble s); cbn [fst snd chatBody set_chatBody set_typingBubble
                                    set_typingShown set_chatInput_value];
      rewrite !countChips_app, (countChips_removeFirst _ _ isTypingNode_not_chips),
        countChips_removeChips, ?countChips_app; cbn; lia.
  - cbn [fst snd chatBody set_chatBody set_typingShown set_chatInput_value].
    rewrite countChips_app, (H2 eq_refl). reflexivity.
Qed.

Lemma noChips_frame (P := fun x : Session => countChips (chatBody x) = 0%nat) :
  (forall role text html, preserves P (appendMessage role text html))
  /\ (forall show, preserves P (showTyping show))
  /\ (forall event, preserves P (handleEvent event))
  /\ (forall data, preserves P (handleResult data)).
Proof.
  assert (Happ : forall role text html, preserves P (appendMessage role text html)).
  { apply appendMessage_bubble_preserves. intros s role body H. unfold P in *.
    cbn [chatBody set_chatBody]. rewrite countChips_app, H. reflexivity. }
  assert (Hstep : forall s0 (p : Node -> bool), P s0 ->
             P (set_chatBody (removeFirst p (chatBody s0)) s0)).
  { intros s0 p H0. unfold P in *. cbn [chatBody set_chatBody].
    pose proof (countChips_removeFirst_le p (chatBody s0)) as Hle. lia. }
  assert (Hadd : forall s0 n, isChips n = false -> P s0 ->
             P (set_chatBody (chatBody s0 ++ [n]) s0)).
  { intros s0 n Hn H0. unfold P in *. cbn [chatBody set_chatBody].
    rewrite countChips_app, H0. unfold countChips. cbn [filter]. rewrite Hn. reflexivity. }
  assert (Hres : forall data, preserves P (handleResult data)).
  { intros data. unfold handleResult, saveConversation, scheduleEnd, handleRouting,
      updateProfilePanel, renderLeadForm, appendChild.
    preserve; first [ apply Happ
                    | intros s0 H0; first [ exact H0
                        | apply Hadd; [reflexivity | exact H0]
                        | unfold P in *; cbn [chatBody set_chatBody];
                          rewrite countChips_removeFirstLeadForm; exact H0 ] ]. }
  repeat split.
  - exact Happ.
  - intros show. unfold showTyping, appendChild. preserve; intros s0 H0;
      first [ exact H0
            | apply Hadd; [reflexivity | exact H0]
            | apply Hstep; exact H0
            | exact (Hadd _ TypingBubbleNode eq_refl (Hstep s0 isTypingNode H0)) ].
  - intros event. unfold handleEvent. preserve; first [apply Hres | intros s0 H0; exact H0].
  - exact Hres.
Qed.


(** ** Responses without a reply *)

Lemma requestReply_no_data (message : jstring) (response : ChatResponse) (s : Session) :
  noReplyData response = true ->
  exists call, requestReply message response s = (Thrown, set_fetchLog (fetchLog s ++ [call]) s).
Proof.
  intros Hf. unfold requestReply, bind, get, logFetch, modify.
  destruct response as [|ok body]; [discriminate Hf|].
  cbn [noReplyData] in Hf. apply andb_true_iff in Hf. destruct Hf as [-> Hf].
  cbn [negb fst snd]. destruct build.
  - destruct body; [discriminate Hf|]. eexists. reflexivity.
  - unfold handleResult, bind, liftE.
    destruct (responseJson body) as [data|]; [|eexists; reflexivity].
    destruct data; try discriminate Hf; eexists; reflexivity.
Qed.

(** X23. A successful response with nothing to read is met like a failed
    request: when the streaming build gets a response without a body, or
    the plain build a body that is no JSON or is the JSON [null], the send
    completes normally with the apology after the visitor's message, and
    the conversation id, the profile, the lead state and the ended flag
    are those from before the send. *)
Theorem response_without_data_apologises (response : ChatResponse) (s : Session) :
  chatEnded s = false -> unconfigured = false ->
  nonEmpty (trim (chatInput_value s)) = true ->
  noReplyData response = true ->
  completion (sendMessage response) s = Normal tt
  /\ chatBody (exec (sendMessage response) s)
     = chatBody (exec (beginSend (trim (chatInput_value s))) s) ++ [apologyBubble]
  /\ sameCore s (exec (sendMessage response) s).
Proof.
  intros He Hc Hm Hf.
  set (message := trim (chatInput_value s)).
  pose proof (beginSend_bubble_ready message s) as Hready.
  pose proof (sameCore_beginSend message s) as Hcore.
  unfold completion, exec. rewrite (sendMessage_proceeds response s He Hc Hm).
  fold message. unfold tryFinally, tryCatch.
  destruct (requestReply_no_data message response (snd (beginSend message s)) Hf)
    as [call ->].
  rewrite appendMessage_apology.
  rewrite showTyping_false_eq by (destruct Hready as [H | H]; [left | right]; exact H).
  cbn. repeat split; try reflexivity; apply Hcore.
Qed.

(** ** What brings the form up *)

Ltac pick_disjunct := solve [assumption | left; assumption | right; pick_disjunct].

(** X24. [handleRouting] shows the form only through the gate: when a form
    is in the chat body after it and none was there before, the turn
    carried a routing signal, no suppression condition held (no form
    visible, no lead submitted, no contact email or phone on the profile),
    and one of the fire conditions did: [lead_capture] is [yes], the stage
    is [contact] or [schedule], the intent is [book], [buy] or [pricing],
    or the profile names a product or a date. *)
Theorem form_appears_only_through_gate (routing profile : JsValue) (s : Session) :
  hasLeadForm (chatBody s) = false ->
  hasLeadForm (chatBody (exec (handleRouting routing profile) s)) = true ->
  truthy routing = true
  /\ leadFormVisible s = false
  /\ leadSubmitted s = false
  /\ truthy (optMember profile k_contact_email) = false
  /\ truthy (optMember profile k_contact_phone) = false
  /\ (strictEqStr (optMember routing k_lead_capture) (lit "yes") = true
      \/ strictEqStr (optMember profile k_stage) (lit "contact") = true
      \/ strictEqStr (optMember profile k_stage) (lit "schedule") = true
      \/ strictEqStr (optMember routing k_intent) (lit "book") = true
      \/ strictEqStr (optMember routing k_intent) (lit "buy") = true
      \/ strictEqStr (optMember routing k_intent) (lit "pricing") = true
      \/ truthy (optMember profile k_product_name) = true
      \/ truthy (optMember profile k_requested_date) = true).
Proof.
  intros Hnone Hform. unfold exec in Hform. rewrite handleRouting_eq in Hform.
  cbv zeta in Hform.
  assert (Hsame : hasLeadForm (chatBody (if truthy profile then set_latestProfile profile s
                                         else s)) = false)
    by (destruct (truthy profile); exact Hnone).
  destruct (truthy routing) eqn:Hr; cbn [negb] in Hform;
    [|cbn [snd] in Hform; congruence].
  destruct (leadGate routing profile s) eqn:Hg; [|cbn [snd] in Hform; congruence].
  clear Hform Hsame. unfold leadGate in Hg.
  repeat (apply andb_true_iff in Hg; destruct Hg as [Hg ?]).
  repeat match goal with
         | H : negb _ = true |- _ => apply negb_true_iff in H
         end.
  match goal with
  | H : truthy (contactOnFile _) = false |- _ =>
    unfold contactOnFile in H; rewrite truthy_jsOr in H;
    apply orb_false_iff in H; destruct H as [Hemail Hphone]
  end.
  split; [reflexivity|]. repeat (split; [assumption|]).
  unfold shouldCard, highIntent, hasProductOrDate in Hg. rewrite truthy_jsOr in Hg.
  repeat match goal with
         | H : _ || _ = true |- _ => apply orb_true_iff in H; destruct H as [H | H]
         | H : _ && _ = true |- _ => apply andb_true_iff in H; destruct H as [H _]
         end; pick_disjunct.
Qed.

(** ** Handlers that wait for the network *)

Lemma irun_events (events : list JsValue) (s : Session) :
  build = Streaming ->
  irun s (map GEvent events) = fold_left (fun st event => onEvent event st) events s.
Proof.
  intros Hb. unfold irun. revert s.
  induction events as [|e events IH]; intros s; [reflexivity|].
  cbn [map fold_left]. rewrite IH. f_equal.
  unfold istep, onEvent. cbn [segment]. rewrite Hb. reflexivity.
Qed.

Lemma irun_app (s : Session) (a b : list Segment) :
  irun s (a ++ b) = irun (irun s a) b.
Proof. unfold irun. apply fold_left_app. Qed.

(** With nothing else in between, the pieces of [sendMessage] make up
    [sendMessage]: past the guards, the first piece and then those of the
    response; at a guard, the first piece alone. *)
Lemma sendMessage_segments (response : ChatResponse) (s : Session) :
  step s (ASend response)
  = if negb (chatEnded s) && negb unconfigured && nonEmpty (trim (chatInput_value s))
    then irun s (GSendStart :: responseSegments response)
    else istep s GSendStart.
Proof.
  unfold step, istep, exec. cbn [handler segment].
  destruct (chatEnded s) eqn:He; cbn [negb andb].
  { unfold sendMessage, sendMessage_start, bind, get. rewrite He. reflexivity. }
  destruct unconfigured eqn:Hc; cbn [negb andb].
  { unfold sendMessage, sendMessage_start, bind, get. rewrite He, Hc. reflexivity. }
  destruct (nonEmpty (trim (chatInput_value s))) eqn:Hm.
  2:{ unfold sendMessage, sendMessage_start, bind, get. rewrite He, Hc, Hm. reflexivity. }
  rewrite (sendMessage_proceeds response s He Hc Hm).
  set (message := trim (chatInput_value s)) in *.
  pose proof (beginSend_normal message s) as Hn.
  assert (Hstart : istep s GSendStart
                   = exec (s1 <- get ;;
                           logFetch (ChatRequest
                              (match build with Plain => Some BUSINESS_ID | Streaming => None end)
                              (conversationId s1) message sheetId))
                       (snd (beginSend message s))).
  { unfold istep, exec. cbn [segment]. unfold sendMessage_start, bind, get.
    rewrite He, Hc. fold message. rewrite Hm. cbn [negb].
    destruct (beginSend message s) as [[[]|] s1]; cbn [fst snd] in *;
      [reflexivity | discriminate]. }
  unfold irun. cbn [fold_left]. rewrite Hstart. clear Hstart Hn.
  generalize (snd (beginSend message s)). intros s1.
  fold (irun (exec (s2 <- get ;;
                    logFetch (ChatRequest
                      (match build with Plain => Some BUSINESS_ID | Streaming => None end)
                      (conversationId s2) message sheetId)) s1)
             (responseSegments response)).
  unfold requestReply, responseSegments, tryFinally, tryCatch, bind, get, logFetch,
    modify, exec.
  cbn [fst snd].
  destruct response as [|ok body].
  { unfold irun, istep, exec. cbn [fold_left segment].
    unfold sendMessage_failed, tryFinally. reflexivity. }
  destruct ok; cbn [negb].
  2:{ unfold irun, istep, exec. cbn [fold_left segment].
      unfold sendMessage_failed, tryFinally. reflexivity. }
  destruct build eqn:Hb.
  - destruct body as [[chunks fin]|].
    2:{ unfold irun, istep, exec. cbn [fold_left segment].
        unfold sendMessage_failed, tryFinally. reflexivity. }
    rewrite irun_app, (irun_events _ _ Hb).
    unfold readStream. rewrite readChunks_events.
    destruct fin; unfold irun, istep, exec; cbn [fold_left segment fst snd].
    + rewrite Hb. reflexivity.
    + unfold sendMessage_failed, tryFinally. reflexivity.
  - destruct (responseJson body) as [data|]; cbn [liftE];
      unfold irun, istep, exec; cbn [fold_left segment fst snd].
    + rewrite Hb. unfold sendMessage_reply, tryFinally, tryCatch. reflexivity.
    + unfold sendMessage_failed, tryFinally. reflexivity.
Qed.

(** With nothing else in between, the pieces of [handleLeadSubmit] make up
    [handleLeadSubmit]: the form that was submitted is still the first
    form of the chat body when the response arrives. *)
Lemma handleLeadSubmit_segments (name email phone : jstring) (response : LeadResponse)
  (s : Session) :
  hasLeadForm (chatBody s) = true ->
  step s (ASubmit name email phone response)
  = if nonEmpty BUSINESS_ID && leadFieldsOk name email phone
    then irun s (GLeadStart name email phone
                   :: leadSegments (formIndex (chatBody s)) response)
    else istep s (GLeadStart name email phone).
Proof.
  intros Hf. unfold step, irun, istep, exec, leadFieldsOk.
  destruct build eqn:Hb.
  { assert (Hnone : forall g s0,
              In g (GLeadStart name email phone
                      :: leadSegments (formIndex (chatBody s)) response) ->
              snd (segment g s0) = s0).
    { intros g s0 Hin. destruct Hin as [<- | Hin].
      - cbn [segment]. unfold bind, get. rewrite Hb. reflexivity.
      - destruct response as [|[|]]; destruct Hin as [<- | []];
          cbn [segment]; rewrite Hb; reflexivity. }
    cbn [handler]. unfold bind, get. rewrite Hb. cbn [snd].
    destruct (nonEmpty BUSINESS_ID && _).
    - cbn [fold_left]. rewrite (Hnone _ s (or_introl eq_refl)).
      destruct response as [|[|]]; cbn [leadSegments fold_left];
        try (rewrite (Hnone _ s); [reflexivity | right; left; reflexivity]).
    - rewrite (Hnone _ s (or_introl eq_refl)). reflexivity. }
  assert (Hh : handler (ASubmit name email phone response) s
               = handleLeadSubmit name email phone response s)
    by (cbn [handler]; unfold bind, get; rewrite Hb, Hf; reflexivity).
  assert (Hg : segment (GLeadStart name email phone) s
               = handleLeadSubmit_start name email phone s)
    by (cbn [segment]; unfold bind, get; rewrite Hb, Hf; reflexivity).
  cbn [fold_left]. rewrite Hh, Hg. clear Hh Hg.
  unfold handleLeadSubmit, handleLeadSubmit_start.
  destruct (nonEmpty BUSINESS_ID); cbn [negb andb]; [|reflexivity].
  destruct (nonEmpty (trim name)); cbn [negb andb]; [|reflexivity].
  destruct (nonEmpty (trim email)); cbn [negb andb orb].
  - destruct response as [|[|]]; cbn [leadSegments fold_left segment];
      rewrite ?Hb; unfold handleLeadSubmit_accepted, handleLeadSubmit_refused,
        tryCatch, bind, get, logFetch, modify, throw; cbn [fst snd negb removeForm chatBody set_fetchLog];
      rewrite ?removeFormAt_formIndex; reflexivity.
  - destruct (nonEmpty (trim phone)); cbn [negb andb orb]; [|reflexivity].
    destruct response as [|[|]]; cbn [leadSegments fold_left segment];
      rewrite ?Hb; unfold handleLeadSubmit_accepted, handleLeadSubmit_refused,
        tryCatch, bind, get, logFetch, modify, throw; cbn [fst snd negb removeForm chatBody set_fetchLog];
      rewrite ?removeFormAt_formIndex; reflexivity.
Qed.

End Widget.

(* ================================================================== *)
(** * Closed examples

    The statements above, applied to the sample inputs with the reference
    instances of the browser, the business id [default] and no sheet id:
    in the streaming build where they are about sending and decoding, in
    the plain build where they need the lead form. *)

Local Abbreviation handleRouting_ref := (handleRouting formMarkupOk_ref).
Local Abbreviation sendMessage_ref :=
  (sendMessage JSON_parse_ref NumberToLocaleString_enUS outerHTML_ref ex_business []
     Streaming formMarkupOk_ref).
Local Abbreviation run_ref :=
  (run JSON_parse_ref NumberToLocaleString_enUS outerHTML_ref ex_business []
     Streaming formMarkupOk_ref).
Local Abbreviation run_plain :=
  (run JSON_parse_ref NumberToLocaleString_enUS outerHTML_ref ex_business []
     Plain formMarkupOk_ref).
Local Abbreviation step_plain :=
  (step JSON_parse_ref NumberToLocaleString_enUS outerHTML_ref ex_business []
     Plain formMarkupOk_ref).
Local Abbreviation renderAssistantMessage_ref :=
  (renderAssistantMessage NumberToLocaleString_enUS outerHTML_ref).
Local Abbreviation cardPrice_ref := (cardPrice NumberToLocaleString_enUS).

(** C1 at a turn on which every fire condition holds and the profile has a
    contact email: the gate is closed and no form is in the chat body. *)
Lemma lead_gate_suppression_witness :
  shouldCard ex_routing_yes ex_profile_contact ex_session
    && highIntent ex_routing_yes
    && truthy (hasProductOrDate ex_profile_contact) = true
  /\ truthy (optMember ex_profile_contact k_contact_email) = true
  /\ leadGate ex_routing_yes ex_profile_contact ex_session = false
  /\ hasLeadForm (chatBody (exec (handleRouting_ref ex_routing_yes ex_profile_contact)
                              ex_session)) = false.
Proof.
  assert (H : truthy (optMember ex_profile_contact k_contact_email) = true) by reflexivity.
  destruct (lead_gate_suppression_precedence formMarkupOk_ref
              ex_routing_yes ex_profile_contact ex_session
              (or_intror (or_intror (or_introl H)))) as (Hg & _ & Hb & _).
  split; [reflexivity|]. split; [exact H|]. split; [exact Hg|].
  rewrite Hb. reflexivity.
Defined.

(** C2 at a reply cut between the two bytes of a character. *)
Lemma decoder_chunking_witness :
  streamEvents JSON_parse_ref ex_chunks_utf8
  = streamEvents JSON_parse_ref [List.concat ex_chunks_utf8]
  /\ streamEvents JSON_parse_ref ex_chunks_utf8
     = [JObj [(k_type, JStr (lit "result"));
              (k_data, JObj [(k_conversation_id, JStr (lit "c-1"));
                             (k_reply, JStr (lit "caf" ++ [233]))])]].
Proof.
  split.
  - exact (proj1 (decoder_chunking_invariance JSON_parse_ref NumberToLocaleString_enUS
                    outerHTML_ref ex_business [] Streaming formMarkupOk_ref
                    ex_chunks_utf8)).
  - vm_compute. reflexivity.
Defined.

(** C3 at a stream whose second line is not JSON: the events are those of
    the first and of the third line. *)
Lemma decode_failure_isolation_witness :
  streamEvents JSON_parse_ref ex_chunks_bad
  = lineEvents JSON_parse_ref (litq "{`type`:`status`,`message`:`Searching`}" ++ [10])
    ++ lineEvents JSON_parse_ref (litq "{`type`:`error`,`message`:`late`}" ++ [10]).
Proof.
  refine (proj2 (decode_failure_isolation JSON_parse_ref ex_chunks_bad
                   (litq "{`type`:`status`,`message`:`Searching`}" ++ [10])
                   (lit "not json")
                   (litq "{`type`:`error`,`message`:`late`}" ++ [10]) _ _ _ _)).
  - vm_compute. reflexivity.
  - right. eexists. reflexivity.
  - vm_compute. intuition discriminate.
  - vm_compute. reflexivity.
Defined.

(** C4 at a send the network rejects: the visitor's message, the typing
    bubble and the apology are in the chat body, the conversation id is the
    one from before, and the typing bubble is hidden. *)
Lemma send_failure_witness :
  chatBody (exec (sendMessage_ref FetchRejected) ex_typed)
  = [Bubble user (TextContent (JStr (lit "hello"))); TypingBubbleNode;
     Bubble assistant (InnerHTML (JStr apology))]
  /\ sameCore ex_typed (exec (sendMessage_ref FetchRejected) ex_typed)
  /\ typingShown (exec (sendMessage_ref FetchRejected) ex_typed) = false
  /\ typingShown (exec (sendMessage_ref ex_response_ok) ex_typed) = false.
Proof.
  assert (Hm : nonEmpty (trim (chatInput_value ex_typed)) = true)
    by (vm_compute; reflexivity).
  destruct (send_failure_is_atomic JSON_parse_ref NumberToLocaleString_enUS
              outerHTML_ref ex_business [] Streaming formMarkupOk_ref ex_typed
              eq_refl eq_refl Hm) as (Hfail & _ & Htyping).
  destruct (Hfail FetchRejected eq_refl) as (_ & Hbody & Hcore & Hshown).
  split; [rewrite Hbody; vm_compute; reflexivity|].
  split; [exact Hcore|]. split; [exact Hshown | apply Htyping].
Defined.

(** C5, counterexample to the cap as the specification states it: a reply
    with seven image tags renders with no image at all, where five are
    promised. *)
Lemma image_cap_counterexample :
  List.length (imgTagMatches ex_seven_tags 0) = 7%nat
  /\ option_map renderedImages (renderAssistantMessage_ref (JStr ex_seven_tags) false)
     = Some 0%nat
  /\ Nat.min 7 5 = 5%nat.
Proof. vm_compute. repeat split. Qed.

(** C5 at seven tags: all seven are matched and pushed, and
    the bubble is empty. *)
Lemma seven_image_tags_witness :
  List.length (imgTagMatches (List.concat (map simpleTag ex_seven_tag_list)) 0) = 7%nat
  /\ List.length (snd (imgTagReplace (List.concat (map simpleTag ex_seven_tag_list)) 0))
     = 7%nat
  /\ renderAssistantMessage_ref (JStr (List.concat (map simpleTag ex_seven_tag_list))) false
     = Some (Bubble assistant (InnerHTML (JStr [])))
  /\ List.length (buildCarousel (map imageOfSimpleTag ex_seven_tag_list)) = 5%nat.
Proof.
  assert (Hvalid : Forall validSimpleTag ex_seven_tag_list).
  { unfold ex_seven_tag_list.
    repeat (apply Forall_cons;
            [split; [cbn [fst]; lia | split; vm_compute; reflexivity] |]).
    apply Forall_nil. }
  destruct (image_tags_removed_not_rendered NumberToLocaleString_enUS outerHTML_ref)
    as (Hcap & Htags & _).
  destruct (Htags ex_seven_tag_list false Hvalid) as (Hm & Hr & Hb).
  split; [rewrite Hm; reflexivity|].
  split; [rewrite Hr; reflexivity|].
  split; [exact Hb|].
  rewrite Hcap. reflexivity.
Defined.



(** C7 at an ended session with a message typed in. *)
Lemma send_noop_witness :
  sendMessage_ref ex_response_ok (set_chatEnded true ex_typed)
  = (Normal tt, set_chatEnded true ex_typed)
  /\ fetchLog (exec (sendMessage_ref ex_response_ok) (set_chatEnded true ex_typed)) = [].
Proof.
  destruct (send_is_noop_once_ended JSON_parse_ref NumberToLocaleString_enUS
              outerHTML_ref ex_business [] Streaming formMarkupOk_ref
              ex_response_ok (set_chatEnded true ex_typed) eq_refl)
    as (Heq & _ & _ & Hlog).
  split; [exact Heq | rewrite Hlog; reflexivity].
Defined.

(** C8, counterexample to firing without a routing signal: on a turn with
    a product name on the profile and no routing signal, with nothing
    suppressing the gate, no form is shown, neither by [handleRouting]
    alone nor at the end of a whole send of the plain build whose reply
    has no routing member. *)
Lemma no_routing_counterexample :
  truthy (hasProductOrDate ex_profile_product) = true
  /\ leadFormVisible ex_session = false
  /\ leadSubmitted ex_session = false
  /\ truthy (contactOnFile ex_profile_product) = false
  /\ leadFormVisible (exec (handleRouting_ref JUndefined ex_profile_product) ex_session)
     = false
  /\ hasLeadForm (chatBody (exec (handleRouting_ref JUndefined ex_profile_product)
                              ex_session)) = false
  /\ latestProfile (run_plain ex_session [AInput (lit "hi"); ASend ex_reply_no_routing])
     = ex_profile_product
  /\ leadFormVisible (run_plain ex_session [AInput (lit "hi"); ASend ex_reply_no_routing])
     = false.
Proof. vm_compute. repeat split. Qed.

(** C8 at a turn whose routing signal is the empty object. *)
Lemma lead_gate_fires_witness :
  leadGate emptyObject ex_profile_product ex_session = true
  /\ leadFormVisible (exec (handleRouting_ref emptyObject ex_profile_product) ex_session)
     = true
  /\ hasLeadForm (chatBody (exec (handleRouting_ref emptyObject ex_profile_product)
                              ex_session)) = true.
Proof.
  destruct (lead_gate_fires_on_product_or_date formMarkupOk_ref emptyObject
              ex_profile_product ex_session eq_refl eq_refl eq_refl eq_refl)
    as (Hfire & _).
  destruct (Hfire eq_refl) as (Hgate & _ & Hshown).
  assert (Hbuild : formBuilds formMarkupOk_ref (leadFormFor emptyObject ex_profile_product)
                   = true) by (vm_compute; reflexivity).
  destruct (Hshown Hbuild) as (_ & Hvisible & Hbody).
  split; [exact Hgate|]. split; [exact Hvisible|].
  rewrite Hbody. unfold hasLeadForm. rewrite existsb_app. apply orb_true_r.
Defined.

(** C9, counterexample to the invariant for every reply: a result event
    whose conversation id is the empty string replaces the id, and the
    session is left with an empty conversation id. *)
Lemma empty_conversation_id_counterexample :
  isNonEmptyId (conversationId ex_session) = true
  /\ conversationId (run_ref ex_session [AInput (lit "hi"); ASend ex_response_empty_id])
     = JStr []
  /\ isNonEmptyId
       (conversationId (run_ref ex_session [AInput (lit "hi"); ASend ex_response_empty_id]))
     = false.
Proof. vm_compute. repeat split. Qed.

(** C9 along a session with two replies, a dismissal and a
    reset. *)
Lemma conversation_id_witness :
  isNonEmptyId
    (conversationId
       (run_ref (initialSession (RandomUUID ex_uuid))
          [AInput (lit "hi"); ASend ex_response_ok; ADismiss;
           AReset (MathRandom (lit "0.4fzyo82mvyr"));
           AInput (lit "again"); ASend ex_response_no_routing])) = true.
Proof.
  apply (conversation_id_invariant JSON_parse_ref NumberToLocaleString_enUS
           outerHTML_ref ex_business [] Streaming formMarkupOk_ref).
  - reflexivity.
  - assert (Hreply : forall chunks event,
               streamEvents JSON_parse_ref chunks = [event] ->
               eventIdOk event ->
               responseIdsOk JSON_parse_ref Streaming
                 (HttpResponse true (Some (chunks, StreamDone)))).
    { intros chunks event Hev Hok. cbn [responseIdsOk]. rewrite Hev.
      apply Forall_cons; [exact Hok | apply Forall_nil]. }
    apply Forall_cons; [exact I|].
    apply Forall_cons;
      [eapply Hreply; [vm_compute; reflexivity | vm_compute; reflexivity]|].
    apply Forall_cons; [exact I|].
    apply Forall_cons; [exact I|].
    apply Forall_cons; [exact I|].
    apply Forall_cons;
      [eapply Hreply; [vm_compute; reflexivity | vm_compute; reflexivity]|].
    apply Forall_nil.
Defined.


(** ** Further examples *)

Local Abbreviation step_ref :=
  (step JSON_parse_ref NumberToLocaleString_enUS outerHTML_ref ex_business []
     Streaming formMarkupOk_ref).
Local Abbreviation handleLeadSubmit_ref :=
  (handleLeadSubmit NumberToLocaleString_enUS outerHTML_ref ex_business Plain).

(** X3 at a session of the plain build that has ended and whose lead was
    submitted: the specialist button still shows the form.  In the
    streaming build the same click shows none. *)
Lemma specialist_button_witness :
  leadSubmitted (set_chatEnded true ex_submitted) = true
  /\ leadFormVisible (step_plain (set_chatEnded true ex_submitted) ASpecialist) = true
  /\ hasLeadForm (chatBody (step_plain (set_chatEnded true ex_submitted) ASpecialist)) = true
  /\ countForms (chatBody (step_ref (set_chatEnded true ex_submitted) ASpecialist)) = 0%nat.
Proof.
  destruct (specialist_button_forces_form JSON_parse_ref NumberToLocaleString_enUS
              outerHTML_ref ex_business [] Plain formMarkupOk_ref
              (set_chatEnded true ex_submitted) eq_refl)
    as (Hplain & _); [vm_compute; reflexivity|].
  destruct (Hplain eq_refl) as (Hvisible & Hbody & _).
  destruct (specialist_button_forces_form JSON_parse_ref NumberToLocaleString_enUS
              outerHTML_ref ex_business [] Streaming formMarkupOk_ref
              (set_chatEnded true ex_submitted) eq_refl)
    as (_ & Hstreaming); [vm_compute; reflexivity|].
  destruct (Hstreaming eq_refl) as (Hforms & _).
  split; [reflexivity|]. split; [exact Hvisible|].
  split; [rewrite Hbody; apply hasLeadForm_app_form | rewrite Hforms; reflexivity].
Defined.

(** X5 at a session of the plain build with one timer pending. *)
Lemma reset_keeps_end_timer_witness :
  (0 < endTimers (set_endTimers 1 ex_session))%nat
  /\ chatEnded (run_plain (set_endTimers 1 ex_session)
                  [AReset (MathRandom (lit "0.4fzyo82mvyr")); AEndTimer]) = true.
Proof.
  assert (H : (0 < endTimers (set_endTimers 1 ex_session))%nat) by (cbn; lia).
  split; [exact H|].
  exact (proj1 (proj1 (proj2 (proj2 (reset_keeps_end_timer JSON_parse_ref
           NumberToLocaleString_enUS outerHTML_ref ex_business [] Plain formMarkupOk_ref
           (MathRandom (lit "0.4fzyo82mvyr")) (set_endTimers 1 ex_session) H))) eq_refl)).
Defined.

(** X6 at an ended session: after the reset the message goes out with the
    new conversation id. *)
Lemma reset_reopens_chat_witness :
  fetchLog (run_ref ex_ended [AReset (MathRandom (lit "0.4fzyo82mvyr"));
                              AInput (lit " hi "); ASend FetchRejected])
  = [ChatRequest None (JStr (lit "conv-4fzyo82m")) (lit "hi") None].
Proof.
  destruct (reset_reopens_chat JSON_parse_ref NumberToLocaleString_enUS
              outerHTML_ref ex_business [] Streaming formMarkupOk_ref
              (MathRandom (lit "0.4fzyo82mvyr")) (lit " hi ") FetchRejected ex_ended
              eq_refl) as (_ & _ & _ & _ & _ & Hlog); [vm_compute; reflexivity|].
  rewrite Hlog. vm_compute. reflexivity.
Defined.

(** X7 at a submission whose name is blank. *)
Lemma lead_submit_refused_witness :
  handleLeadSubmit_ref (lit "  ") (lit "ann@example.com") [] (LeadHttpResponse true)
    ex_session
  = (Normal tt, set_alerts [lit "Please add your name."] ex_session).
Proof.
  rewrite (lead_submit_refused NumberToLocaleString_enUS outerHTML_ref ex_business
             Plain (lit "  ") (lit "ann@example.com") [] (LeadHttpResponse true)
             ex_session).
  - vm_compute. reflexivity.
  - reflexivity.
  - vm_compute. reflexivity.
Defined.

(** X8 at the form the gate has shown. *)
Lemma lead_submit_accepted_witness :
  hasLeadForm (chatBody (exec (handleRouting_ref emptyObject ex_profile_product)
                           ex_session)) = true
  /\ leadSubmitted
       (exec (handleLeadSubmit_ref (lit "Ann") (lit "ann@example.com") []
                (LeadHttpResponse true))
          (exec (handleRouting_ref emptyObject ex_profile_product) ex_session)) = true
  /\ hasLeadForm
       (chatBody
          (exec (handleLeadSubmit_ref (lit "Ann") (lit "ann@example.com") []
                   (LeadHttpResponse true))
             (exec (handleRouting_ref emptyObject ex_profile_product) ex_session)))
     = false.
Proof.
  destruct (lead_submit_accepted NumberToLocaleString_enUS outerHTML_ref ex_business
              Plain (lit "Ann") (lit "ann@example.com") []
              (exec (handleRouting_ref emptyObject ex_profile_product) ex_session)
              eq_refl) as (_ & Hsub & _ & _ & Hbody & _); [vm_compute; reflexivity|].
  split; [vm_compute; reflexivity|]. split; [exact Hsub|].
  rewrite Hbody. vm_compute. reflexivity.
Defined.

(** X9 in the plain build, at a reply with a buying intent: it brings
    the form up, and does not once the lead was submitted. *)
Lemma submitted_lead_witness :
  hasLeadForm (chatBody (run_plain ex_session [AInput (lit "hi"); ASend ex_reply_ok]))
  = true
  /\ hasLeadForm (chatBody (run_plain ex_submitted
                              [AInput (lit "hi"); ASend ex_reply_ok; ADismiss; AOpen]))
     = false.
Proof.
  split; [vm_compute; reflexivity|].
  exact (proj2 (submitted_lead_stays_closed JSON_parse_ref NumberToLocaleString_enUS
                  outerHTML_ref ex_business [] Plain formMarkupOk_ref
                  ex_submitted [AInput (lit "hi"); ASend ex_reply_ok; ADismiss; AOpen]
                  eq_refl eq_refl eq_refl)).
Defined.

(** X10 at an ended session on which the visitor keeps clicking. *)
Lemma ended_chat_witness :
  chatEnded (run_ref ex_ended [ASend ex_response_ok; AOpen; ASpecialist;
                               ASubmit (lit "Ann") (lit "ann@example.com") []
                                 (LeadHttpResponse true)]) = true
  /\ chatRequests (fetchLog (run_ref ex_ended
                               [ASend ex_response_ok; AOpen; ASpecialist;
                                ASubmit (lit "Ann") (lit "ann@example.com") []
                                  (LeadHttpResponse true)])) = [].
Proof.
  exact (ended_chat_stays_ended JSON_parse_ref NumberToLocaleString_enUS
           outerHTML_ref ex_business [] Streaming formMarkupOk_ref ex_ended
           [ASend ex_response_ok; AOpen; ASpecialist;
            ASubmit (lit "Ann") (lit "ann@example.com") [] (LeadHttpResponse true)]
           eq_refl eq_refl).
Defined.

(** X12 at a stream whose result line has no newline after it: the only
    event is the status event of the first line. *)
Lemma unterminated_last_line_witness :
  JSON_parse_ref ex_unterminated_tail <> None
  /\ streamEvents JSON_parse_ref ex_chunks_unterminated
     = [JObj [(k_type, JStr (lit "status")); (lit "message", JStr (lit "Searching"))]].
Proof.
  split; [vm_compute; discriminate|].
  rewrite (proj1 (unterminated_last_line_is_dropped JSON_parse_ref ex_chunks_unterminated
                    (litq "{`type`:`status`,`message`:`Searching`}" ++ [10])
                    ex_unterminated_tail
                    ltac:(vm_compute; reflexivity)
                    ltac:(right; eexists; reflexivity)
                    ltac:(vm_compute; intuition discriminate))).
  vm_compute. reflexivity.
Defined.

(** X13 at a stream with a status event and an error event. *)
Lemma stream_without_result_witness :
  chatBody (exec (sendMessage_ref (HttpResponse true (Some (ex_chunks_status, StreamDone))))
              ex_typed)
  = [Bubble user (TextContent (JStr (lit "hello"))); TypingBubbleNode].
Proof.
  unfold exec.
  rewrite (stream_without_result_is_silent JSON_parse_ref NumberToLocaleString_enUS
             outerHTML_ref ex_business [] Streaming formMarkupOk_ref
             ex_chunks_status ex_typed eq_refl eq_refl).
  - vm_compute. reflexivity.
  - vm_compute. reflexivity.
  - vm_compute. reflexivity.
Defined.

(** X14 at a result event whose reply is the number 5: the id is taken,
    and the form its routing signal asks for is not shown. *)
Lemma non_string_reply_witness :
  leadGate ex_routing_yes JUndefined ex_session = true
  /\ onEvent NumberToLocaleString_enUS outerHTML_ref Streaming formMarkupOk_ref
       ex_event_number_reply ex_session
     = set_conversationId (JStr (lit "c-9")) ex_session.
Proof.
  split; [vm_compute; reflexivity|].
  exact (proj2 (non_string_reply_drops_turn NumberToLocaleString_enUS outerHTML_ref
                  Streaming formMarkupOk_ref ex_event_number_reply ex_data_number_reply
                  (JStr (lit "c-9")) (JNum (5 # 1)) ex_session
                  eq_refl eq_refl eq_refl eq_refl eq_refl eq_refl eq_refl)).
Defined.

(** X15 at a reply with a script element. *)
Lemma markup_passes_witness :
  renderAssistantMessage_ref (JStr ex_markup) false
  = Some (Bubble assistant (InnerHTML (JStr ex_markup))).
Proof.
  rewrite (markup_passes_unescaped NumberToLocaleString_enUS outerHTML_ref ex_markup false).
  - vm_compute. reflexivity.
  - vm_compute. reflexivity.
  - vm_compute. reflexivity.
Defined.

(** X16 at a card that gives [beds] twice and a [__proto__]: the second
    value of [beds] is read, nothing is stored for [__proto__], and
    [toString], which the card does not give, is there all the same. *)
Lemma parseAttrs_witness :
  List.concat (map attrSource ex_attrs)
  = litq " beds=`3` __proto__=`x` price=`450000` beds=`4`"
  /\ attrRead k_beds
       (parseAttrs (litq " beds=`3` __proto__=`x` price=`450000` beds=`4`") 0 [])
     = ReadString (lit "4")
  /\ attrGet k_proto
       (parseAttrs (litq " beds=`3` __proto__=`x` price=`450000` beds=`4`") 0 [])
     = None
  /\ attrRead (lit "toString")
       (parseAttrs (litq " beds=`3` __proto__=`x` price=`450000` beds=`4`") 0 [])
     = ReadInherited.
Proof.
  assert (Hvalid : Forall validAttr ex_attrs).
  { unfold ex_attrs.
    repeat (apply Forall_cons; [repeat split; vm_compute; reflexivity |]).
    apply Forall_nil. }
  assert (Hsrc : List.concat (map attrSource ex_attrs)
                 = litq " beds=`3` __proto__=`x` price=`450000` beds=`4`")
    by (vm_compute; reflexivity).
  split; [exact Hsrc|].
  destruct (parseAttrs_reads_back ex_attrs Hvalid) as (Hown & Hlast & Habsent & _).
  rewrite <- Hsrc. split; [|split].
  - exact (Hlast k_beds (lit "4")
             [(lit "beds", lit "3"); (lit "__proto__", lit "x"); (lit "price", lit "450000")]
             eq_refl eq_refl).
  - rewrite Hown. vm_compute. reflexivity.
  - rewrite (Habsent (lit "toString")); [reflexivity|].
    vm_compute. intuition discriminate.
Defined.

(** X18 at a message that names a tour and a home: the search phrases
    win. *)
Lemma typing_flavor_witness :
  exists phrase,
    getTypingFlavor toLowerCase_ascii (lit "Can I BOOK a tour of the Home?") (1 # 2)
    = Some phrase
    /\ In phrase searchPhrases.
Proof.
  destruct (typing_flavor_categories toLowerCase_ascii
              (lit "Can I BOOK a tour of the Home?") (1 # 2))
    as (phrase & E & _ & Hsearch & _).
  - unfold Qle. cbn. lia.
  - reflexivity.
  - exists phrase. split; [exact E|].
    apply (Hsearch (lit "home") (lit "can i book a tour of the ") (lit "?")).
    + vm_compute. tauto.
    + vm_compute. reflexivity.
Defined.

(** X19 at a configured base with spaces and a slash around it. *)
Lemma api_base_witness :
  API_BASE toStringOf_ref (JStr (lit " https://api.example.com/ ")) (lit "https://shop.example")
  = Some (lit "https://api.example.com")
  /\ nonEmpty (lit "https://api.example.com") = true.
Proof.
  assert (H : API_BASE toStringOf_ref (JStr (lit " https://api.example.com/ "))
                (lit "https://shop.example")
              = Some (lit "https://api.example.com")) by (vm_compute; reflexivity).
  split; [exact H|].
  exact (proj1 (api_base_never_empty toStringOf_ref _ _ _ H)).
Defined.

(** X23 at a streaming response without a body. *)
Lemma response_without_data_witness :
  chatBody (exec (sendMessage_ref (HttpResponse true None)) ex_typed)
  = [Bubble user (TextContent (JStr (lit "hello"))); TypingBubbleNode;
     Bubble assistant (InnerHTML (JStr apology))]
  /\ conversationId (exec (sendMessage_ref (HttpResponse true None)) ex_typed)
     = conversationId ex_typed.
Proof.
  assert (Hm : nonEmpty (trim (chatInput_value ex_typed)) = true)
    by (vm_compute; reflexivity).
  destruct (response_without_data_apologises JSON_parse_ref NumberToLocaleString_enUS
              outerHTML_ref ex_business [] Streaming formMarkupOk_ref
              (HttpResponse true None) ex_typed eq_refl eq_refl Hm eq_refl)
    as (_ & Hbody & Hcore).
  split; [rewrite Hbody; vm_compute; reflexivity | apply Hcore].
Defined.

(** X24 at the turn on which a product name brought the form up. *)
Lemma form_appears_witness :
  hasLeadForm (chatBody (exec (handleRouting_ref emptyObject ex_profile_product) ex_session))
  = true
  /\ truthy emptyObject = true
  /\ leadSubmitted ex_session = false.
Proof.
  assert (H : hasLeadForm (chatBody (exec (handleRouting_ref emptyObject ex_profile_product)
                                       ex_session)) = true) by (vm_compute; reflexivity).
  destruct (form_appears_only_through_gate formMarkupOk_ref emptyObject ex_profile_product
              ex_session eq_refl H) as (Hr & _ & Hs & _).
  split; [exact H|]. split; [exact Hr | exact Hs].
Defined.

Local Abbreviation irun_plain :=
  (irun JSON_parse_ref NumberToLocaleString_enUS outerHTML_ref ex_business []
     Plain formMarkupOk_ref).

(** X20 at the second of two forms, the first of which was submitted and
    then dismissed before its lead request was answered. *)
Lemma lead_form_meta_witness :
  In (LeadFormNode ex_form) (chatBody (irun_plain ex_session ex_second_form))
  /\ leadSubmitted (irun_plain ex_session ex_second_form) = false
  /\ exists m,
       pendingLeadMeta (irun_plain ex_session ex_second_form) = Some m
       /\ meta_summary m = JStr genericSummary.
Proof.
  assert (Hin : In (LeadFormNode ex_form) (chatBody (irun_plain ex_session ex_second_form)))
    by (vm_compute; repeat (first [left; reflexivity | right])).
  assert (Hs : leadSubmitted (irun_plain ex_session ex_second_form) = false)
    by (vm_compute; reflexivity).
  split; [exact Hin|]. split; [exact Hs|].
  exact (lead_form_has_its_meta JSON_parse_ref NumberToLocaleString_enUS
           outerHTML_ref ex_business [] Plain formMarkupOk_ref
           (RandomUUID ex_uuid) ex_second_form ex_form Hin Hs).
Defined.

(** When the request of the first form is then answered, the lead is
    accepted with the second form still in the chat body: the form stays,
    [leadFormVisible] is false and the lead meta is null. *)
Lemma late_lead_answer_example :
  chatBody (irun_plain ex_session (ex_second_form ++ [GLeadAccepted None]))
  = [Bubble user (TextContent (JStr (lit "hi")));
     Bubble assistant (TextContent (JStr (lit "ok")));
     Bubble user (TextContent (JStr (lit "more")));
     Bubble assistant (TextContent (JStr (lit "ok")));
     LeadFormNode ex_form;
     Bubble assistant (InnerHTML (JStr thanksMessage))]
  /\ leadFormVisible (irun_plain ex_session (ex_second_form ++ [GLeadAccepted None])) = false
  /\ leadSubmitted (irun_plain ex_session (ex_second_form ++ [GLeadAccepted None])) = true
  /\ pendingLeadMeta (irun_plain ex_session (ex_second_form ++ [GLeadAccepted None])) = None.
Proof. vm_compute. repeat split. Qed.
